(** * Inventory and tiered-portion pricing: a shallow embedding

    The development follows the components of the point-of-sale application
    that price portions and keep stock:

    - [PortionSelector.tsx], component [PortionSelector] ([getPortionPrice])
      and component [InventoryManager] ([DEFAULT_PORTIONS],
      [handleAddInventoryCategory], [handleAddStock], [handleRemoveCategory],
      [isLow]);
    - the per-item price editor [PortionPriceEditor] ([handleSave]);
    - the low-stock banner [LowStockAlert];
    - the dual printer ([printSplitKOT]) and the image helpers
      ([getOptimizedImageUrl], [generateSrcSet], [getOptimalSize],
      [getImageCacheKey]).

    The shared store ([useStore]) and the type declarations are not among
    the sources.  A handler is embedded as a function from the store it
    rendered from and its form fields to the list of calls it makes on the
    store, the message it shows and the fields it resets; the calls are given
    a meaning by [applyAction], which follows the specification.

    JavaScript numbers are embedded as rationals extended with [NaN] and the
    two infinities.  [num_add], [num_mul] and [num_div] are exact on finite
    values, and [getPortionPrice] is the price derivation over them.
    [round64] rounds a rational to the nearest binary64 value; [div64] and
    [mul64] round each result as the engine does, and [getPortionPrice64] is
    the price derivation as the engine evaluates it.  The sign of zero is
    left out.  Everything else ([NaN] propagation, division by zero,
    comparisons with [NaN], truthiness, [Math.min] of no argument) follows
    ECMAScript. *)

From Stdlib Require Import ZArith QArith Qround Qabs Qpower Lia Lqa Bool List String Ascii.
From Stdlib Require Import DecimalString Permutation Sorted.
Import ListNotations.

Local Open Scope Q_scope.

(** ** JavaScript numbers *)

Inductive number : Type :=
| NaN
| NegInf
| Fin (q : Q)
| PosInf.

Definition Qsign (q : Q) : comparison := q ?= 0.

(** [a * b] *)
Definition num_mul (a b : number) : number :=
  match a, b with
  | NaN, _ | _, NaN => NaN
  | Fin x, Fin y => Fin (x * y)
  | Fin x, PosInf | PosInf, Fin x =>
      match Qsign x with Eq => NaN | Gt => PosInf | Lt => NegInf end
  | Fin x, NegInf | NegInf, Fin x =>
      match Qsign x with Eq => NaN | Gt => NegInf | Lt => PosInf end
  | PosInf, PosInf | NegInf, NegInf => PosInf
  | PosInf, NegInf | NegInf, PosInf => NegInf
  end.

(** [a / b]; a zero divisor counts as [+0]. *)
Definition num_div (a b : number) : number :=
  match a, b with
  | NaN, _ | _, NaN => NaN
  | Fin x, Fin y =>
      match Qsign y with
      | Eq => match Qsign x with Eq => NaN | Gt => PosInf | Lt => NegInf end
      | _ => Fin (x / y)
      end
  | Fin _, PosInf | Fin _, NegInf => Fin 0
  | PosInf, Fin y => match Qsign y with Lt => NegInf | _ => PosInf end
  | NegInf, Fin y => match Qsign y with Lt => PosInf | _ => NegInf end
  | _, _ => NaN
  end.

(** [a + b] *)
Definition num_add (a b : number) : number :=
  match a, b with
  | NaN, _ | _, NaN => NaN
  | Fin x, Fin y => Fin (x + y)
  | PosInf, NegInf | NegInf, PosInf => NaN
  | PosInf, _ | _, PosInf => PosInf
  | NegInf, _ | _, NegInf => NegInf
  end.

(** [a <= b]: false as soon as one side is [NaN]. *)
Definition num_leb (a b : number) : bool :=
  match a, b with
  | NaN, _ | _, NaN => false
  | NegInf, _ => true
  | _, PosInf => true
  | Fin x, Fin y => Qle_bool x y
  | _, _ => false
  end.

(** [a < b]: false as soon as one side is [NaN]. *)
Definition num_ltb (a b : number) : bool :=
  match a, b with
  | NaN, _ | _, NaN => false
  | Fin x, Fin y => negb (Qle_bool y x)
  | NegInf, NegInf | PosInf, PosInf => false
  | NegInf, _ => true
  | _, PosInf => true
  | _, _ => false
  end.

(** [a === b] on numbers: [NaN] differs from itself. *)
Definition num_eqb (a b : number) : bool :=
  match a, b with
  | Fin x, Fin y => Qeq_bool x y
  | PosInf, PosInf | NegInf, NegInf => true
  | _, _ => false
  end.

(** Truthiness of a number: [0] and [NaN] are falsy. *)
Definition num_truthy (a : number) : bool :=
  match a with
  | NaN => false
  | Fin x => negb (Qeq_bool x 0)
  | _ => true
  end.

(** The smaller of two numbers, as [Math.min] combines them. *)
Definition num_min (a b : number) : number :=
  match a, b with
  | NaN, _ | _, NaN => NaN
  | NegInf, _ | _, NegInf => NegInf
  | PosInf, x | x, PosInf => x
  | Fin x, Fin y => if Qle_bool x y then Fin x else Fin y
  end.

(** [Math.min(...xs)]: [Infinity] when there is no argument. *)
Definition Math_min (xs : list number) : number :=
  fold_right num_min PosInf xs.

(** [Math.round]: the nearest integer, halves towards [+Infinity]. *)
Definition Math_round (a : number) : number :=
  match a with
  | Fin x => Fin (inject_Z (Qfloor (x + (1 # 2))))
  | other => other
  end.

(** Truthiness of a string: only the empty string is falsy. *)
Definition str_truthy (s : string) : bool :=
  match s with EmptyString => false | _ => true end.

(** ** [parseFloat] *)

Definition isWhiteSpace (c : ascii) : bool :=
  let n := nat_of_ascii c in
  ((n =? 32) || (n =? 9) || (n =? 10) || (n =? 11) || (n =? 12) || (n =? 13))%nat.

Definition isDigit (c : ascii) : bool :=
  let n := nat_of_ascii c in ((48 <=? n) && (n <=? 57))%nat.

Fixpoint skipWhiteSpace (s : string) : string :=
  match s with
  | String c r => if isWhiteSpace c then skipWhiteSpace r else s
  | EmptyString => s
  end.

(** Longest run of decimal digits at the front of [s], and what follows. *)
Fixpoint spanDigits (s : string) : list ascii * string :=
  match s with
  | String c r =>
      if isDigit c then let (ds, rest) := spanDigits r in (c :: ds, rest)
      else ([], s)
  | EmptyString => ([], s)
  end.

Definition digitsValue (ds : list ascii) : Z :=
  fold_left (fun acc c => (10 * acc + (Z.of_nat (nat_of_ascii c) - 48))%Z) ds 0%Z.

Definition readSign (s : string) : bool * string :=
  match s with
  | String "+" r => (false, r)
  | String "-" r => (true, r)
  | _ => (false, s)
  end.

(** The exponent part [e[+-]digits]; it counts only when a digit follows. *)
Definition readExponent (s : string) : Z :=
  match s with
  | String c r =>
      if (Ascii.eqb c "e" || Ascii.eqb c "E")%bool then
        let (neg, r') := readSign r in
        let (ds, _) := spanDigits r' in
        match ds with
        | [] => 0%Z
        | _ => if neg then (- digitsValue ds)%Z else digitsValue ds
        end
      else 0%Z
  | EmptyString => 0%Z
  end.

(** [parseFloat(s)]: leading white space is skipped, the longest prefix that
    is a decimal literal is read, and [NaN] is returned when there is none. *)
Definition parseFloat (s : string) : number :=
  let (neg, s1) := readSign (skipWhiteSpace s) in
  if String.prefix "Infinity" s1 then (if neg then NegInf else PosInf)
  else
    let (ip, s2) := spanDigits s1 in
    let (fp, s3) :=
      match s2 with
      | String "." r => spanDigits r
      | _ => ([], s2)
      end in
    match ip, fp with
    | [], [] => NaN
    | _, _ =>
        let mant := inject_Z (digitsValue (ip ++ fp))
                    / inject_Z (10 ^ Z.of_nat (List.length fp)) in
        let v := mant * Qpower 10 (readExponent s3) in
        Fin (Qred (if neg then - v else v))
    end.

(** ** Data model

    The type declarations are not among the sources; the records list the
    fields the components read and write. *)

Inductive InventoryUnitType : Type := ml | pcs | grams | bottle | pack.

Definition InventoryUnitType_eqb (a b : InventoryUnitType) : bool :=
  match a, b with
  | ml, ml | pcs, pcs | grams, grams | bottle, bottle | pack, pack => true
  | _, _ => false
  end.

Module Category.
Record t : Type := { id : string; name : string }.
End Category.

Module MenuItem.
Record t : Type :=
  { id : string; name : string; price : number; category : string }.
End MenuItem.

Module InventoryCategory.
Record t : Type :=
  { id : string;
    categoryId : string;
    unitType : InventoryUnitType;
    lowStockThreshold : number }.
End InventoryCategory.

Module PortionOption.
Record t : Type :=
  { id : string;
    inventoryCategoryId : string;
    name : string;
    size : number;
    priceMultiplier : number;
    sortOrder : nat;
    fixedPrice : option number }.
End PortionOption.

Module InventoryItem.
Record t : Type :=
  { id : string;
    menuItemId : string;
    currentStock : number;
    defaultBottleSize : option number;
    unit : InventoryUnitType;
    lowStockThreshold : option number }.
End InventoryItem.

Module ItemPortionPrice.
Record t : Type :=
  { menuItemId : string; portionOptionId : string; price : number }.
End ItemPortionPrice.

Module StockMutationEvent.
Record t : Type :=
  { menuItemId : string;
    quantity : number;
    unit : InventoryUnitType;
    notes : string }.
End StockMutationEvent.

(** The shared store the components read through [useStore]. *)
Record Store : Type :=
  { categories : list Category.t;
    menuItems : list MenuItem.t;
    inventoryCategories : list InventoryCategory.t;
    inventoryItems : list InventoryItem.t;
    portionOptions : list PortionOption.t;
    itemPortionPrices : list ItemPortionPrice.t;
    stockLedger : list StockMutationEvent.t }.

(** ** Price derivation ([PortionSelector]) *)

(** [getPortionPrice]: the component's [item] and [portions] are explicit.
    The quotient and the product are exact here; [getPortionPrice64] below
    rounds them. *)
Definition getPortionPrice (item : MenuItem.t) (portions : list PortionOption.t)
    (portion : PortionOption.t) : number :=
  let baseMultiplier := Math_min (map PortionOption.priceMultiplier portions) in
  let baseUnitPrice := num_div (MenuItem.price item) baseMultiplier in
  Math_round (num_mul baseUnitPrice (PortionOption.priceMultiplier portion)).

(** ** Binary64 rounding

    The engine rounds the result of every division and multiplication to the
    nearest binary64 value, a tie going to the even significand. *)

(** [2^e] *)
Definition pow2 (e : Z) : Q := Qpower 2 e.

(** For [x > 0], the exponent [e] with [2^e <= x < 2^(e+1)]. *)
Definition floorLog2 (x : Q) : Z :=
  let k := (Z.log2 (Qnum x) - Z.log2 (Zpos (Qden x)))%Z in
  if Qle_bool (pow2 k) x then k else (k - 1)%Z.

(** The nearest integer, a tie going to the even one. *)
Definition roundHalfEven (x : Q) : Z :=
  let f := Qfloor x in
  match Qcompare (x - inject_Z f) (1 # 2) with
  | Lt => f
  | Gt => (f + 1)%Z
  | Eq => if Z.even f then f else (f + 1)%Z
  end.

(** A magnitude [a > 0] rounded to 53 significant bits; below [2^-1022] the
    spacing stays [2^-1074]. *)
Definition roundMagnitude (a : Q) : Q :=
  let q := Z.max (floorLog2 a - 52) (-1074) in
  inject_Z (roundHalfEven (a / pow2 q)) * pow2 q.

(** The binary64 value nearest to [x]; a magnitude that rounds to [2^1024]
    or more overflows to an infinity. *)
Definition round64 (x : Q) : number :=
  match Qsign x with
  | Eq => Fin 0
  | Gt => let r := roundMagnitude x in
          if Qle_bool (pow2 1024) r then PosInf else Fin (Qred r)
  | Lt => let r := roundMagnitude (- x) in
          if Qle_bool (pow2 1024) r then NegInf else Fin (Qred (- r))
  end.

(** A finite result is rounded; [NaN] and the infinities stay. *)
Definition lift64 (v : number) : number :=
  match v with
  | Fin q => round64 q
  | other => other
  end.

(** [a / b] as the engine computes it. *)
Definition div64 (a b : number) : number := lift64 (num_div a b).

(** [a * b] as the engine computes it. *)
Definition mul64 (a b : number) : number := lift64 (num_mul a b).

(** [getPortionPrice] with the division and the multiplication rounded as
    the engine rounds them.  [Math.min] returns one of its arguments and
    [Math.round] of a binary64 value is a binary64 value, so neither rounds. *)
Definition getPortionPrice64 (item : MenuItem.t) (portions : list PortionOption.t)
    (portion : PortionOption.t) : number :=
  let baseMultiplier := Math_min (map PortionOption.priceMultiplier portions) in
  let baseUnitPrice := div64 (MenuItem.price item) baseMultiplier in
  Math_round (mul64 baseUnitPrice (PortionOption.priceMultiplier portion)).

(** [x] lies between [2^-k] and [2^k]. *)
Definition inRange (k : Z) (x : Q) : Prop := pow2 (- k) <= x /\ x <= pow2 k.

(** ** Default portion templates ([InventoryManager]) *)

Module Template.
Record t : Type := { name : string; size : number; multiplier : number }.
End Template.

Definition DEFAULT_PORTIONS (u : InventoryUnitType) : option (list Template.t) :=
  match u with
  | ml => Some
      [ {| Template.name := "30ml (Peg)"; Template.size := Fin 30; Template.multiplier := Fin 0.5 |};
        {| Template.name := "60ml (Large)"; Template.size := Fin 60; Template.multiplier := Fin 1 |};
        {| Template.name := "90ml"; Template.size := Fin 90; Template.multiplier := Fin 1.5 |};
        {| Template.name := "180ml (QTR)"; Template.size := Fin 180; Template.multiplier := Fin 2.8 |};
        {| Template.name := "375ml (Half)"; Template.size := Fin 375; Template.multiplier := Fin 5.5 |};
        {| Template.name := "750ml (Full)"; Template.size := Fin 750; Template.multiplier := Fin 10 |};
        {| Template.name := "1000ml"; Template.size := Fin 1000; Template.multiplier := Fin 13.3 |} ]
  | pcs => Some
      [ {| Template.name := "1 Piece"; Template.size := Fin 1; Template.multiplier := Fin 1 |};
        {| Template.name := "Pack (20)"; Template.size := Fin 20; Template.multiplier := Fin 18 |} ]
  | _ => None
  end.

(** [DEFAULT_PORTIONS[selectedUnit] || DEFAULT_PORTIONS.pcs] *)
Definition defaultPortionsFor (u : InventoryUnitType) : list Template.t :=
  match DEFAULT_PORTIONS u with
  | Some l => l
  | None => match DEFAULT_PORTIONS pcs with Some l => l | None => [] end
  end.

(** The multiplier a template charges per unit of size. *)
Definition perUnit (t : Template.t) : number :=
  num_div (Template.multiplier t) (Template.size t).

(** [r x y] holds for every [x] that comes before [y] in the list. *)
Fixpoint allPairs {A : Type} (r : A -> A -> bool) (l : list A) : bool :=
  match l with
  | [] => true
  | x :: rest => forallb (r x) rest && allPairs r rest
  end.

(** ** Store operations *)

(** The calls a component makes on the store. *)
Inductive action : Type :=
| AddInventoryCategory (categoryId : string) (unitType : InventoryUnitType)
    (lowStockThreshold : number)
| AddPortionOption (inventoryCategoryId name : string) (size priceMultiplier : number)
    (sortOrder : nat)
| AddInventoryItem (menuItemId : string) (currentStock : number)
    (defaultBottleSize : option number) (unit : InventoryUnitType)
    (lowStockThreshold : number)
| DeletePortionOption (id : string)
| DeleteInventoryItem (id : string)
| DeleteInventoryCategory (id : string)
| AddStock (menuItemId : string) (quantity : number) (unit : InventoryUnitType)
    (notes : string)
| SetItemPortionPrice (menuItemId portionOptionId : string) (price : number).

Definition isFinite (a : number) : bool :=
  match a with Fin _ => true | _ => false end.

(** Modelled from the spec: [getInventoryByMenuItemId] of the store, which is
    not among the sources; the InventoryItem of a menu item (1:1). *)
Definition getInventoryByMenuItemId (s : Store) (menuItemId : string)
    : option InventoryItem.t :=
  find (fun ii => String.eqb (InventoryItem.menuItemId ii) menuItemId)
       (inventoryItems s).

(** Modelled from the spec: [getItemPortionPrice] of the store, which is not
    among the sources; the override stored for (item, portion), if any. *)
Definition getItemPortionPrice (s : Store) (menuItemId portionOptionId : string)
    : option number :=
  option_map ItemPortionPrice.price
    (find (fun ip => String.eqb (ItemPortionPrice.menuItemId ip) menuItemId
                     && String.eqb (ItemPortionPrice.portionOptionId ip) portionOptionId)
          (itemPortionPrices s)).

(** Modelled from the spec: [getPortionsByCategory] of the store, which is not
    among the sources; the PortionOptions of the InventoryCategory owned by
    the category of that name. *)
Definition getPortionsByCategory (s : Store) (categoryName : string)
    : list PortionOption.t :=
  match find (fun c => String.eqb (Category.name c) categoryName) (categories s) with
  | None => []
  | Some c =>
      match find (fun ic => String.eqb (InventoryCategory.categoryId ic) (Category.id c))
                 (inventoryCategories s) with
      | None => []
      | Some ic =>
          filter (fun p => String.eqb (PortionOption.inventoryCategoryId p)
                                      (InventoryCategory.id ic))
                 (portionOptions s)
      end
  end.

Section StoreOperations.

(** How the store names a new row is not specified: any generator will do. *)
Variable freshId : Store -> string.

Definition setInventoryCategories (s : Store) l : Store :=
  {| categories := categories s; menuItems := menuItems s;
     inventoryCategories := l; inventoryItems := inventoryItems s;
     portionOptions := portionOptions s;
     itemPortionPrices := itemPortionPrices s; stockLedger := stockLedger s |}.

Definition setInventoryItems (s : Store) l : Store :=
  {| categories := categories s; menuItems := menuItems s;
     inventoryCategories := inventoryCategories s; inventoryItems := l;
     portionOptions := portionOptions s;
     itemPortionPrices := itemPortionPrices s; stockLedger := stockLedger s |}.

Definition setPortionOptions (s : Store) l : Store :=
  {| categories := categories s; menuItems := menuItems s;
     inventoryCategories := inventoryCategories s;
     inventoryItems := inventoryItems s; portionOptions := l;
     itemPortionPrices := itemPortionPrices s; stockLedger := stockLedger s |}.

Definition setItemPortionPrices (s : Store) l : Store :=
  {| categories := categories s; menuItems := menuItems s;
     inventoryCategories := inventoryCategories s;
     inventoryItems := inventoryItems s; portionOptions := portionOptions s;
     itemPortionPrices := l; stockLedger := stockLedger s |}.

Definition setStockLedger (s : Store) l : Store :=
  {| categories := categories s; menuItems := menuItems s;
     inventoryCategories := inventoryCategories s;
     inventoryItems := inventoryItems s; portionOptions := portionOptions s;
     itemPortionPrices := itemPortionPrices s; stockLedger := l |}.

(** Modelled from the spec: the store's mutators ([addInventoryCategory],
    [addPortionOption], [addInventoryItem], the three deletions, [addStock]
    and [setItemPortionPrice]) are not among the sources.  A creation
    appends one row under a new id, a deletion drops the rows of that id,
    [addStock] needs a tracked item and a finite quantity, records the
    event and then adds the signed quantity to [currentStock], and
    [setItemPortionPrice] creates or replaces the override of the pair. *)
Definition applyAction (a : action) (s : Store) : Store :=
  match a with
  | AddInventoryCategory cid u t =>
      setInventoryCategories s
        (inventoryCategories s ++
         [ {| InventoryCategory.id := freshId s;
              InventoryCategory.categoryId := cid;
              InventoryCategory.unitType := u;
              InventoryCategory.lowStockThreshold := t |} ])
  | AddPortionOption icid n sz m so =>
      setPortionOptions s
        (portionOptions s ++
         [ {| PortionOption.id := freshId s;
              PortionOption.inventoryCategoryId := icid;
              PortionOption.name := n;
              PortionOption.size := sz;
              PortionOption.priceMultiplier := m;
              PortionOption.sortOrder := so;
              PortionOption.fixedPrice := None |} ])
  | AddInventoryItem mid stock dbs u t =>
      setInventoryItems s
        (inventoryItems s ++
         [ {| InventoryItem.id := freshId s;
              InventoryItem.menuItemId := mid;
              InventoryItem.currentStock := stock;
              InventoryItem.defaultBottleSize := dbs;
              InventoryItem.unit := u;
              InventoryItem.lowStockThreshold := Some t |} ])
  | DeletePortionOption i =>
      setPortionOptions s
        (filter (fun p => negb (String.eqb (PortionOption.id p) i)) (portionOptions s))
  | DeleteInventoryItem i =>
      setInventoryItems s
        (filter (fun ii => negb (String.eqb (InventoryItem.id ii) i)) (inventoryItems s))
  | DeleteInventoryCategory i =>
      setInventoryCategories s
        (filter (fun ic => negb (String.eqb (InventoryCategory.id ic) i))
                (inventoryCategories s))
  | AddStock mid q u n =>
      match getInventoryByMenuItemId s mid with
      | None => s
      | Some _ =>
          if isFinite q then
            setInventoryItems
              (setStockLedger s
                 (stockLedger s ++
                  [ {| StockMutationEvent.menuItemId := mid;
                       StockMutationEvent.quantity := q;
                       StockMutationEvent.unit := u;
                       StockMutationEvent.notes := n |} ]))
              (map (fun ii =>
                      if String.eqb (InventoryItem.menuItemId ii) mid then
                        {| InventoryItem.id := InventoryItem.id ii;
                           InventoryItem.menuItemId := InventoryItem.menuItemId ii;
                           InventoryItem.currentStock :=
                             num_add (InventoryItem.currentStock ii) q;
                           InventoryItem.defaultBottleSize :=
                             InventoryItem.defaultBottleSize ii;
                           InventoryItem.unit := InventoryItem.unit ii;
                           InventoryItem.lowStockThreshold :=
                             InventoryItem.lowStockThreshold ii |}
                      else ii)
                   (inventoryItems s))
          else s
      end
  | SetItemPortionPrice mid pid v =>
      setItemPortionPrices s
        (filter (fun ip => negb (String.eqb (ItemPortionPrice.menuItemId ip) mid
                                 && String.eqb (ItemPortionPrice.portionOptionId ip) pid))
                (itemPortionPrices s) ++
         [ {| ItemPortionPrice.menuItemId := mid;
              ItemPortionPrice.portionOptionId := pid;
              ItemPortionPrice.price := v |} ])
  end.

(** The calls of a handler, applied in the order they are made. *)
Definition run (acts : list action) (s : Store) : Store :=
  fold_left (fun st a => applyAction a st) acts s.

End StoreOperations.

(** ** Handlers of [InventoryManager] *)

Inductive Toast : Type :=
| toast_error (msg : string)
| toast_success (msg : string).

(** What a handler leaves behind: the calls it made on the store, the store
    they produce, the message shown and the component's own fields. *)
Record Outcome (F : Type) : Type :=
  { store_after : Store;
    issued : list action;
    toast : option Toast;
    form_after : F }.

Arguments store_after {F} _.
Arguments issued {F} _.
Arguments toast {F} _.
Arguments form_after {F} _.

(** [xs.forEach((x, i) => ...)]: every element with its index. *)
Definition indexed {A : Type} (xs : list A) : list (nat * A) :=
  combine (seq 0 (List.length xs)) xs.

Record CategoryForm : Type :=
  { selectedCategory : string;
    selectedUnit : InventoryUnitType;
    lowStockThreshold : string;
    showAddCategoryModal : bool }.

Record StockForm : Type :=
  { stockMenuItemId : string;
    stockQuantity : string;
    stockNotes : string;
    bottleCount : string;
    bottleSize : string;
    customBottleSize : string;
    showAddStockModal : bool }.

(** The portions seeded for the InventoryCategory [newInvCat]. *)
Definition seedPortions (newInvCat : InventoryCategory.t) (u : InventoryUnitType)
    : list action :=
  map (fun ip : nat * Template.t =>
         let (i, p) := ip in
         AddPortionOption (InventoryCategory.id newInvCat) (Template.name p)
           (Template.size p) (Template.multiplier p) i)
      (indexed (defaultPortionsFor u)).

(** The stock records seeded for the menu items of the category [cat]. *)
Definition seedItems (s : Store) (cat : Category.t) (f : CategoryForm) : list action :=
  map (fun item =>
         AddInventoryItem (MenuItem.id item) (Fin 0)
           (if InventoryUnitType_eqb (selectedUnit f) ml then Some (Fin 750) else None)
           (selectedUnit f)
           (parseFloat (lowStockThreshold f)))
      (filter (fun m => String.eqb (MenuItem.category m) (Category.name cat))
              (menuItems s)).

Section Handlers.

Variable freshId : Store -> string.

(** [handleAddInventoryCategory]; the component has rendered from [s]. *)
Definition handleAddInventoryCategory (s : Store) (f : CategoryForm)
    : Outcome CategoryForm :=
  if negb (str_truthy (selectedCategory f)) then
    {| store_after := s; issued := [];
       toast := Some (toast_error "Select a category"); form_after := f |}
  else
    match find (fun c => String.eqb (Category.id c) (selectedCategory f)) (categories s) with
    | None => {| store_after := s; issued := []; toast := None; form_after := f |}
    | Some cat =>
        let add := AddInventoryCategory (selectedCategory f) (selectedUnit f)
                     (parseFloat (lowStockThreshold f)) in
        let s1 := applyAction freshId add s in
        let portions :=
          match find (fun ic => String.eqb (InventoryCategory.categoryId ic)
                                            (selectedCategory f))
                     (inventoryCategories s1) with
          | Some newInvCat => seedPortions newInvCat (selectedUnit f)
          | None => []
          end in
        let acts := add :: portions ++ seedItems s cat f in
        {| store_after := run freshId acts s;
           issued := acts;
           toast := Some (toast_success (Category.name cat ++ " added to inventory tracking"));
           form_after :=
             {| selectedCategory := "";
                selectedUnit := selectedUnit f;
                lowStockThreshold := lowStockThreshold f;
                showAddCategoryModal := false |} |}
    end.

(** The quantity [handleAddStock] computes from the form. *)
Definition totalQuantity (f : StockForm) : number :=
  if str_truthy (bottleCount f) && str_truthy (bottleSize f) then
    let size := if String.eqb (bottleSize f) "custom"
                then parseFloat (customBottleSize f)
                else parseFloat (bottleSize f) in
    num_mul (parseFloat (bottleCount f)) size
  else if str_truthy (stockQuantity f) then parseFloat (stockQuantity f)
  else Fin 0.

(** The notes [handleAddStock] passes on. *)
Definition stockNotesFor (f : StockForm) : string :=
  if str_truthy (bottleCount f) then
    (bottleCount f ++ " bottles × "
     ++ (if String.eqb (bottleSize f) "custom" then customBottleSize f else bottleSize f)
     ++ "ml"
     ++ (if str_truthy (stockNotes f) then " - " ++ stockNotes f else ""))%string
  else stockNotes f.

Definition resetStockForm : StockForm :=
  {| stockMenuItemId := ""; stockQuantity := ""; stockNotes := "";
     bottleCount := ""; bottleSize := "750"; customBottleSize := "";
     showAddStockModal := false |}.

(** [handleAddStock] *)
Definition handleAddStock (s : Store) (f : StockForm) : Outcome StockForm :=
  if negb (str_truthy (stockMenuItemId f))
     || (negb (str_truthy (stockQuantity f)) && negb (str_truthy (bottleCount f))) then
    {| store_after := s; issued := [];
       toast := Some (toast_error "Select item and enter quantity"); form_after := f |}
  else
    match getInventoryByMenuItemId s (stockMenuItemId f) with
    | None =>
        {| store_after := s; issued := [];
           toast := Some (toast_error "Item not tracked in inventory"); form_after := f |}
    | Some invItem =>
        if num_leb (totalQuantity f) (Fin 0) then
          {| store_after := s; issued := [];
             toast := Some (toast_error "Enter a valid quantity"); form_after := f |}
        else
          let acts := [ AddStock (stockMenuItemId f) (totalQuantity f)
                          (InventoryItem.unit invItem) (stockNotesFor f) ] in
          {| store_after := run freshId acts s;
             issued := acts;
             toast := Some (toast_success "Stock added successfully");
             form_after := resetStockForm |}
    end.

(** The calls of [handleRemoveCategory], computed from the rendered store. *)
Definition removeCategoryCalls (s : Store) (catId : string) : list action :=
  match find (fun ic => String.eqb (InventoryCategory.categoryId ic) catId)
             (inventoryCategories s) with
  | None => []
  | Some invCat =>
      map (fun p => DeletePortionOption (PortionOption.id p))
          (filter (fun p => String.eqb (PortionOption.inventoryCategoryId p)
                                       (InventoryCategory.id invCat))
                  (portionOptions s))
      ++ match find (fun c => String.eqb (Category.id c) catId) (categories s) with
         | None => []
         | Some cat =>
             flat_map
               (fun item =>
                  match find (fun ii => String.eqb (InventoryItem.menuItemId ii)
                                                   (MenuItem.id item))
                             (inventoryItems s) with
                  | Some invItem => [DeleteInventoryItem (InventoryItem.id invItem)]
                  | None => []
                  end)
               (filter (fun m => String.eqb (MenuItem.category m) (Category.name cat))
                       (menuItems s))
         end
      ++ [DeleteInventoryCategory (InventoryCategory.id invCat)]
  end.

(** [handleRemoveCategory]; [confirmed] is the answer to the confirmation. *)
Definition handleRemoveCategory (confirmed : bool) (s : Store) (catId : string)
    : Outcome unit :=
  if negb confirmed then
    {| store_after := s; issued := []; toast := None; form_after := tt |}
  else
    let acts := removeCategoryCalls s catId in
    {| store_after := run freshId acts s;
       issued := acts;
       toast := Some (toast_success "Category removed from inventory");
       form_after := tt |}.

End Handlers.

(** ** Reading the store after a handler *)

(** The portion row seeded from the template at position [fst ip] for the
    InventoryCategory [icid]. *)
Definition seededFrom (icid : string) (ip : nat * Template.t) (row : PortionOption.t)
    : Prop :=
  PortionOption.inventoryCategoryId row = icid
  /\ PortionOption.name row = Template.name (snd ip)
  /\ PortionOption.size row = Template.size (snd ip)
  /\ PortionOption.priceMultiplier row = Template.multiplier (snd ip)
  /\ PortionOption.sortOrder row = fst ip.

(** The stock row seeded for the menu item [m] from the form [f]. *)
Definition stockSeeded (f : CategoryForm) (m : MenuItem.t) (row : InventoryItem.t)
    : Prop :=
  InventoryItem.menuItemId row = MenuItem.id m
  /\ InventoryItem.currentStock row = Fin 0
  /\ InventoryItem.defaultBottleSize row
     = match selectedUnit f with ml => Some (Fin 750) | _ => None end
  /\ InventoryItem.unit row = selectedUnit f
  /\ InventoryItem.lowStockThreshold row = Some (parseFloat (lowStockThreshold f)).

(** The InventoryCategory row a registration from form [f] creates. *)
Definition registeredRow (freshId : Store -> string) (s : Store) (f : CategoryForm)
    : InventoryCategory.t :=
  {| InventoryCategory.id := freshId s;
     InventoryCategory.categoryId := selectedCategory f;
     InventoryCategory.unitType := selectedUnit f;
     InventoryCategory.lowStockThreshold := parseFloat (lowStockThreshold f) |}.

Definition isDeletion (a : action) : bool :=
  match a with
  | DeletePortionOption _ | DeleteInventoryItem _ | DeleteInventoryCategory _ => true
  | _ => false
  end.

Definition deletesPortion (acts : list action) (p : PortionOption.t) : bool :=
  existsb (fun a => match a with
                    | DeletePortionOption i => String.eqb (PortionOption.id p) i
                    | _ => false
                    end) acts.

Definition deletesItem (acts : list action) (ii : InventoryItem.t) : bool :=
  existsb (fun a => match a with
                    | DeleteInventoryItem i => String.eqb (InventoryItem.id ii) i
                    | _ => false
                    end) acts.

Definition deletesCategory (acts : list action) (ic : InventoryCategory.t) : bool :=
  existsb (fun a => match a with
                    | DeleteInventoryCategory i => String.eqb (InventoryCategory.id ic) i
                    | _ => false
                    end) acts.

(** The menu items of the category [cat], as both handlers select them. *)
Definition itemsInCategory (s : Store) (cat : Category.t) : list MenuItem.t :=
  filter (fun m => String.eqb (MenuItem.category m) (Category.name cat)) (menuItems s).


(** [x || 5] for an optional number. *)
Definition orFive (x : option number) : number :=
  match x with
  | Some t => if num_truthy t then t else Fin 5
  | None => Fin 5
  end.

(** [isLow] of the stock cards. *)
Definition isLow (invItem : InventoryItem.t) : bool :=
  num_leb (InventoryItem.currentStock invItem)
          (orFive (InventoryItem.lowStockThreshold invItem)).

(** The threshold as the specification resolves it:
    [item.lowStockThreshold ?? categoryDefaultThreshold ?? 5]. *)
Definition resolveThreshold_spec (itemThreshold categoryDefaultThreshold : option number)
    : number :=
  match itemThreshold with
  | Some t => t
  | None => match categoryDefaultThreshold with Some t => t | None => Fin 5 end
  end.

(** Low-stock membership as the specification words it. *)
Definition isLow_spec (invItem : InventoryItem.t)
    (categoryDefaultThreshold : option number) : bool :=
  num_leb (InventoryItem.currentStock invItem)
          (resolveThreshold_spec (InventoryItem.lowStockThreshold invItem)
                                 categoryDefaultThreshold).

(** ** The per-item price editor *)

(** [prices[portion.id]] in the editor's local table. *)
Fixpoint lookupPrice (prices : list (string * string)) (portionId : string)
    : option string :=
  match prices with
  | [] => None
  | (k, v) :: rest => if String.eqb k portionId then Some v else lookupPrice rest portionId
  end.

(** [newPrice !== currentPrice], where [currentPrice] may be undefined. *)
Definition priceChanged (newPrice : number) (currentPrice : option number) : bool :=
  match currentPrice with
  | None => true
  | Some c => negb (num_eqb newPrice c)
  end.

Section PriceEditor.

Variable freshId : Store -> string.

(** One round of the loop of [handleSave]: the store so far and the calls
    made so far. *)
Definition saveStep (menuItem : MenuItem.t) (prices : list (string * string))
    (acc : Store * list action) (portion : PortionOption.t) : Store * list action :=
  let (st, acts) := acc in
  let newPrice :=
    match lookupPrice prices (PortionOption.id portion) with
    | Some priceStr => if str_truthy priceStr then Some (parseFloat priceStr) else None
    | None => None
    end in
  let currentPrice :=
    getItemPortionPrice st (MenuItem.id menuItem) (PortionOption.id portion) in
  match newPrice with
  | Some v =>
      if priceChanged v currentPrice then
        let a := SetItemPortionPrice (MenuItem.id menuItem) (PortionOption.id portion) v in
        (applyAction freshId a st, acts ++ [a])
      else acc
  | None => acc
  end.

(** [handleSave] *)
Definition handleSave (s : Store) (menuItem : MenuItem.t)
    (portions : list PortionOption.t) (prices : list (string * string))
    : Outcome unit :=
  let (st, acts) := fold_left (saveStep menuItem prices) portions (s, []) in
  {| store_after := st;
     issued := acts;
     toast := match acts with
              | [] => None
              | _ => Some (toast_success ("Prices updated for " ++ MenuItem.name menuItem))
              end;
     form_after := tt |}.

End PriceEditor.

(** The price [PortionSelector] shows for [portion] when it renders [item]
    from the store [s]. *)
Definition selectorPrice (s : Store) (item : MenuItem.t) (portion : PortionOption.t)
    : number :=
  getPortionPrice item (getPortionsByCategory s (MenuItem.category item)) portion.

(** ** A worked store: category Drinks with the item Whisky at Rs 150 *)

Module Scenario.

(** Row ids drawn from the number of rows already stored. *)
Definition counterId (s : Store) : string :=
  ("row-" ++ NilEmpty.string_of_uint
     (Nat.to_uint (List.length (inventoryCategories s)
                   + List.length (portionOptions s)
                   + List.length (inventoryItems s))))%string.

Definition drinks : Category.t :=
  {| Category.id := "drinks-id"; Category.name := "Drinks" |}.

Definition whisky : MenuItem.t :=
  {| MenuItem.id := "whisky-id"; MenuItem.name := "Whisky";
     MenuItem.price := Fin 150; MenuItem.category := "Drinks" |}.

Definition untracked : Store :=
  {| categories := [drinks]; menuItems := [whisky];
     inventoryCategories := []; inventoryItems := []; portionOptions := [];
     itemPortionPrices := []; stockLedger := [] |}.

Definition registerDrinks : CategoryForm :=
  {| selectedCategory := "drinks-id"; selectedUnit := ml;
     lowStockThreshold := "5"; showAddCategoryModal := true |}.

(** The store once Drinks is tracked in [ml]. *)
Definition tracked : Store :=
  store_after (handleAddInventoryCategory counterId untracked registerDrinks).

Definition portions : list PortionOption.t :=
  getPortionsByCategory tracked "Drinks".

(** The seeded portion of the given size. *)
Definition portionOfSize (sz : Q) : option PortionOption.t :=
  find (fun p => num_eqb (PortionOption.size p) (Fin sz)) portions.

Definition blank : PortionOption.t :=
  {| PortionOption.id := ""; PortionOption.inventoryCategoryId := "";
     PortionOption.name := ""; PortionOption.size := NaN;
     PortionOption.priceMultiplier := NaN; PortionOption.sortOrder := 0%nat;
     PortionOption.fixedPrice := None |}.

(** The seeded portion at the given position of the ladder. *)
Definition portionAt (i : nat) : PortionOption.t := nth i portions blank.

(** The price the selector shows for the seeded portion of the given size. *)
Definition priceOfSize (s : Store) (sz : Q) : option number :=
  option_map (selectorPrice s whisky) (portionOfSize sz).

(** The 750ml portion, and the store after the editor saved Rs 1400 for
    Whisky at that portion. *)
Definition fullBottle : PortionOption.t := portionAt 5.

Definition priced : Store :=
  store_after
    (handleSave counterId tracked whisky portions
       [(PortionOption.id fullBottle, "1400"%string)]).

(** Stock forms: three bottles of 750ml, 2250 typed directly, three bottles
    of a custom size that was never typed, and nothing typed at all. *)
Definition bottles3x750 : StockForm :=
  {| stockMenuItemId := "whisky-id"; stockQuantity := ""; stockNotes := "";
     bottleCount := "3"; bottleSize := "750"; customBottleSize := "";
     showAddStockModal := true |}.

Definition direct2250 : StockForm :=
  {| stockMenuItemId := "whisky-id"; stockQuantity := "2250"; stockNotes := "";
     bottleCount := ""; bottleSize := "750"; customBottleSize := "";
     showAddStockModal := true |}.

Definition customWithoutSize : StockForm :=
  {| stockMenuItemId := "whisky-id"; stockQuantity := ""; stockNotes := "";
     bottleCount := "3"; bottleSize := "custom"; customBottleSize := "";
     showAddStockModal := true |}.

Definition nothingTyped : StockForm :=
  {| stockMenuItemId := "whisky-id"; stockQuantity := ""; stockNotes := "";
     bottleCount := ""; bottleSize := "750"; customBottleSize := "";
     showAddStockModal := true |}.

(** A stock record of Whisky with the given stock and item threshold. *)
Definition stockRow (stock : number) (threshold : option number) : InventoryItem.t :=
  {| InventoryItem.id := "row"; InventoryItem.menuItemId := "whisky-id";
     InventoryItem.currentStock := stock; InventoryItem.defaultBottleSize := None;
     InventoryItem.unit := ml; InventoryItem.lowStockThreshold := threshold |}.

End Scenario.

(** ** Prices on which the binary64 rounding shows *)

Module Rounding.

(** A menu item of category Drinks with the given price. *)
Definition itemAt (price : number) : MenuItem.t :=
  {| MenuItem.id := "item-id"; MenuItem.name := "Item";
     MenuItem.price := price; MenuItem.category := "Drinks" |}.

(** A portion with the given multiplier. *)
Definition portionTimes (id : string) (multiplier : number) : PortionOption.t :=
  {| PortionOption.id := id; PortionOption.inventoryCategoryId := "row-0";
     PortionOption.name := id; PortionOption.size := Fin 1;
     PortionOption.priceMultiplier := multiplier; PortionOption.sortOrder := 0%nat;
     PortionOption.fixedPrice := None |}.

(** A price typed as 1.4999999999999998, the binary64 value just below 1.5,
    in a category with the multipliers 1.3 and 5.5. *)
Definition itemBelow15 : MenuItem.t := itemAt (round64 1.4999999999999998).

Definition base13 : PortionOption.t := portionTimes "smaller" (round64 1.3).

Definition ladder1355 : list PortionOption.t :=
  [base13; portionTimes "larger" (round64 5.5)].

(** A price of 27.5 in a category with the multipliers 0.7 and 1.4. *)
Definition item2750 : MenuItem.t := itemAt (round64 27.5).

Definition base07 : PortionOption.t := portionTimes "smaller" (round64 0.7).

Definition ladder0714 : list PortionOption.t :=
  [base07; portionTimes "larger" (round64 1.4)].

(** A price of 9 with the multipliers 0.2 and 0.7, and with the same ladder
    written five times larger, 1 and 3.5. *)
Definition item9 : MenuItem.t := itemAt (round64 9).

Definition large07 : PortionOption.t := portionTimes "larger" (round64 0.7).

Definition ladder0207 : list PortionOption.t :=
  [portionTimes "smaller" (round64 0.2); large07].

Definition large35 : PortionOption.t := portionTimes "larger" (round64 3.5).

Definition ladder1035 : list PortionOption.t :=
  [portionTimes "smaller" (round64 1); large35].

End Rounding.

(** ** A menu item that changed category

    Whisky is listed under Spirits when Spirits is registered, which seeds
    its stock row; its category is then changed to Drinks, as the server's
    [PUT /api/menu/:id] does, and Drinks is registered and unregistered. *)

Module Relocated.









End Relocated.

(** * Further components *)

(** ** Numbers up to the value of a fraction *)

(** Two numbers that JavaScript cannot tell apart: the same special value,
    or finite values that are equal as fractions. *)
Definition num_equiv (a b : number) : Prop :=
  match a, b with
  | Fin x, Fin y => x == y
  | NaN, NaN | PosInf, PosInf | NegInf, NegInf => True
  | _, _ => False
  end.

(** ** [PortionSelector]: what the dialog lists *)

(** One step of a stable sort by [sortOrder]: [p] goes in front of the first
    portion whose [sortOrder] is not smaller. *)
Fixpoint insertBySortOrder (p : PortionOption.t) (l : list PortionOption.t)
    : list PortionOption.t :=
  match l with
  | [] => [p]
  | q :: rest =>
      if (PortionOption.sortOrder p <=? PortionOption.sortOrder q)%nat
      then p :: l
      else q :: insertBySortOrder p rest
  end.

(** [portions.sort((a, b) => a.sortOrder - b.sortOrder)]: ascending and
    stable. *)
Definition sortBySortOrder (l : list PortionOption.t) : list PortionOption.t :=
  fold_right insertBySortOrder [] l.

(** [PortionSelector]: nothing when the category has no portion; otherwise
    one button per portion, in sorted order, with the price that [onSelect]
    receives.  The sort is in place, so the prices are derived from the
    sorted array. *)
Definition PortionSelector (s : Store) (item : MenuItem.t)
    : option (list (PortionOption.t * number)) :=
  match getPortionsByCategory s (MenuItem.category item) with
  | [] => None
  | portions =>
      let sorted := sortBySortOrder portions in
      Some (map (fun portion => (portion, getPortionPrice item sorted portion)) sorted)
  end.

(** The portion [p] with its multiplier multiplied by [k]. *)
Definition scaleMultiplier (k : Q) (p : PortionOption.t) : PortionOption.t :=
  {| PortionOption.id := PortionOption.id p;
     PortionOption.inventoryCategoryId := PortionOption.inventoryCategoryId p;
     PortionOption.name := PortionOption.name p;
     PortionOption.size := PortionOption.size p;
     PortionOption.priceMultiplier := num_mul (Fin k) (PortionOption.priceMultiplier p);
     PortionOption.sortOrder := PortionOption.sortOrder p;
     PortionOption.fixedPrice := PortionOption.fixedPrice p |}.

(** ** [InventoryManager]: derived lists and the stock cards *)

(** [inventoryCategories.some(ic => ic.categoryId === c.id)] *)
Definition isTracked (s : Store) (c : Category.t) : bool :=
  existsb (fun ic => String.eqb (InventoryCategory.categoryId ic) (Category.id c))
          (inventoryCategories s).

(** [trackedCategories] *)
Definition trackedCategories (s : Store) : list Category.t :=
  filter (isTracked s) (categories s).

(** [unTrackedCategories], the choices of the "Add Category" dialog. *)
Definition unTrackedCategories (s : Store) : list Category.t :=
  filter (fun c => negb (isTracked s c)) (categories s).

(** [inventoryMenuItems]: the menu items that have a stock row. *)
Definition inventoryMenuItems (s : Store) : list MenuItem.t :=
  filter (fun m => existsb (fun ii => String.eqb (InventoryItem.menuItemId ii)
                                                 (MenuItem.id m))
                           (inventoryItems s))
         (menuItems s).

(** One stock card: nothing when the menu item has no stock row, otherwise
    the row and whether it is flagged. *)
Definition stockCard (s : Store) (item : MenuItem.t)
    : option (MenuItem.t * InventoryItem.t * bool) :=
  match find (fun ii => String.eqb (InventoryItem.menuItemId ii) (MenuItem.id item))
             (inventoryItems s) with
  | None => None
  | Some invItem => Some (item, invItem, isLow invItem)
  end.

(** The grid of the "Stock Entry" tab. *)
Definition stockCards (s : Store)
    : list (option (MenuItem.t * InventoryItem.t * bool)) :=
  map (stockCard s) (inventoryMenuItems s).

(** [x || '0'] on strings. *)
Definition orZero (x : string) : string := if str_truthy x then x else "0"%string.

(** The "Total: ...ml" line of the stock dialog: shown for an item kept in
    [ml] once a bottle count and a bottle size are present. *)
Definition bottleTotalPreview (s : Store) (f : StockForm) : option number :=
  match find (fun i => String.eqb (InventoryItem.menuItemId i) (stockMenuItemId f))
             (inventoryItems s) with
  | Some i =>
      if InventoryUnitType_eqb (InventoryItem.unit i) ml
         && (str_truthy (bottleCount f) && str_truthy (bottleSize f))
      then Some (num_mul (parseFloat (orZero (bottleCount f)))
                   (if String.eqb (bottleSize f) "custom"
                    then parseFloat (orZero (customBottleSize f))
                    else parseFloat (bottleSize f)))
      else None
  | None => None
  end.

(** The call the bottle-size dialog makes on the store. *)
Inductive BottleSizeCall : Type :=
| UpdateDefaultBottleSize (id : string) (defaultBottleSize : number).

Record BottleSizeOutcome : Type :=
  { bottleCalls : list BottleSizeCall;
    bottleToast : option Toast;
    editBottleSizeItemId_after : option string }.

(** The Save button of the "Edit Default Bottle Size" dialog. *)
Definition saveBottleSize (s : Store) (editBottleSizeItemId : option string)
    (editBottleSizeValue : string) : BottleSizeOutcome :=
  let nothing := {| bottleCalls := []; bottleToast := None;
                    editBottleSizeItemId_after := None |} in
  match editBottleSizeItemId with
  | None => nothing
  | Some menuItemId =>
      if str_truthy menuItemId then
        match find (fun ii => String.eqb (InventoryItem.menuItemId ii) menuItemId)
                   (inventoryItems s) with
        | None => nothing
        | Some invItem =>
            let size := parseFloat editBottleSizeValue in
            if num_ltb (Fin 0) size then
              {| bottleCalls := [UpdateDefaultBottleSize (InventoryItem.id invItem) size];
                 bottleToast := Some (toast_success "Default bottle size updated");
                 editBottleSizeItemId_after := None |}
            else nothing
        end
      else nothing
  end.

(** ** The price editor: what a field asks for *)

(** [newPrice] in the loop of [handleSave]: the number typed for [portion],
    or nothing when its field is empty or missing. *)
Definition newPriceFor (prices : list (string * string)) (portion : PortionOption.t)
    : option number :=
  match lookupPrice prices (PortionOption.id portion) with
  | Some priceStr => if str_truthy priceStr then Some (parseFloat priceStr) else None
  | None => None
  end.

(** The store already holds what the field of [portion] asks for. *)
Definition settled (prices : list (string * string)) (menuItem : MenuItem.t)
    (st : Store) (portion : PortionOption.t) : Prop :=
  match newPriceFor prices portion with
  | Some v =>
      priceChanged v
        (getItemPortionPrice st (MenuItem.id menuItem) (PortionOption.id portion))
      = false
  | None => True
  end.

(** ** [LowStockAlert] *)

Module LowStockItem.
Record t : Type :=
  { inventoryItemId : string;
    menuItemName : string;
    currentStock : number;
    unit : InventoryUnitType }.
End LowStockItem.

(** What the banner shows: a count, or badges and an overflow badge. *)
Inductive AlertView : Type :=
| CompactAlert (count : nat)
| FullAlert (badges : list LowStockItem.t) (more : option nat).

(** [LowStockAlert], given the [lowStockItems] it reads from the store. *)
Definition LowStockAlert (compact : bool) (lowStockItems : list LowStockItem.t)
    : option AlertView :=
  match lowStockItems with
  | [] => None
  | _ =>
      if compact then Some (CompactAlert (List.length lowStockItems))
      else Some (FullAlert (firstn 5 lowStockItems)
                   (if (5 <? List.length lowStockItems)%nat
                    then Some (List.length lowStockItems - 5)%nat
                    else None))
  end.

(** ** More worked stores *)

Module Examples.

(** A portion given away: multiplier 0. *)
Definition freeSample : PortionOption.t :=
  {| PortionOption.id := "free"; PortionOption.inventoryCategoryId := "row-0";
     PortionOption.name := "Sample"; PortionOption.size := Fin 10;
     PortionOption.priceMultiplier := Fin 0; PortionOption.sortOrder := 7%nat;
     PortionOption.fixedPrice := None |}.

End Examples.

Module Pantry.

(** A second category, Snacks, with the item Momo, next to Drinks. *)
Definition snacks : Category.t :=
  {| Category.id := "snacks-id"; Category.name := "Snacks" |}.

Definition momo : MenuItem.t :=
  {| MenuItem.id := "momo-id"; MenuItem.name := "Momo";
     MenuItem.price := Fin 120; MenuItem.category := "Snacks" |}.

Definition untracked : Store :=
  {| categories := [Scenario.drinks; snacks];
     menuItems := [Scenario.whisky; momo];
     inventoryCategories := []; inventoryItems := []; portionOptions := [];
     itemPortionPrices := []; stockLedger := [] |}.

Definition registerSnacks : CategoryForm :=
  {| selectedCategory := "snacks-id"; selectedUnit := pcs;
     lowStockThreshold := "10"; showAddCategoryModal := true |}.

(** Both categories tracked: Drinks in [ml], then Snacks in [pcs]. *)
Definition bothTracked : Store :=
  store_after
    (handleAddInventoryCategory Scenario.counterId
       (store_after
          (handleAddInventoryCategory Scenario.counterId untracked Scenario.registerDrinks))
       registerSnacks).

(** The "1 Piece" portion seeded for Snacks. *)
Definition piece : PortionOption.t :=
  nth 7 (portionOptions bothTracked) Scenario.blank.

End Pantry.

(** Whether the strings of a list are pairwise different. *)
Fixpoint distinct (l : list string) : bool :=
  match l with
  | [] => true
  | x :: rest => negb (existsb (String.eqb x) rest) && distinct rest
  end.

(** ** Kitchen and bar tickets ([printSplitKOT] of the dual printer) *)

Module PrinterCategory.
Record t : Type := { name : string; useBarPrinter : option bool }.
End PrinterCategory.

Module OrderItem.
Record t : Type := { menuItemId : string; name : string; qty : number }.
End OrderItem.

Module Order.
Record t : Type :=
  { id : string;
    tableNumber : number;
    items : list OrderItem.t;
    notes : option string;
    createdAt : string }.
End Order.

Inductive PrinterName : Type := KitchenPrinter | BarPrinter.

(** The argument of one [printKOT] call, and the printer it goes to. *)
Module Ticket.
Record t : Type :=
  { printer : PrinterName;
    restaurantName : string;
    tableNumber : number;
    orderId : string;
    time : string;
    items : list (string * number);
    notes : option string;
    waiterName : option string;
    printerLabel : string }.
End Ticket.

(** [categoryBarPrinterMap.get(name)]: the map is filled category by
    category with [cat.useBarPrinter || false], a later category of the same
    name replacing an earlier one. *)
Definition categoryBarPrinterMap (categories : list PrinterCategory.t) (name : string)
    : option bool :=
  fold_left
    (fun found cat =>
       if String.eqb (PrinterCategory.name cat) name
       then Some (match PrinterCategory.useBarPrinter cat with
                  | Some b => b
                  | None => false
                  end)
       else found)
    categories None.

(** [useBarPrinter] of the loop over the order's items;
    [menuItemsCategoryMap] is the [get] of the map passed in. *)
Definition goesToBar (categories : list PrinterCategory.t)
    (menuItemsCategoryMap : string -> option string) (item : OrderItem.t) : bool :=
  match menuItemsCategoryMap (OrderItem.menuItemId item) with
  | Some categoryName =>
      if str_truthy categoryName then
        match categoryBarPrinterMap categories categoryName with
        | Some b => b
        | None => false
        end
      else false
  | None => false
  end.

(** [s.slice(-n)] *)
Definition lastChars (n : nat) (s : string) : string :=
  substring (String.length s - n) n s.

Definition ticketLine (item : OrderItem.t) : string * number :=
  (OrderItem.name item, OrderItem.qty item).

Section PrintSplitKOT.

(** The clock format of the ticket and the printers are outside the model:
    [printKOT] says whether the printer named on the ticket printed it. *)
Variable toLocaleTimeString : string -> string.
Variable printKOT : Ticket.t -> bool.

(** [printSplitKOT]: the tickets sent, in the order they are sent, and the
    pair [kitchenPrinted], [barPrinted]. *)
Definition printSplitKOT (order : Order.t) (restaurantName : string)
    (categories : list PrinterCategory.t)
    (menuItemsCategoryMap : string -> option string) (waiterName : option string)
    : list Ticket.t * (bool * bool) :=
  let toBar := goesToBar categories menuItemsCategoryMap in
  let kitchenItems := map ticketLine (filter (fun i => negb (toBar i)) (Order.items order)) in
  let barItems := map ticketLine (filter toBar (Order.items order)) in
  let ticket p label its :=
    {| Ticket.printer := p;
       Ticket.restaurantName := restaurantName;
       Ticket.tableNumber := Order.tableNumber order;
       Ticket.orderId := lastChars 6 (Order.id order);
       Ticket.time := toLocaleTimeString (Order.createdAt order);
       Ticket.items := its;
       Ticket.notes := Order.notes order;
       Ticket.waiterName := waiterName;
       Ticket.printerLabel := label |} in
  let kitchenTickets :=
    match kitchenItems with
    | [] => []
    | _ => [ticket KitchenPrinter "KITCHEN ORDER"%string kitchenItems]
    end in
  let barTickets :=
    match barItems with
    | [] => []
    | _ => [ticket BarPrinter "BAR ORDER"%string barItems]
    end in
  (kitchenTickets ++ barTickets,
   (forallb printKOT kitchenTickets, forallb printKOT barTickets)).

End PrintSplitKOT.

(** ** Image URLs ([imageOptimizer]) *)

Module ImageOptimizer.

Inductive ImageSize : Type := thumbnail | small | medium | large | original.

Definition sizeName (size : ImageSize) : string :=
  match size with
  | thumbnail => "thumbnail"
  | small => "small"
  | medium => "medium"
  | large => "large"
  | original => "original"
  end.

(** [IMAGE_QUALITY]: width and height where the preset has them, and the
    quality. *)
Definition IMAGE_QUALITY (size : ImageSize) : option nat * option nat * nat :=
  match size with
  | thumbnail => (Some 150, Some 150, 70)
  | small => (Some 300, Some 300, 75)
  | medium => (Some 600, Some 600, 80)
  | large => (Some 1200, Some 1200, 85)
  | original => (None, None, 90)
  end%nat.

(** [n.toString()] for a natural number. *)
Definition natToString (n : nat) : string := NilEmpty.string_of_uint (Nat.to_uint n).

Section WithBucket.

(** [R2_PUBLIC_URL] comes from the build environment. *)
Variable R2_PUBLIC_URL : string.

(** [getOptimizedImageUrl] *)
Definition getOptimizedImageUrl (src : string) (size : ImageSize) : string :=
  if negb (str_truthy src) then ""%string
  else if str_truthy R2_PUBLIC_URL && String.prefix R2_PUBLIC_URL src then
    let '(width, height, quality) := IMAGE_QUALITY size in
    (src ++ "?" ++ "format=webp&quality=" ++ natToString quality ++ "&fit=cover"
     ++ match width with Some w => "&width=" ++ natToString w | None => "" end
     ++ match height with Some h => "&height=" ++ natToString h | None => "" end)%string
  else src.

(** [generateSrcSet] *)
Definition generateSrcSet (src : string) : string :=
  if negb (str_truthy src) || negb (str_truthy R2_PUBLIC_URL)
     || negb (String.prefix R2_PUBLIC_URL src)
  then ""%string
  else
    String.concat ", "
      (map (fun wd : nat * string =>
              let (width, descriptor) := wd in
              (src ++ "?format=webp&width=" ++ natToString width ++ "&fit=cover"
               ++ " " ++ descriptor)%string)
           [(300, "300w"); (600, "600w"); (900, "900w"); (1200, "1200w")]%nat%string).

End WithBucket.

(** [getOptimalSize] *)
Definition getOptimalSize (containerWidth : number) : ImageSize :=
  if num_leb containerWidth (Fin 150) then thumbnail
  else if num_leb containerWidth (Fin 300) then small
  else if num_leb containerWidth (Fin 600) then medium
  else large.

(** [getImageCacheKey] *)
Definition getImageCacheKey (src : string) (size : ImageSize) : string :=
  ("img:" ++ sizeName size ++ ":" ++ src)%string.

(** The presets from the smallest to the largest. *)
Definition rank (size : ImageSize) : nat :=
  match size with
  | thumbnail => 0
  | small => 1
  | medium => 2
  | large => 3
  | original => 4
  end.

End ImageOptimizer.

Module Bar.

(** An order of two whiskies and a plate of momo, with Drinks routed to the
    bar printer. *)
Definition categories : list PrinterCategory.t :=
  [ {| PrinterCategory.name := "Drinks"; PrinterCategory.useBarPrinter := Some true |};
    {| PrinterCategory.name := "Snacks"; PrinterCategory.useBarPrinter := None |} ].

Definition menuItemsCategoryMap (menuItemId : string) : option string :=
  if String.eqb menuItemId "whisky-id" then Some "Drinks"%string
  else if String.eqb menuItemId "momo-id" then Some "Snacks"%string
  else None.

Definition momoLine : OrderItem.t :=
  {| OrderItem.menuItemId := "momo-id"; OrderItem.name := "Momo"; OrderItem.qty := Fin 1 |}.

Definition order : Order.t :=
  {| Order.id := "order-1700000000123"; Order.tableNumber := Fin 4;
     Order.items :=
       [ {| OrderItem.menuItemId := "whisky-id"; OrderItem.name := "Whisky";
            OrderItem.qty := Fin 2 |};
         momoLine ];
     Order.notes := None; Order.createdAt := "2025-01-01T18:30:00Z" |}.

End Bar.

(** * Properties *)

(** ** [parseFloat] on the strings the forms hold *)

Example parseFloat_750 : parseFloat "750" = Fin 750.
Proof. reflexivity. Qed.

Example parseFloat_empty : parseFloat "" = NaN.
Proof. reflexivity. Qed.

Example parseFloat_custom : parseFloat "custom" = NaN.
Proof. reflexivity. Qed.

Example parseFloat_prefix : parseFloat " 2.5e1x" = Fin 25.
Proof. reflexivity. Qed.

Example parseFloat_leading_dot : parseFloat "-.5" = Fin (- (1 # 2)).
Proof. reflexivity. Qed.

Example scenario_portions_seeded :
  map PortionOption.sortOrder Scenario.portions = [0; 1; 2; 3; 4; 5; 6]%nat.
Proof. reflexivity. Qed.

Example scenario_prices :
  map (fun sz => Scenario.priceOfSize Scenario.tracked sz) [30; 60; 750]
  = [Some (Fin 150); Some (Fin 300); Some (Fin 3000)].
Proof. vm_compute. reflexivity. Qed.

(** ** Arithmetic of the price derivation *)

Lemma Qsign_pos (q : Q) : 0 < q -> Qsign q = Gt.
Proof.
  intro H. unfold Qsign. apply Qgt_alt. exact H.
Qed.

Lemma Math_round_bounds (q : Q) :
  q - (1 # 2) < inject_Z (Qfloor (q + (1 # 2)))
  /\ inject_Z (Qfloor (q + (1 # 2))) <= q + (1 # 2).
Proof.
  split.
  - pose proof (Qlt_floor (q + (1 # 2))) as H.
    rewrite inject_Z_plus in H. change (inject_Z 1) with 1 in H. lra.
  - apply Qfloor_le.
Qed.

Lemma Math_round_near (q : Q) :
  Qabs (inject_Z (Qfloor (q + (1 # 2))) - q) <= 1 # 2.
Proof.
  destruct (Math_round_bounds q) as [Hlo Hhi].
  apply Qabs_Qle_condition. split; lra.
Qed.

Lemma Qfloor_eq (x y : Q) : x == y -> Qfloor x = Qfloor y.
Proof.
  intro H. rewrite H. reflexivity.
Qed.


(** ** Binary64 rounding *)

Lemma pow2_pos (e : Z) : 0 < pow2 e.
Proof. apply Qpower_0_lt. reflexivity. Qed.

Lemma pow2_plus (a b : Z) : pow2 (a + b) == pow2 a * pow2 b.
Proof. apply Qpower_plus. discriminate. Qed.

Lemma pow2_succ (a : Z) : pow2 (a + 1) == 2 * pow2 a.
Proof. rewrite pow2_plus. change (pow2 1) with 2. ring. Qed.

Lemma pow2_le (a b : Z) : (a <= b)%Z -> pow2 a <= pow2 b.
Proof. intro H. apply Qpower_le_compat_l; [exact H | discriminate]. Qed.

Lemma pow2_lt (a b : Z) : (a < b)%Z -> pow2 a < pow2 b.
Proof. intro H. apply Qpower_lt_compat_l; [exact H | reflexivity]. Qed.

Lemma pow2_lt_inv (a b : Z) : pow2 a < pow2 b -> (a < b)%Z.
Proof. intro H. apply (Qpower_lt_compat_l_inv 2); [exact H | reflexivity]. Qed.

Lemma pow2_inject (n : Z) : (0 <= n)%Z -> inject_Z (2 ^ n) == pow2 n.
Proof. intro H. apply Zpower_Qpower. exact H. Qed.

Lemma log2_bounds (n : Z) :
  (0 < n)%Z ->
  pow2 (Z.log2 n) <= inject_Z n /\ inject_Z n < 2 * pow2 (Z.log2 n).
Proof.
  intro Hn. destruct (Z.log2_spec n Hn) as [Hlo Hhi].
  pose proof (Z.log2_nonneg n) as H0.
  split.
  - rewrite <- pow2_inject by exact H0. rewrite <- Zle_Qle. exact Hlo.
  - rewrite <- pow2_succ. rewrite <- pow2_inject by lia. rewrite <- Zlt_Qlt.
    exact Hhi.
Qed.

Lemma floorLog2_spec (x : Q) :
  0 < x -> pow2 (floorLog2 x) <= x /\ x < pow2 (floorLog2 x + 1).
Proof.
  intro Hx. destruct x as [n d].
  assert (Hn : (0 < n)%Z).
  { unfold Qlt in Hx. simpl in Hx. lia. }
  destruct (log2_bounds n Hn) as [HA1 HA2].
  destruct (log2_bounds (Zpos d) eq_refl) as [HB1 HB2].
  unfold floorLog2. cbn [Qnum Qden].
  set (ln := Z.log2 n) in *. set (ld := Z.log2 (Zpos d)) in *.
  assert (Hk : pow2 (ln - ld) * pow2 ld == pow2 ln).
  { rewrite <- pow2_plus. replace (ln - ld + ld)%Z with ln by lia. reflexivity. }
  assert (Hxd : (n # d) * inject_Z (Zpos d) == inject_Z n).
  { rewrite (Qmake_Qdiv n d). field. discriminate. }
  pose proof (pow2_pos (ln - ld)) as HK. pose proof (pow2_pos ld) as HB.
  pose proof (pow2_pos ln) as HA.
  assert (HD : 0 < inject_Z (Zpos d)) by reflexivity.
  set (D := inject_Z (Zpos d)) in *. set (N := inject_Z n) in *.
  set (X := n # d) in *.
  destruct (Qle_bool (pow2 (ln - ld)) X) eqn:E.
  - apply Qle_bool_iff in E. split; [exact E |].
    rewrite pow2_succ.
    set (K := pow2 (ln - ld)) in *. set (A := pow2 ln) in *. set (B := pow2 ld) in *.
    apply Qnot_le_lt. intro Hc.
    assert (H1 : 2 * K * D <= X * D) by (apply Qmult_le_compat_r; lra).
    assert (H2 : 2 * K * B <= 2 * K * D) by (apply Qmult_le_l; lra).
    lra.
  - assert (E' : X < pow2 (ln - ld)).
    { apply Qnot_le_lt. intro Hc. apply Qle_bool_iff in Hc. congruence. }
    replace (ln - ld - 1 + 1)%Z with (ln - ld)%Z by lia.
    split; [| exact E'].
    assert (Hh : pow2 (ln - ld) == 2 * pow2 (ln - ld - 1)).
    { rewrite <- pow2_succ. replace (ln - ld - 1 + 1)%Z with (ln - ld)%Z by lia.
      reflexivity. }
    pose proof (pow2_pos (ln - ld - 1)) as HK'.
    set (K := pow2 (ln - ld)) in *. set (A := pow2 ln) in *. set (B := pow2 ld) in *.
    set (K' := pow2 (ln - ld - 1)) in *.
    apply Qnot_lt_le. intro Hc.
    assert (H1 : X * D <= K' * D) by (apply Qmult_le_compat_r; lra).
    assert (H2 : K' * D < K' * (2 * B)).
    { apply Qmult_lt_l; lra. }
    assert (H3 : K' * (2 * B) == A) by (rewrite <- Hk, Hh; ring).
    lra.
Qed.

Lemma roundHalfEven_near (x : Q) :
  Qabs (inject_Z (roundHalfEven x) - x) <= 1 # 2.
Proof.
  unfold roundHalfEven.
  pose proof (Qfloor_le x) as Hlo. pose proof (Qlt_floor x) as Hhi.
  rewrite inject_Z_plus in Hhi. change (inject_Z 1) with 1 in Hhi.
  set (f := Qfloor x) in *.
  destruct (Qcompare (x - inject_Z f) (1 # 2)) eqn:E.
  - apply Qeq_alt in E.
    destruct (Z.even f); [| rewrite inject_Z_plus; change (inject_Z 1) with 1];
      apply Qabs_Qle_condition; split; lra.
  - apply Qlt_alt in E. apply Qabs_Qle_condition; split; lra.
  - apply Qgt_alt in E. rewrite inject_Z_plus. change (inject_Z 1) with 1.
    apply Qabs_Qle_condition; split; lra.
Qed.

Lemma roundMagnitude_error (a : Q) :
  pow2 (-1022) <= a ->
  Qabs (roundMagnitude a - a) <= a * pow2 (-53).
Proof.
  intro Hlo.
  assert (Ha : 0 < a).
  { pose proof (pow2_pos (-1022)). lra. }
  destruct (floorLog2_spec a Ha) as [He1 He2].
  unfold roundMagnitude.
  set (e := floorLog2 a) in *.
  assert (He : (-1022 <= e)%Z).
  { assert (pow2 (-1022) < pow2 (e + 1)) by lra.
    apply pow2_lt_inv in H. lia. }
  rewrite Z.max_l by lia.
  pose proof (roundHalfEven_near (a / pow2 (e - 52))) as Hr.
  set (m := inject_Z (roundHalfEven (a / pow2 (e - 52)))) in *.
  pose proof (pow2_pos (e - 52)) as HP.
  assert (HPe : pow2 e == pow2 (e - 52) * pow2 52).
  { rewrite <- pow2_plus. replace (e - 52 + 52)%Z with e by lia. reflexivity. }
  change (pow2 52) with (4503599627370496 # 1) in HPe.
  change (pow2 (-53)) with (1 # 9007199254740992).
  set (P := pow2 (e - 52)) in *.
  assert (Heq : m * P - a == (m - a / P) * P) by (field; lra).
  rewrite Heq. rewrite Qabs_Qmult. rewrite (Qabs_pos P) by lra.
  assert (H1 : Qabs (m - a / P) * P <= (1 # 2) * P).
  { apply Qmult_le_compat_r; [exact Hr | lra]. }
  lra.
Qed.

Lemma roundMagnitude_normal (x : Q) :
  pow2 (-1022) <= x -> x <= pow2 1023 ->
  Qabs (roundMagnitude x - x) <= x * pow2 (-53)
  /\ Qle_bool (pow2 1024) (roundMagnitude x) = false.
Proof.
  intros Hlo Hhi.
  pose proof (roundMagnitude_error x Hlo) as Herr.
  split; [exact Herr |].
  destruct (Qle_bool (pow2 1024) (roundMagnitude x)) eqn:Hover; [| reflexivity].
  apply Qle_bool_iff in Hover.
  pose proof (pow2_pos (-1022)) as H0. pose proof (pow2_pos 1023) as H1.
  assert (H2 : pow2 1024 == 2 * pow2 1023) by (exact (pow2_succ 1023)).
  apply Qabs_Qle_condition in Herr. destruct Herr as [_ Herr].
  change (pow2 (-53)) with (1 # 9007199254740992) in Herr.
  rewrite H2 in Hover. exfalso. lra.
Qed.

Lemma round64_error (x : Q) :
  pow2 (-1022) <= x -> x <= pow2 1023 ->
  exists r : Q, round64 x = Fin r /\ Qabs (r - x) <= x * pow2 (-53).
Proof.
  intros Hlo Hhi.
  destruct (roundMagnitude_normal x Hlo Hhi) as [Herr Hfin].
  assert (Hx : 0 < x) by (pose proof (pow2_pos (-1022)); lra).
  unfold round64. rewrite (Qsign_pos x Hx). cbv zeta. rewrite Hfin.
  exists (Qred (roundMagnitude x)). split; [reflexivity |].
  rewrite Qred_correct. exact Herr.
Qed.

Lemma round64_zero (x : Q) : x == 0 -> round64 x = Fin 0.
Proof.
  intro H. unfold round64, Qsign. rewrite H. reflexivity.
Qed.

Lemma inRange_pos (k : Z) (x : Q) : inRange k x -> 0 < x.
Proof. intros [H _]. pose proof (pow2_pos (- k)). lra. Qed.

Lemma inRange_weaken (j k : Z) (x : Q) : (j <= k)%Z -> inRange j x -> inRange k x.
Proof.
  intros Hjk [H1 H2]. split.
  - apply Qle_trans with (pow2 (- j)); [apply pow2_le; lia | exact H1].
  - apply Qle_trans with (pow2 j); [exact H2 | apply pow2_le; lia].
Qed.

Lemma inRange_mul (j k : Z) (x y : Q) :
  inRange j x -> inRange k y -> inRange (j + k) (x * y).
Proof.
  intros [Hx1 Hx2] [Hy1 Hy2].
  pose proof (pow2_pos (- j)) as Pj. pose proof (pow2_pos (- k)) as Pk.
  split.
  - replace (- (j + k))%Z with (- j + - k)%Z by lia. rewrite pow2_plus.
    apply Qle_trans with (pow2 (- j) * y).
    + apply Qmult_le_l; [exact Pj | exact Hy1].
    + apply Qmult_le_compat_r; [exact Hx1 | lra].
  - rewrite pow2_plus.
    apply Qle_trans with (x * pow2 k).
    + apply Qmult_le_l; [lra | exact Hy2].
    + apply Qmult_le_compat_r; [exact Hx2 | apply Qlt_le_weak, pow2_pos].
Qed.

Lemma inRange_inv (k : Z) (y : Q) : inRange k y -> inRange k (/ y).
Proof.
  intros [H1 H2].
  pose proof (pow2_pos (- k)) as Pk. pose proof (pow2_pos k) as Pk'.
  assert (Hy : 0 < y) by lra.
  assert (Hinv : pow2 (- k) * pow2 k == 1).
  { rewrite <- pow2_plus. replace (- k + k)%Z with 0%Z by lia. reflexivity. }
  assert (Hyi : 0 < / y) by (apply Qinv_lt_0_compat; exact Hy).
  assert (Hyy : y * / y == 1) by (field; lra).
  split.
  - apply Qnot_lt_le. intro Hc.
    assert (y * / y < pow2 k * pow2 (- k)).
    { apply Qle_lt_trans with (pow2 k * / y).
      - apply Qmult_le_compat_r; [exact H2 | lra].
      - apply Qmult_lt_l; [exact Pk' | exact Hc]. }
    rewrite (Qmult_comm (pow2 k)) in H. lra.
  - apply Qnot_lt_le. intro Hc.
    assert (pow2 (- k) * pow2 k < y * / y).
    { apply Qlt_le_trans with (pow2 (- k) * / y).
      - apply Qmult_lt_l; [exact Pk | exact Hc].
      - apply Qmult_le_compat_r; [exact H1 | lra]. }
    lra.
Qed.

Lemma inRange_div (j k : Z) (x y : Q) :
  inRange j x -> inRange k y -> inRange (j + k) (x / y).
Proof.
  intros Hx Hy. unfold Qdiv. apply inRange_mul; [exact Hx | apply inRange_inv; exact Hy].
Qed.

(** Rounding a value between [2^-k] and [2^k], [k <= 1000]: the result is
    finite, within a relative [2^-53] of the value, and between [2^-(k+1)]
    and [2^(k+1)]. *)
Lemma round64_inRange (k : Z) (x : Q) :
  (0 <= k <= 1000)%Z -> inRange k x ->
  exists r : Q,
    round64 x = Fin r /\ Qabs (r - x) <= x * pow2 (-53) /\ inRange (k + 1) r.
Proof.
  intros Hk Hx.
  pose proof (inRange_pos k x Hx) as Hpos.
  destruct (inRange_weaken k 1022 x ltac:(lia) Hx) as [Hlo Hhi].
  assert (Hhi' : x <= pow2 1023).
  { apply Qle_trans with (pow2 1022); [exact Hhi | apply pow2_le; lia]. }
  destruct (round64_error x Hlo Hhi') as [r [Hr Herr]].
  exists r. split; [exact Hr |]. split; [exact Herr |].
  destruct Hx as [H1 H2].
  pose proof (pow2_succ k) as Hs.
  assert (Hs' : pow2 (- k) == 2 * pow2 (- (k + 1))).
  { rewrite <- pow2_succ. replace (- (k + 1) + 1)%Z with (- k)%Z by lia. reflexivity. }
  apply Qabs_Qle_condition in Herr. destruct Herr as [Ha Hb].
  change (pow2 (-53)) with (1 # 9007199254740992) in Ha, Hb.
  pose proof (pow2_pos (- (k + 1))). pose proof (pow2_pos k).
  split; lra.
Qed.

Lemma getPortionPrice64_finite (item : MenuItem.t) (portions : list PortionOption.t)
    (portion : PortionOption.t) (p m a : Q) :
  MenuItem.price item = Fin p ->
  Math_min (map PortionOption.priceMultiplier portions) = Fin m ->
  0 < m ->
  PortionOption.priceMultiplier portion = Fin a ->
  getPortionPrice64 item portions portion
  = Math_round (mul64 (round64 (p / m)) (Fin a)).
Proof.
  intros Hp Hm Hpos Ha. unfold getPortionPrice64, div64.
  rewrite Hp, Hm, Ha. unfold num_div.
  rewrite (Qsign_pos m Hpos). reflexivity.
Qed.

Lemma price64_zero (p m a : Q) :
  p == 0 -> mul64 (round64 (p / m)) (Fin a) = Fin 0.
Proof.
  intro Hp.
  assert (H0 : p / m == 0) by (unfold Qdiv; rewrite Hp; ring).
  rewrite (round64_zero _ H0). unfold mul64, num_mul, lift64.
  apply round64_zero. ring.
Qed.

Lemma price64_value (p m a : Q) :
  inRange 300 p -> inRange 300 m -> inRange 300 a ->
  exists v : Q,
    mul64 (round64 (p / m)) (Fin a) = Fin v
    /\ Qabs (v - p / m * a) <= p / m * a * pow2 (-51).
Proof.
  intros Hp Hm Ha.
  pose proof (inRange_div 300 300 p m Hp Hm) as Hw. change (300 + 300)%Z with 600%Z in Hw.
  destruct (round64_inRange 600 (p / m) ltac:(lia) Hw) as [u [Hu [Eu Ru]]].
  change (600 + 1)%Z with 601%Z in Ru.
  pose proof (inRange_mul 601 300 u a Ru Ha) as Hua. change (601 + 300)%Z with 901%Z in Hua.
  destruct (round64_inRange 901 (u * a) ltac:(lia) Hua) as [v [Hv [Ev _]]].
  exists v. split.
  - rewrite Hu. unfold mul64, num_mul, lift64. exact Hv.
  - pose proof (inRange_pos _ _ Hw) as Hw0. pose proof (inRange_pos _ _ Ha) as Ha0.
    set (w := p / m) in *.
    change (pow2 (-53)) with (1 # 9007199254740992) in Eu, Ev.
    change (pow2 (-51)) with (1 # 2251799813685248).
    apply Qabs_Qle_condition in Eu. destruct Eu as [Eu1 Eu2].
    apply Qabs_Qle_condition in Ev. destruct Ev as [Ev1 Ev2].
    assert (H1 : (u - w) * a <= w * (1 # 9007199254740992) * a).
    { apply Qmult_le_compat_r; lra. }
    assert (H2 : - (w * (1 # 9007199254740992)) * a <= (u - w) * a).
    { apply Qmult_le_compat_r; lra. }
    assert (Hwa : 0 < w * a) by (apply Qmult_lt_0_compat; assumption).
    assert (E1 : (u - w) * a == u * a - w * a) by ring.
    assert (E2 : w * (1 # 9007199254740992) * a == w * a * (1 # 9007199254740992)) by ring.
    assert (E3 : - (w * (1 # 9007199254740992)) * a == - (w * a * (1 # 9007199254740992)))
      by ring.
    rewrite E1, E2 in H1. rewrite E1, E3 in H2.
    set (ua := u * a) in *. set (wa := w * a) in *.
    apply Qabs_Qle_condition. split; lra.
Qed.

Lemma getPortionPrice64_error (item : MenuItem.t) (portions : list PortionOption.t)
    (portion : PortionOption.t) (p m a : Q) :
  MenuItem.price item = Fin p ->
  p == 0 \/ inRange 300 p ->
  Math_min (map PortionOption.priceMultiplier portions) = Fin m ->
  inRange 300 m ->
  PortionOption.priceMultiplier portion = Fin a ->
  inRange 300 a ->
  exists v : Q,
    getPortionPrice64 item portions portion = Math_round (Fin v)
    /\ 0 <= v
    /\ Qabs (v - p / m * a) <= p / m * a * pow2 (-51).
Proof.
  intros Hp Hrange Hm Rm Ha Ra.
  pose proof (inRange_pos _ _ Rm) as Hm0.
  rewrite (getPortionPrice64_finite item portions portion p m a Hp Hm Hm0 Ha).
  destruct Hrange as [H0 | Rp].
  - exists 0. rewrite (price64_zero p m a H0). split; [reflexivity |].
    split; [lra |].
    assert (E : p / m * a == 0) by (unfold Qdiv; rewrite H0; ring).
    rewrite E. apply Qabs_Qle_condition. split; lra.
  - destruct (price64_value p m a Rp Rm Ra) as [v [Hv Ev]].
    exists v. rewrite Hv. split; [reflexivity |]. split; [| exact Ev].
    pose proof (inRange_pos _ _ (inRange_div 300 300 p m Rp Rm)) as Hw0.
    pose proof (inRange_pos _ _ Ra) as Ha0.
    assert (Hwa : 0 < p / m * a) by (apply Qmult_lt_0_compat; assumption).
    change (pow2 (-51)) with (1 # 2251799813685248) in Ev.
    apply Qabs_Qle_condition in Ev. destruct Ev as [Ev1 _].
    set (wa := p / m * a) in *. lra.
Qed.

Lemma Qfloor_unique (y : Q) (n : Z) :
  inject_Z n <= y -> y < inject_Z n + 1 -> Qfloor y = n.
Proof.
  intros Hlo Hhi.
  pose proof (Qfloor_le y) as H1. pose proof (Qlt_floor y) as H2.
  rewrite inject_Z_plus in H2. change (inject_Z 1) with 1 in H2.
  assert (Ha : inject_Z (Qfloor y) < inject_Z (n + 1)).
  { rewrite inject_Z_plus. change (inject_Z 1) with 1. lra. }
  assert (Hb : inject_Z n < inject_Z (Qfloor y + 1)).
  { rewrite inject_Z_plus. change (inject_Z 1) with 1. lra. }
  rewrite <- Zlt_Qlt in Ha, Hb. lia.
Qed.

(** ** Claims on [getPortionPrice] *)

(** The literals of the worked prices as the engine reads them, and the two
    ends of the range. *)
Example round64_literals :
  round64 0.7 = Fin (3152519739159347 # 4503599627370496)
  /\ round64 1.3 = Fin (5854679515581645 # 4503599627370496)
  /\ round64 1.4999999999999998 = Fin (6755399441055743 # 4503599627370496)
  /\ round64 27.5 = Fin (55 # 2)
  /\ round64 (10 ^ 309) = PosInf
  /\ round64 (10 ^ (-324)) = Fin 0.
Proof.
  repeat split; vm_compute; reflexivity.
Qed.

(** On the default [ml] ladder at Rs 150 the rounding changes no price. *)
Example scenario_prices64 :
  map (getPortionPrice64 Scenario.whisky Scenario.portions) Scenario.portions
  = map (getPortionPrice Scenario.whisky Scenario.portions) Scenario.portions.
Proof. vm_compute. reflexivity. Qed.

(** A price of 27.5 with the multipliers 0.7 and 1.4: the quotient times 0.7
    falls just below 27.5, and the smaller portion is priced at 27, not at
    [Math.round(27.5) = 28]. *)
Example half_rupee_rounds_down :
  getPortionPrice64 Rounding.item2750 Rounding.ladder0714 Rounding.base07 = Fin 27
  /\ Math_round (MenuItem.price Rounding.item2750) = Fin 28.
Proof.
  split; vm_compute; reflexivity.
Qed.

(** C4 as stated fails: a price of 1.4999999999999998, the binary64 value
    just below 1.5, with the multipliers 1.3 and 5.5.  The portion of
    multiplier 1.3 has the smallest multiplier and is priced at 2, which is
    more than one half away from the base price and is not the base price
    rounded to the nearest integer, 1. *)
Lemma base_portion_price_beyond_half :
  Math_min (map PortionOption.priceMultiplier Rounding.ladder1355)
  = PortionOption.priceMultiplier Rounding.base13
  /\ MenuItem.price Rounding.itemBelow15
     = Fin (6755399441055743 # 4503599627370496)
  /\ getPortionPrice64 Rounding.itemBelow15 Rounding.ladder1355 Rounding.base13 = Fin 2
  /\ Math_round (MenuItem.price Rounding.itemBelow15) = Fin 1
  /\ ~ Qabs (2 - (6755399441055743 # 4503599627370496)) <= 1 # 2.
Proof.
  repeat split; try (vm_compute; reflexivity).
  intro H. vm_compute in H. apply H. reflexivity.
Qed.

(** C4, amended. Base-portion price in binary64: when the smallest
    priceMultiplier of the category lies between [2^-300] and [2^300] and the
    base price [p] is [0] or lies in the same range, the portion whose
    multiplier is that minimum is priced at an integer [z] with
    [|z - p| <= 1/2 + p * 2^-51]: the base price rounded to an integer, up to
    the rounding of the division and of the multiplication.  When the base
    price is an integer up to [2^49], [z] is the base price itself.  The
    number of portions plays no part, and overrides are never read. *)
Theorem base_portion_price_near_base_price (item : MenuItem.t)
    (portions : list PortionOption.t) (portion : PortionOption.t) (p m a : Q) :
  In portion portions ->
  MenuItem.price item = Fin p ->
  p == 0 \/ inRange 300 p ->
  Math_min (map PortionOption.priceMultiplier portions) = Fin m ->
  inRange 300 m ->
  PortionOption.priceMultiplier portion = Fin a ->
  a == m ->
  exists z : Z,
    getPortionPrice64 item portions portion = Fin (inject_Z z)
    /\ Qabs (inject_Z z - p) <= (1 # 2) + p * pow2 (-51)
    /\ (forall n : Z, p == inject_Z n -> p <= pow2 49 -> z = n).
Proof.
  intros _ Hp Hrange Hm Rm Ha Ham.
  assert (Ra : inRange 300 a).
  { destruct Rm as [R1 R2]. split; rewrite Ham; assumption. }
  destruct (getPortionPrice64_error item portions portion p m a Hp Hrange Hm Rm Ha Ra)
    as [v [Hv [Hv0 Ev]]].
  pose proof (inRange_pos _ _ Rm) as Hm0.
  assert (E : p / m * a == p) by (rewrite Ham; field; lra).
  rewrite E in Ev.
  exists (Qfloor (v + (1 # 2))). split; [exact Hv |].
  destruct (Math_round_bounds v) as [Hlo Hhi].
  change (pow2 (-51)) with (1 # 2251799813685248) in *.
  apply Qabs_Qle_condition in Ev. destruct Ev as [Ev1 Ev2].
  split.
  - apply Qabs_Qle_condition. split; lra.
  - intros n Hn Hle. change (pow2 49) with (562949953421312 # 1) in Hle.
    apply Qfloor_unique; lra.
Qed.

Lemma base_portion_price_near_base_price_witness :
  getPortionPrice64 Scenario.whisky Scenario.portions (Scenario.portionAt 0)
  = Fin 150.
Proof.
  destruct (base_portion_price_near_base_price Scenario.whisky Scenario.portions
              (Scenario.portionAt 0) 150 0.5 0.5) as (z & Hz & _ & Hint).
  - vm_compute. left. reflexivity.
  - reflexivity.
  - right. split; vm_compute; discriminate.
  - vm_compute. reflexivity.
  - split; vm_compute; discriminate.
  - vm_compute. reflexivity.
  - reflexivity.
  - rewrite Hz. rewrite (Hint 150%Z); [reflexivity | reflexivity |].
    vm_compute. discriminate.
Defined.



(** C2 as stated fails: with the default [ml] ladder the smallest multiplier
    is [0.5], so Rs 150 is the price of the 30ml portion, not of the 60ml one. *)
Lemma whisky_not_75_and_1500 :
  ~ (Scenario.priceOfSize Scenario.tracked 30 = Some (Fin 75)
     /\ Scenario.priceOfSize Scenario.tracked 750 = Some (Fin 1500)).
Proof.
  intros [H _]. vm_compute in H. discriminate H.
Qed.

(** C2, amended. Drinks tracked in [ml] with the default ladder, Whisky at
    Rs 150: the selector shows 150 for 30ml, 300 for 60ml and 3000 for 750ml,
    the base price being the price of the portion of smallest multiplier. *)
Theorem whisky_default_ladder_prices :
  Scenario.priceOfSize Scenario.tracked 30 = Some (Fin 150)
  /\ Scenario.priceOfSize Scenario.tracked 60 = Some (Fin 300)
  /\ Scenario.priceOfSize Scenario.tracked 750 = Some (Fin 3000)
  /\ Math_min (map PortionOption.priceMultiplier Scenario.portions) = Fin 0.5.
Proof.
  repeat split; vm_compute; reflexivity.
Qed.

(** ** Overrides *)

Lemma find_filter_negb {A : Type} (f : A -> bool) (l : list A) :
  find f (filter (fun x => negb (f x)) l) = None.
Proof.
  induction l as [| x l IH]; simpl; [reflexivity |].
  destruct (f x) eqn:E; simpl; [exact IH | rewrite E; exact IH].
Qed.

Lemma find_app_none {A : Type} (f : A -> bool) (l1 l2 : list A) :
  find f l1 = None -> find f (l1 ++ l2) = find f l2.
Proof.
  induction l1 as [| x l1 IH]; simpl; [reflexivity |].
  destruct (f x); [discriminate | exact IH].
Qed.

(** What [setItemPortionPrice] stores is what [getItemPortionPrice] returns. *)
Lemma getItemPortionPrice_set (freshId : Store -> string) (s : Store)
    (mid pid : string) (v : number) :
  getItemPortionPrice (applyAction freshId (SetItemPortionPrice mid pid v) s) mid pid
  = Some v.
Proof.
  unfold getItemPortionPrice. simpl.
  rewrite find_app_none.
  - simpl. rewrite !String.eqb_refl. reflexivity.
  - apply (find_filter_negb
             (fun ip => String.eqb (ItemPortionPrice.menuItemId ip) mid
                        && String.eqb (ItemPortionPrice.portionOptionId ip) pid)).
Qed.

(** C1. The price the editor stores is never charged.  Drinks is tracked in
    [ml] and Whisky costs Rs 150.  Saving 1400 typed for the 750ml portion
    calls [setItemPortionPrice] once and announces the update, and
    [getItemPortionPrice] returns 1400 from then on; [PortionSelector] on
    that store still lists the 750ml portion at the derived Rs 3000, like
    every other portion at its derived price. *)
Theorem saved_price_not_charged :
  let save := handleSave Scenario.counterId Scenario.tracked Scenario.whisky
                Scenario.portions [(PortionOption.id Scenario.fullBottle, "1400"%string)] in
  issued save = [SetItemPortionPrice "whisky-id" "row-6" (Fin 1400)]
  /\ toast save = Some (toast_success "Prices updated for Whisky")
  /\ store_after save = Scenario.priced
  /\ getItemPortionPrice Scenario.priced "whisky-id" "row-6" = Some (Fin 1400)
  /\ selectorPrice Scenario.priced Scenario.whisky Scenario.fullBottle = Fin 3000
  /\ option_map (map (fun row => (PortionOption.name (fst row), snd row)))
       (PortionSelector Scenario.priced Scenario.whisky)
     = Some [("30ml (Peg)"%string, Fin 150); ("60ml (Large)"%string, Fin 300);
             ("90ml"%string, Fin 450); ("180ml (QTR)"%string, Fin 840);
             ("375ml (Half)"%string, Fin 1650); ("750ml (Full)"%string, Fin 3000);
             ("1000ml"%string, Fin 3990)].
Proof.
  cbv zeta. repeat split; vm_compute; reflexivity.
Qed.

(** ** Low stock *)

Lemma Qle_bool_false (x y : Q) : y < x -> Qle_bool x y = false.
Proof.
  intro H. destruct (Qle_bool x y) eqn:E; [| reflexivity].
  apply Qle_bool_iff in E. lra.
Qed.

(** C3 as stated fails: an item threshold of [0] is kept by [??] and
    replaced by [5] by [||]; three units in stock are low for the stock card
    and not low for the formula of the specification. *)
Lemma zero_threshold_resolves_to_five :
  isLow (Scenario.stockRow (Fin 3) (Some (Fin 0))) = true
  /\ isLow_spec (Scenario.stockRow (Fin 3) (Some (Fin 0))) (Some (Fin 10)) = false.
Proof.
  split; reflexivity.
Qed.

(** C3, amended. The stock card flags an item exactly when
    [currentStock <= (lowStockThreshold || 5)]: an item threshold that is
    missing, [0] or [NaN] resolves to [5] and no category default is read.
    For a finite stock [c] and resolved threshold [t] the item is low iff
    [c <= t]; so it is low at [c = t] and not low at [c = t + 1].  Whenever
    the item threshold is set and neither [0] nor [NaN], this is the formula
    of the specification. *)
Theorem isLow_membership (invItem : InventoryItem.t) (c t : Q)
    (categoryDefaultThreshold : option number) :
  InventoryItem.currentStock invItem = Fin c ->
  orFive (InventoryItem.lowStockThreshold invItem) = Fin t ->
  (isLow invItem = true <-> c <= t)
  /\ (c == t -> isLow invItem = true)
  /\ (c == t + 1 -> isLow invItem = false)
  /\ (forall x, InventoryItem.lowStockThreshold invItem = Some x ->
                num_truthy x = true ->
                isLow invItem = isLow_spec invItem categoryDefaultThreshold)
  /\ orFive None = Fin 5 /\ orFive (Some (Fin 0)) = Fin 5 /\ orFive (Some NaN) = Fin 5.
Proof.
  intros Hc Ht. unfold isLow, isLow_spec. rewrite Hc, Ht. simpl.
  repeat split.
  - apply Qle_bool_iff.
  - apply Qle_bool_iff.
  - intro H. apply Qle_bool_iff. lra.
  - intro H. apply Qle_bool_false. lra.
  - intros x Hx Htruthy. rewrite Hx in Ht |- *. simpl in Ht |- *.
    rewrite Htruthy in Ht. rewrite Ht. reflexivity.
Qed.

Lemma isLow_membership_witness :
  isLow (Scenario.stockRow (Fin 5) (Some (Fin 0))) = true
  /\ isLow (Scenario.stockRow (Fin 6) (Some (Fin 0))) = false.
Proof.
  split.
  - apply (proj1 (proj2 (isLow_membership (Scenario.stockRow (Fin 5) (Some (Fin 0)))
                           5 5 None eq_refl eq_refl))).
    reflexivity.
  - apply (proj1 (proj2 (proj2 (isLow_membership (Scenario.stockRow (Fin 6) (Some (Fin 0)))
                                  6 5 None eq_refl eq_refl)))).
    reflexivity.
Defined.

(** ** Stock entry *)

(** A quantity that compares [<= 0] is refused: no call reaches the store. *)
Lemma handleAddStock_rejects_nonpositive (freshId : Store -> string) (s : Store)
    (f : StockForm) :
  num_leb (totalQuantity f) (Fin 0) = true ->
  issued (handleAddStock freshId s f) = []
  /\ store_after (handleAddStock freshId s f) = s
  /\ form_after (handleAddStock freshId s f) = f
  /\ exists msg, toast (handleAddStock freshId s f) = Some (toast_error msg).
Proof.
  intro H. unfold handleAddStock.
  destruct (negb (str_truthy (stockMenuItemId f))
            || negb (str_truthy (stockQuantity f)) && negb (str_truthy (bottleCount f))).
  - simpl. repeat split. eexists. reflexivity.
  - destruct (getInventoryByMenuItemId s (stockMenuItemId f)).
    + rewrite H. simpl. repeat split. eexists. reflexivity.
    + simpl. repeat split. eexists. reflexivity.
Qed.

(** With neither a bottle count nor a direct quantity the handler reports an
    error and leaves store and form alone. *)
Lemma handleAddStock_nothing_typed (freshId : Store -> string) (s : Store)
    (f : StockForm) :
  stockQuantity f = ""%string -> bottleCount f = ""%string ->
  handleAddStock freshId s f
  = {| store_after := s; issued := [];
       toast := Some (toast_error "Select item and enter quantity");
       form_after := f |}.
Proof.
  intros Hq Hb. unfold handleAddStock. rewrite Hq, Hb. simpl.
  rewrite orb_true_r. reflexivity.
Qed.

(** C5. The quantity check of [handleAddStock] is [totalQuantity <= 0],
    which is false for [NaN]: three bottles of a custom size that was left
    empty give [3 * NaN], and the handler calls [addStock] with [NaN] and
    reports success. *)
Theorem handleAddStock_submits_NaN :
  totalQuantity Scenario.customWithoutSize = NaN
  /\ issued (handleAddStock Scenario.counterId Scenario.tracked Scenario.customWithoutSize)
     = [AddStock "whisky-id" NaN ml "3 bottles × ml"]
  /\ toast (handleAddStock Scenario.counterId Scenario.tracked Scenario.customWithoutSize)
     = Some (toast_success "Stock added successfully").
Proof.
  repeat split; vm_compute; reflexivity.
Qed.

(** C6. Bottle quick entry: every call [handleAddStock] makes is one
    [addStock] for the selected item with the computed quantity.  When a
    bottle count and a bottle size are present that quantity is count times
    size (the custom size when "custom" is selected), whatever the direct
    field holds; the direct quantity is read only when the bottle count
    or the bottle size is empty.  Three bottles of 750 produce the call, and the stock, that 2250
    typed directly produces. *)
Theorem bottle_quick_entry (freshId : Store -> string) (s : Store) (f : StockForm)
    (a : action) :
  In a (issued (handleAddStock freshId s f)) ->
  (exists invItem,
      getInventoryByMenuItemId s (stockMenuItemId f) = Some invItem
      /\ a = AddStock (stockMenuItemId f) (totalQuantity f)
               (InventoryItem.unit invItem) (stockNotesFor f))
  /\ (str_truthy (bottleCount f) = true -> str_truthy (bottleSize f) = true ->
      totalQuantity f
      = num_mul (parseFloat (bottleCount f))
          (if String.eqb (bottleSize f) "custom"
           then parseFloat (customBottleSize f) else parseFloat (bottleSize f)))
  /\ (str_truthy (bottleCount f) && str_truthy (bottleSize f) = false ->
      totalQuantity f = parseFloat (stockQuantity f))
  /\ issued (handleAddStock freshId Scenario.tracked Scenario.bottles3x750)
     = [AddStock "whisky-id" (Fin 2250) ml "3 bottles × 750ml"]
  /\ issued (handleAddStock freshId Scenario.tracked Scenario.direct2250)
     = [AddStock "whisky-id" (Fin 2250) ml ""]
  /\ inventoryItems
       (store_after (handleAddStock freshId Scenario.tracked Scenario.bottles3x750))
     = inventoryItems
         (store_after (handleAddStock freshId Scenario.tracked Scenario.direct2250)).
Proof.
  intro Hin. unfold handleAddStock in Hin.
  destruct (negb (str_truthy (stockMenuItemId f))
            || negb (str_truthy (stockQuantity f)) && negb (str_truthy (bottleCount f)))
    eqn:Hguard; [destruct Hin |].
  destruct (getInventoryByMenuItemId s (stockMenuItemId f)) as [invItem |];
    [| destruct Hin].
  destruct (num_leb (totalQuantity f) (Fin 0)) eqn:Hq; [destruct Hin |].
  simpl in Hin. destruct Hin as [Ha | []].
  split; [exists invItem; split; [reflexivity | symmetry; exact Ha] |].
  split; [| split].
  - intros Hc Hs. unfold totalQuantity. rewrite Hc, Hs. reflexivity.
  - intro Hc. unfold totalQuantity in Hq |- *. rewrite Hc in Hq |- *.
    destruct (str_truthy (stockQuantity f)); [reflexivity |].
    discriminate Hq.
  - repeat split; vm_compute; reflexivity.
Qed.

Lemma bottle_quick_entry_witness :
  exists invItem,
    getInventoryByMenuItemId Scenario.tracked "whisky-id" = Some invItem
    /\ AddStock "whisky-id" (Fin 2250) ml "3 bottles × 750ml"
       = AddStock (stockMenuItemId Scenario.bottles3x750)
           (totalQuantity Scenario.bottles3x750)
           (InventoryItem.unit invItem) (stockNotesFor Scenario.bottles3x750).
Proof.
  apply (proj1 (bottle_quick_entry Scenario.counterId Scenario.tracked
                  Scenario.bottles3x750
                  (AddStock "whisky-id" (Fin 2250) ml "3 bottles × 750ml")
                  (or_introl eq_refl))).
Defined.

(** ** The store after a sequence of calls *)

(** Unfold one call at the head of a [run]. *)
Ltac run_step :=
  match goal with
  | |- context [run ?g (?a :: ?acts) ?s] =>
      change (run g (a :: acts) s) with (run g acts (applyAction g a s))
  end.

Lemma run_app (freshId : Store -> string) (a b : list action) (s : Store) :
  run freshId (a ++ b) s = run freshId b (run freshId a s).
Proof.
  unfold run. apply fold_left_app.
Qed.

Lemma applyAction_frame (freshId : Store -> string) (a : action) (s : Store) :
  categories (applyAction freshId a s) = categories s
  /\ menuItems (applyAction freshId a s) = menuItems s.
Proof.
  destruct a; simpl; try (split; reflexivity).
  destruct (getInventoryByMenuItemId s menuItemId); [| split; reflexivity].
  destruct (isFinite quantity); split; reflexivity.
Qed.

Lemma run_frame (freshId : Store -> string) (acts : list action) (s : Store) :
  categories (run freshId acts s) = categories s
  /\ menuItems (run freshId acts s) = menuItems s.
Proof.
  revert s. induction acts as [| a acts IH]; intro s; [split; reflexivity |].
  run_step.
  destruct (IH (applyAction freshId a s)) as [Hc Hm].
  destruct (applyAction_frame freshId a s) as [Hc' Hm'].
  split; congruence.
Qed.

Lemma run_addPortions (freshId : Store -> string) (icid : string)
    (l : list (nat * Template.t)) (s : Store) :
  exists rows,
    portionOptions
      (run freshId
         (map (fun ip : nat * Template.t =>
                 let (i, p) := ip in
                 AddPortionOption icid (Template.name p) (Template.size p)
                   (Template.multiplier p) i) l) s)
    = portionOptions s ++ rows
    /\ Forall2 (seededFrom icid) l rows
    /\ inventoryCategories
         (run freshId
            (map (fun ip : nat * Template.t =>
                    let (i, p) := ip in
                    AddPortionOption icid (Template.name p) (Template.size p)
                      (Template.multiplier p) i) l) s)
       = inventoryCategories s
    /\ inventoryItems
         (run freshId
            (map (fun ip : nat * Template.t =>
                    let (i, p) := ip in
                    AddPortionOption icid (Template.name p) (Template.size p)
                      (Template.multiplier p) i) l) s)
       = inventoryItems s.
Proof.
  revert s. induction l as [| [i p] l IH]; intro s.
  - exists []. simpl. rewrite app_nil_r. repeat split. constructor.
  - simpl map.
    match goal with
    | |- context [run freshId (?a :: ?acts) s] =>
        change (run freshId (a :: acts) s)
          with (run freshId acts (applyAction freshId a s));
        destruct (IH (applyAction freshId a s)) as (rows & Hp & Hf & Hc & Hi)
    end.
    eexists (_ :: rows). rewrite Hp, Hc, Hi. simpl.
    rewrite <- app_assoc. simpl. repeat split.
    constructor; [| exact Hf]. unfold seededFrom. simpl. repeat split.
Qed.

Lemma run_seedItems (freshId : Store -> string) (f : CategoryForm)
    (ms : list MenuItem.t) (s : Store) :
  exists rows,
    inventoryItems
      (run freshId
         (map (fun item =>
                 AddInventoryItem (MenuItem.id item) (Fin 0)
                   (if InventoryUnitType_eqb (selectedUnit f) ml
                    then Some (Fin 750) else None)
                   (selectedUnit f) (parseFloat (lowStockThreshold f))) ms) s)
    = inventoryItems s ++ rows
    /\ Forall2 (stockSeeded f) ms rows
    /\ inventoryCategories
         (run freshId
            (map (fun item =>
                    AddInventoryItem (MenuItem.id item) (Fin 0)
                      (if InventoryUnitType_eqb (selectedUnit f) ml
                       then Some (Fin 750) else None)
                      (selectedUnit f) (parseFloat (lowStockThreshold f))) ms) s)
       = inventoryCategories s
    /\ portionOptions
         (run freshId
            (map (fun item =>
                    AddInventoryItem (MenuItem.id item) (Fin 0)
                      (if InventoryUnitType_eqb (selectedUnit f) ml
                       then Some (Fin 750) else None)
                      (selectedUnit f) (parseFloat (lowStockThreshold f))) ms) s)
       = portionOptions s.
Proof.
  revert s. induction ms as [| m ms IH]; intro s.
  - exists []. simpl. rewrite app_nil_r. repeat split. constructor.
  - simpl map.
    match goal with
    | |- context [run freshId (?a :: ?acts) s] =>
        change (run freshId (a :: acts) s)
          with (run freshId acts (applyAction freshId a s));
        destruct (IH (applyAction freshId a s)) as (rows & Hi & Hf & Hc & Hp)
    end.
    eexists (_ :: rows). rewrite Hi, Hc, Hp. simpl.
    rewrite <- app_assoc. simpl. repeat split.
    constructor; [| exact Hf]. unfold stockSeeded. simpl. repeat split.
    destruct (selectedUnit f); reflexivity.
Qed.

Lemma find_app_some {A : Type} (f : A -> bool) (l1 l2 : list A) (x : A) :
  find f l1 = Some x -> find f (l1 ++ l2) = Some x.
Proof.
  induction l1 as [| y l1 IH]; simpl; [discriminate |].
  destruct (f y); [trivial | exact IH].
Qed.

(** What a registration that finds its category does to the store. *)
Lemma register_effect (freshId : Store -> string) (s : Store) (f : CategoryForm)
    (cat : Category.t) :
  str_truthy (selectedCategory f) = true ->
  find (fun c => String.eqb (Category.id c) (selectedCategory f)) (categories s)
  = Some cat ->
  exists target newPortions newItems,
    find (fun ic => String.eqb (InventoryCategory.categoryId ic) (selectedCategory f))
         (inventoryCategories s ++ [registeredRow freshId s f]) = Some target
    /\ issued (handleAddInventoryCategory freshId s f)
       = AddInventoryCategory (selectedCategory f) (selectedUnit f)
           (parseFloat (lowStockThreshold f))
         :: seedPortions target (selectedUnit f) ++ seedItems s cat f
    /\ inventoryCategories (store_after (handleAddInventoryCategory freshId s f))
       = inventoryCategories s ++ [registeredRow freshId s f]
    /\ portionOptions (store_after (handleAddInventoryCategory freshId s f))
       = portionOptions s ++ newPortions
    /\ Forall2 (seededFrom (InventoryCategory.id target))
         (indexed (defaultPortionsFor (selectedUnit f))) newPortions
    /\ inventoryItems (store_after (handleAddInventoryCategory freshId s f))
       = inventoryItems s ++ newItems
    /\ Forall2 (stockSeeded f) (itemsInCategory s cat) newItems
    /\ categories (store_after (handleAddInventoryCategory freshId s f)) = categories s
    /\ menuItems (store_after (handleAddInventoryCategory freshId s f)) = menuItems s.
Proof.
  intros Hsel Hfind.
  assert (Htarget : exists target,
             find (fun ic => String.eqb (InventoryCategory.categoryId ic)
                                        (selectedCategory f))
                  (inventoryCategories s ++ [registeredRow freshId s f]) = Some target).
  { destruct (find (fun ic => String.eqb (InventoryCategory.categoryId ic)
                                         (selectedCategory f))
                   (inventoryCategories s)) as [old |] eqn:E.
    - exists old. apply find_app_some. exact E.
    - exists (registeredRow freshId s f). rewrite find_app_none by exact E.
      simpl. rewrite String.eqb_refl. reflexivity. }
  destruct Htarget as [target Htarget]. exists target.
  unfold handleAddInventoryCategory. rewrite Hsel, Hfind.
  cbn [negb store_after issued].
  change (inventoryCategories
            (applyAction freshId
               (AddInventoryCategory (selectedCategory f) (selectedUnit f)
                  (parseFloat (lowStockThreshold f))) s))
    with (inventoryCategories s ++ [registeredRow freshId s f]).
  rewrite Htarget.
  set (add := AddInventoryCategory (selectedCategory f) (selectedUnit f)
                (parseFloat (lowStockThreshold f))).
  change (run freshId (add :: seedPortions target (selectedUnit f) ++ seedItems s cat f) s)
    with (run freshId (seedPortions target (selectedUnit f) ++ seedItems s cat f)
            (applyAction freshId add s)).
  rewrite run_app.
  assert (HP : forall st, exists rows,
             portionOptions (run freshId (seedPortions target (selectedUnit f)) st)
             = portionOptions st ++ rows
             /\ Forall2 (seededFrom (InventoryCategory.id target))
                  (indexed (defaultPortionsFor (selectedUnit f))) rows
             /\ inventoryCategories (run freshId (seedPortions target (selectedUnit f)) st)
                = inventoryCategories st
             /\ inventoryItems (run freshId (seedPortions target (selectedUnit f)) st)
                = inventoryItems st).
  { intro st. exact (run_addPortions freshId (InventoryCategory.id target)
                       (indexed (defaultPortionsFor (selectedUnit f))) st). }
  assert (HI : forall st, exists rows,
             inventoryItems (run freshId (seedItems s cat f) st)
             = inventoryItems st ++ rows
             /\ Forall2 (stockSeeded f) (itemsInCategory s cat) rows
             /\ inventoryCategories (run freshId (seedItems s cat f) st)
                = inventoryCategories st
             /\ portionOptions (run freshId (seedItems s cat f) st)
                = portionOptions st).
  { intro st. exact (run_seedItems freshId f (itemsInCategory s cat) st). }
  destruct (HP (applyAction freshId add s)) as (newPortions & Hp & Hfp & Hpc & Hpi).
  destruct (HI (run freshId (seedPortions target (selectedUnit f))
                  (applyAction freshId add s))) as (newItems & Hi & Hfi & Hic & Hip).
  exists newPortions, newItems.
  rewrite Hi, Hic, Hip, Hp, Hpc, Hpi.
  destruct (run_frame freshId (seedItems s cat f)
              (run freshId (seedPortions target (selectedUnit f))
                 (applyAction freshId add s))) as [Hc1 Hm1].
  destruct (run_frame freshId (seedPortions target (selectedUnit f))
              (applyAction freshId add s)) as [Hc2 Hm2].
  rewrite Hc1, Hm1, Hc2, Hm2.
  repeat split; try reflexivity; assumption.
Qed.

(** ** Deletions *)

Lemma filter_filter_and {A : Type} (f g : A -> bool) (l : list A) :
  filter f (filter g l) = filter (fun x => g x && f x) l.
Proof.
  induction l as [| x l IH]; simpl; [reflexivity |].
  destruct (g x); simpl; [destruct (f x); rewrite IH; reflexivity | exact IH].
Qed.

Lemma filter_all {A : Type} (l : list A) : filter (fun _ => true) l = l.
Proof.
  induction l as [| x l IH]; simpl; [reflexivity | rewrite IH; reflexivity].
Qed.

(** A run of deletions keeps exactly the rows whose id was not named. *)
Lemma run_deletions (freshId : Store -> string) (acts : list action) :
  forallb isDeletion acts = true ->
  forall s,
    portionOptions (run freshId acts s)
    = filter (fun p => negb (deletesPortion acts p)) (portionOptions s)
    /\ inventoryItems (run freshId acts s)
       = filter (fun ii => negb (deletesItem acts ii)) (inventoryItems s)
    /\ inventoryCategories (run freshId acts s)
       = filter (fun ic => negb (deletesCategory acts ic)) (inventoryCategories s).
Proof.
  induction acts as [| a acts IH]; intros Hdel s.
  - simpl. rewrite !filter_all. repeat split.
  - simpl in Hdel. apply andb_prop in Hdel. destruct Hdel as [Ha Hacts].
    run_step.
    destruct (IH Hacts (applyAction freshId a s)) as (Hp & Hi & Hc).
    rewrite Hp, Hi, Hc.
    destruct a; try discriminate Ha; simpl; repeat split;
      try reflexivity;
      rewrite filter_filter_and; apply filter_ext; intro x;
      rewrite negb_orb; reflexivity.
Qed.

Lemma forallb_map_const {A B : Type} (p : B -> bool) (g : A -> B) (l : list A) :
  (forall x, p (g x) = true) -> forallb p (map g l) = true.
Proof.
  intro H. induction l as [| x l IH]; simpl; [reflexivity |].
  rewrite H, IH. reflexivity.
Qed.

Lemma removeCategoryCalls_deletions (s : Store) (catId : string) :
  forallb isDeletion (removeCategoryCalls s catId) = true.
Proof.
  unfold removeCategoryCalls.
  destruct (find _ (inventoryCategories s)) as [invCat |]; [| reflexivity].
  rewrite !forallb_app. rewrite forallb_map_const by reflexivity. simpl.
  rewrite andb_true_r.
  destruct (find _ (categories s)) as [cat |]; [| reflexivity].
  induction (filter _ (menuItems s)) as [| m ms IH]; simpl; [reflexivity |].
  rewrite forallb_app, IH.
  destruct (find _ (inventoryItems s)); reflexivity.
Qed.


Lemma NoDup_map_eq {A B : Type} (g : A -> B) (l : list A) (x y : A) :
  NoDup (map g l) -> In x l -> In y l -> g x = g y -> x = y.
Proof.
  induction l as [| z l IH]; simpl; intros Hnd Hx Hy Hg; [destruct Hx |].
  inversion Hnd as [| ? ? Hnin Hnd']; subst.
  destruct Hx as [Hx | Hx], Hy as [Hy | Hy]; subst.
  - reflexivity.
  - exfalso. apply Hnin. rewrite Hg. apply in_map. exact Hy.
  - exfalso. apply Hnin. rewrite <- Hg. apply in_map. exact Hx.
  - apply IH; assumption.
Qed.

Lemma Forall2_stockSeeded_ids (f : CategoryForm) (ms : list MenuItem.t)
    (rows : list InventoryItem.t) :
  Forall2 (stockSeeded f) ms rows ->
  map InventoryItem.menuItemId rows = map MenuItem.id ms.
Proof.
  induction 1 as [| m r ms rows Hr _ IH]; simpl; [reflexivity |].
  destruct Hr as [Hid _]. rewrite Hid, IH. reflexivity.
Qed.


Lemma find_none_intro {A : Type} (f : A -> bool) (l : list A) :
  (forall x, In x l -> f x = false) -> find f l = None.
Proof.
  induction l as [| x l IH]; simpl; intro H; [reflexivity |].
  rewrite (H x) by (left; reflexivity). apply IH. intros y Hy. apply H. right. exact Hy.
Qed.



Lemma deletesCategory_in (acts : list action) (ic : InventoryCategory.t) :
  In (DeleteInventoryCategory (InventoryCategory.id ic)) acts ->
  deletesCategory acts ic = true.
Proof.
  intro H. apply existsb_exists. eexists. split; [exact H |]. apply String.eqb_refl.
Qed.

(** ** The category lifecycle *)




(** ** Seeding *)

Lemma map_fst_indexed {A : Type} (l : list A) :
  map fst (indexed l) = seq 0 (List.length l).
Proof.
  unfold indexed. generalize 0%nat.
  induction l as [| x l IH]; intro n; simpl; [reflexivity |].
  rewrite IH. reflexivity.
Qed.

Lemma Forall2_seededFrom_sortOrder (icid : string) (l : list (nat * Template.t))
    (rows : list PortionOption.t) :
  Forall2 (seededFrom icid) l rows ->
  map PortionOption.sortOrder rows = map fst l.
Proof.
  induction 1 as [| ip r l rows Hr _ IH]; simpl; [reflexivity |].
  destruct Hr as (_ & _ & _ & _ & Hso). rewrite Hso, IH. reflexivity.
Qed.

(** C9 as stated fails: from 30ml to 60ml the size grows and the multiplier
    per ml stays at 1/60. *)
Lemma per_ml_multiplier_ties :
  match defaultPortionsFor ml with
  | peg :: large :: _ =>
      num_ltb (Template.size peg) (Template.size large) = true
      /\ num_ltb (perUnit large) (perUnit peg) = false
      /\ num_eqb (perUnit large) (perUnit peg) = true
  | _ => False
  end.
Proof.
  repeat split; reflexivity.
Qed.

(** C9, amended. The [ml] template has seven entries, 30ml at multiplier 0.5
    up to 1000ml, of growing size; the multiplier per ml never grows with the
    size, is the same for 30ml, 60ml and 90ml and falls strictly from 90ml
    on.  The [pcs] template has two entries (one piece, a pack of 20), and
    [grams], [bottle] and [pack] seed the [pcs] template.  A registration
    that finds its category appends one PortionOption per template entry, in
    template order, with [sortOrder] 0, 1, 2, ... *)
Theorem default_portion_templates (freshId : Store -> string) (s : Store)
    (f : CategoryForm) (cat : Category.t) :
  str_truthy (selectedCategory f) = true ->
  find (fun c => String.eqb (Category.id c) (selectedCategory f)) (categories s)
  = Some cat ->
  map (fun t => (Template.size t, Template.multiplier t)) (defaultPortionsFor ml)
  = [ (Fin 30, Fin 0.5); (Fin 60, Fin 1); (Fin 90, Fin 1.5); (Fin 180, Fin 2.8);
      (Fin 375, Fin 5.5); (Fin 750, Fin 10); (Fin 1000, Fin 13.3) ]
  /\ allPairs (fun x y => num_ltb (Template.size x) (Template.size y))
       (defaultPortionsFor ml) = true
  /\ allPairs (fun x y => num_leb (perUnit y) (perUnit x)) (defaultPortionsFor ml) = true
  /\ allPairs (fun x y => num_eqb (perUnit y) (perUnit x))
       (firstn 3 (defaultPortionsFor ml)) = true
  /\ allPairs (fun x y => num_ltb (perUnit y) (perUnit x))
       (skipn 2 (defaultPortionsFor ml)) = true
  /\ map (fun t => (Template.name t, Template.size t, Template.multiplier t))
       (defaultPortionsFor pcs)
     = [ ("1 Piece"%string, Fin 1, Fin 1); ("Pack (20)"%string, Fin 20, Fin 18) ]
  /\ defaultPortionsFor grams = defaultPortionsFor pcs
  /\ defaultPortionsFor bottle = defaultPortionsFor pcs
  /\ defaultPortionsFor pack = defaultPortionsFor pcs
  /\ exists target newPortions,
       find (fun ic => String.eqb (InventoryCategory.categoryId ic) (selectedCategory f))
            (inventoryCategories (store_after (handleAddInventoryCategory freshId s f)))
       = Some target
       /\ portionOptions (store_after (handleAddInventoryCategory freshId s f))
          = portionOptions s ++ newPortions
       /\ Forall2 (seededFrom (InventoryCategory.id target))
            (indexed (defaultPortionsFor (selectedUnit f))) newPortions
       /\ map PortionOption.sortOrder newPortions
          = seq 0 (List.length (defaultPortionsFor (selectedUnit f))).
Proof.
  intros Hsel Hfind.
  do 9 (split; [reflexivity |]).
  destruct (register_effect freshId s f cat Hsel Hfind)
    as (target & newPortions & newItems & Htarget & _ & Hcats & Hports & Hseeded & _).
  exists target, newPortions. rewrite Hcats.
  repeat split; try assumption.
  rewrite (Forall2_seededFrom_sortOrder _ _ _ Hseeded). apply map_fst_indexed.
Qed.

Lemma default_portion_templates_witness :
  exists target newPortions,
    find (fun ic => String.eqb (InventoryCategory.categoryId ic) "drinks-id")
         (inventoryCategories Scenario.tracked) = Some target
    /\ portionOptions Scenario.tracked = [] ++ newPortions
    /\ Forall2 (seededFrom (InventoryCategory.id target))
         (indexed (defaultPortionsFor ml)) newPortions
    /\ map PortionOption.sortOrder newPortions = seq 0 7.
Proof.
  apply (default_portion_templates Scenario.counterId Scenario.untracked
           Scenario.registerDrinks Scenario.drinks eq_refl eq_refl).
Defined.

(** C10. Every stock row a registration seeds has [currentStock] 0, the
    threshold parsed from the form as item threshold and the selected unit;
    its [defaultBottleSize] is 750 when the unit is [ml] and unset for every
    other unit.  The same holds of the arguments of every [addInventoryItem]
    call the handler makes, and there is one such row per menu item of the
    category. *)
Theorem seeded_stock_rows (freshId : Store -> string) (s : Store) (f : CategoryForm) :
  exists newItems,
    inventoryItems (store_after (handleAddInventoryCategory freshId s f))
    = inventoryItems s ++ newItems
    /\ Forall (fun row =>
                 InventoryItem.currentStock row = Fin 0
                 /\ InventoryItem.lowStockThreshold row
                    = Some (parseFloat (lowStockThreshold f))
                 /\ InventoryItem.unit row = selectedUnit f
                 /\ (selectedUnit f = ml ->
                     InventoryItem.defaultBottleSize row = Some (Fin 750))
                 /\ (selectedUnit f <> ml ->
                     InventoryItem.defaultBottleSize row = None))
         newItems
    /\ (forall mid stock dbs u t,
          In (AddInventoryItem mid stock dbs u t)
             (issued (handleAddInventoryCategory freshId s f)) ->
          stock = Fin 0
          /\ t = parseFloat (lowStockThreshold f)
          /\ u = selectedUnit f
          /\ dbs = match selectedUnit f with ml => Some (Fin 750) | _ => None end)
    /\ (forall cat,
          str_truthy (selectedCategory f) = true ->
          find (fun c => String.eqb (Category.id c) (selectedCategory f)) (categories s)
          = Some cat ->
          Forall2 (stockSeeded f) (itemsInCategory s cat) newItems).
Proof.
  destruct (str_truthy (selectedCategory f)) eqn:Hsel.
  2:{ exists []. unfold handleAddInventoryCategory. rewrite Hsel. simpl.
      rewrite app_nil_r. repeat split; try constructor.
      all: try (intros; contradiction). intros; discriminate. }
  destruct (find (fun c => String.eqb (Category.id c) (selectedCategory f)) (categories s))
    as [cat |] eqn:Hfind.
  2:{ exists []. unfold handleAddInventoryCategory. rewrite Hsel, Hfind. simpl.
      rewrite app_nil_r. repeat split; try constructor.
      all: try (intros; contradiction). intros; discriminate. }
  destruct (register_effect freshId s f cat Hsel Hfind)
    as (target & newPortions & newItems & _ & Hissued & _ & _ & _ & Hitems & Hrows & _).
  exists newItems. split; [exact Hitems |]. split; [| split].
  - clear Hitems. induction Hrows as [| m r ms rows Hr _ IH]; constructor; [| exact IH].
    destruct Hr as (_ & Hstock & Hdbs & Hunit & Hthr).
    repeat split; try assumption.
    + intro Hml. rewrite Hdbs, Hml. reflexivity.
    + intro Hnml. rewrite Hdbs. destruct (selectedUnit f); try reflexivity.
      exfalso. apply Hnml. reflexivity.
  - intros mid stock dbs u t Hin. rewrite Hissued in Hin.
    destruct Hin as [Hadd | Hin]; [discriminate Hadd |].
    apply in_app_or in Hin. destruct Hin as [Hin | Hin].
    + unfold seedPortions in Hin. apply in_map_iff in Hin.
      destruct Hin as ([i p] & Heq & _). discriminate Heq.
    + unfold seedItems in Hin. apply in_map_iff in Hin.
      destruct Hin as (item & Heq & _). inversion Heq; subst.
      repeat split. destruct (selectedUnit f); reflexivity.
  - intros cat' _ Hcat'. inversion Hcat'; subst. exact Hrows.
Qed.

Example scenario_seeded_stock :
  map (fun row => (InventoryItem.menuItemId row, InventoryItem.currentStock row,
                   InventoryItem.defaultBottleSize row, InventoryItem.unit row,
                   InventoryItem.lowStockThreshold row))
      (inventoryItems Scenario.tracked)
  = [ ("whisky-id"%string, Fin 0, Some (Fin 750), ml, Some (Fin 5)) ].
Proof. vm_compute. reflexivity. Qed.

Example scenario_round_trip :
  store_after (handleRemoveCategory Scenario.counterId true Scenario.tracked "drinks-id")
  = Scenario.untracked.
Proof. vm_compute. reflexivity. Qed.

(** * Further properties *)

(** ** Numbers up to the value of a fraction *)

Lemma num_equiv_refl (a : number) : num_equiv a a.
Proof.
  destruct a; simpl; trivial. apply Qeq_refl.
Qed.

Lemma num_equiv_trans (a b c : number) :
  num_equiv a b -> num_equiv b c -> num_equiv a c.
Proof.
  destruct a, b, c; simpl; trivial; try contradiction. apply Qeq_trans.
Qed.

Lemma Qle_bool_false_lt (x y : Q) : Qle_bool x y = false -> y < x.
Proof.
  intro H. apply Qnot_le_lt. intro Hle. apply Qle_bool_iff in Hle. congruence.
Qed.

(** Split on every comparison in the goal, keeping the order fact. *)
Ltac qle_cases :=
  repeat match goal with
         | |- context [Qle_bool ?a ?b] =>
             let E := fresh "E" in
             destruct (Qle_bool a b) eqn:E;
             [apply Qle_bool_iff in E | apply Qle_bool_false_lt in E];
             simpl
         end.

Lemma num_min_swap (x y r : number) :
  num_equiv (num_min x (num_min y r)) (num_min y (num_min x r)).
Proof.
  destruct x, y, r; simpl; trivial; qle_cases; trivial; lra.
Qed.

Lemma num_min_equiv_r (a b b' : number) :
  num_equiv b b' -> num_equiv (num_min a b) (num_min a b').
Proof.
  destruct a, b, b'; simpl; trivial; try contradiction;
    intro H; qle_cases; trivial; lra.
Qed.

Lemma Math_min_perm (l l' : list number) :
  Permutation l l' -> num_equiv (Math_min l) (Math_min l').
Proof.
  induction 1 as [| x l l' _ IH | x y l | l l' l'' _ IH1 _ IH2]; simpl.
  - exact I.
  - apply num_min_equiv_r. exact IH.
  - apply num_min_swap.
  - exact (num_equiv_trans _ _ _ IH1 IH2).
Qed.

Lemma Qsign_equiv (x y : Q) : x == y -> Qsign x = Qsign y.
Proof.
  intro H. unfold Qsign. rewrite H. reflexivity.
Qed.

(** Decide every sign test in the goal. *)
Ltac qsign_cases :=
  repeat match goal with
         | |- context [match Qsign ?q with _ => _ end] => destruct (Qsign q)
         end.

Lemma num_div_equiv_r (a b b' : number) :
  num_equiv b b' -> num_equiv (num_div a b) (num_div a b').
Proof.
  destruct a, b, b'; simpl; trivial; try contradiction; intro H;
    try rewrite (Qsign_equiv _ _ H); qsign_cases; simpl; trivial;
    try apply Qeq_refl.
  all: rewrite H; reflexivity.
Qed.

Lemma num_mul_equiv_l (a a' c : number) :
  num_equiv a a' -> num_equiv (num_mul a c) (num_mul a' c).
Proof.
  destruct a, a', c; simpl; trivial; try contradiction; intro H;
    try rewrite (Qsign_equiv _ _ H); qsign_cases; simpl; trivial.
  rewrite H. reflexivity.
Qed.

Lemma Math_round_equiv (a b : number) : num_equiv a b -> Math_round a = Math_round b.
Proof.
  intro H. destruct a, b; simpl in H; try contradiction; try reflexivity.
  unfold Math_round. f_equal. f_equal. apply Qfloor_eq. rewrite H. reflexivity.
Qed.

(** The price only depends on the value of the smallest multiplier. *)
Lemma getPortionPrice_min_equiv (item : MenuItem.t) (l l' : list PortionOption.t)
    (portion : PortionOption.t) :
  num_equiv (Math_min (map PortionOption.priceMultiplier l))
            (Math_min (map PortionOption.priceMultiplier l')) ->
  getPortionPrice item l portion = getPortionPrice item l' portion.
Proof.
  intro H. unfold getPortionPrice.
  apply Math_round_equiv, num_mul_equiv_l, num_div_equiv_r. exact H.
Qed.

(** X1. The price of a portion does not depend on the order in which the
    portions of the category are listed. *)
Theorem price_independent_of_order (item : MenuItem.t)
    (portions portions' : list PortionOption.t) (portion : PortionOption.t) :
  Permutation portions portions' ->
  getPortionPrice item portions portion = getPortionPrice item portions' portion.
Proof.
  intro H. apply getPortionPrice_min_equiv, Math_min_perm, Permutation_map. exact H.
Qed.

Lemma price_independent_of_order_witness :
  getPortionPrice Scenario.whisky Scenario.portions Scenario.fullBottle
  = getPortionPrice Scenario.whisky (rev Scenario.portions) Scenario.fullBottle.
Proof.
  apply (price_independent_of_order Scenario.whisky Scenario.portions
           (rev Scenario.portions) Scenario.fullBottle).
  apply Permutation_rev.
Defined.

(** ** The dialog of [PortionSelector] *)

Lemma insertBySortOrder_perm (p : PortionOption.t) (l : list PortionOption.t) :
  Permutation (insertBySortOrder p l) (p :: l).
Proof.
  induction l as [| q l IH]; simpl; [apply Permutation_refl |].
  destruct (PortionOption.sortOrder p <=? PortionOption.sortOrder q)%nat.
  - apply Permutation_refl.
  - apply perm_trans with (q :: p :: l); [apply perm_skip; exact IH | apply perm_swap].
Qed.

Lemma sortBySortOrder_perm (l : list PortionOption.t) :
  Permutation (sortBySortOrder l) l.
Proof.
  induction l as [| p l IH]; simpl; [apply perm_nil |].
  apply perm_trans with (p :: sortBySortOrder l);
    [apply insertBySortOrder_perm | apply perm_skip; exact IH].
Qed.

Lemma insertBySortOrder_sorted (p : PortionOption.t) (l : list PortionOption.t) :
  StronglySorted (fun a b => (PortionOption.sortOrder a <= PortionOption.sortOrder b)%nat) l ->
  StronglySorted (fun a b => (PortionOption.sortOrder a <= PortionOption.sortOrder b)%nat)
    (insertBySortOrder p l).
Proof.
  induction 1 as [| q l Hs IH Hq]; simpl.
  - constructor; constructor.
  - destruct (PortionOption.sortOrder p <=? PortionOption.sortOrder q)%nat eqn:E.
    + apply Nat.leb_le in E. constructor; [constructor; assumption |].
      constructor; [exact E |].
      apply Forall_forall. intros x Hx.
      rewrite Forall_forall in Hq. specialize (Hq x Hx). lia.
    + apply Nat.leb_gt in E. constructor; [exact IH |].
      apply Forall_forall. intros x Hx.
      apply (Permutation_in _ (insertBySortOrder_perm p l)) in Hx.
      destruct Hx as [Hx | Hx]; [subst x; lia |].
      rewrite Forall_forall in Hq. exact (Hq x Hx).
Qed.

Lemma sortBySortOrder_sorted (l : list PortionOption.t) :
  StronglySorted (fun a b => (PortionOption.sortOrder a <= PortionOption.sortOrder b)%nat)
    (sortBySortOrder l).
Proof.
  induction l as [| p l IH]; simpl; [constructor |].
  apply insertBySortOrder_sorted. exact IH.
Qed.

(** X2. What the portion dialog lists.  When the category has portions the
    dialog shows each of them exactly once, in ascending [sortOrder], and the
    price on each button (the one handed to [onSelect]) is the price derived
    from the portions as the store returned them: sorting them in place
    changes no price.  When the category has no portion the dialog is not
    rendered. *)
Theorem PortionSelector_lists_sorted_portions (s : Store) (item : MenuItem.t) :
  match PortionSelector s item with
  | None => getPortionsByCategory s (MenuItem.category item) = []
  | Some rows =>
      rows <> []
      /\ Permutation (map fst rows) (getPortionsByCategory s (MenuItem.category item))
      /\ StronglySorted
           (fun a b => (PortionOption.sortOrder a <= PortionOption.sortOrder b)%nat)
           (map fst rows)
      /\ Forall (fun row => snd row = selectorPrice s item (fst row)) rows
  end.
Proof.
  unfold PortionSelector, selectorPrice.
  destruct (getPortionsByCategory s (MenuItem.category item)) as [| p l] eqn:E;
    [reflexivity |].
  set (portions := p :: l). cbv zeta.
  assert (Hfst : map fst (map (fun portion =>
                                 (portion,
                                  getPortionPrice item (sortBySortOrder portions) portion))
                              (sortBySortOrder portions))
                 = sortBySortOrder portions).
  { rewrite map_map. simpl. apply map_id. }
  rewrite Hfst. repeat split.
  - intro Hnil. apply (f_equal (@List.length _)) in Hnil.
    rewrite length_map in Hnil.
    pose proof (Permutation_length (sortBySortOrder_perm portions)) as Hlen.
    rewrite Hnil in Hlen. discriminate Hlen.
  - apply sortBySortOrder_perm.
  - apply sortBySortOrder_sorted.
  - apply Forall_forall. intros row Hrow. apply in_map_iff in Hrow.
    destruct Hrow as (q & Hq & _). subst row. cbn [fst snd].
    apply getPortionPrice_min_equiv, Math_min_perm, Permutation_map.
    exact (sortBySortOrder_perm portions).
Qed.

(** ** Bounds on the derived price *)

Lemma num_min_PosInf (a b : number) : num_min a b = PosInf -> a = PosInf /\ b = PosInf.
Proof.
  destruct a, b; simpl; try discriminate; try (split; reflexivity).
  destruct (Qle_bool q q0); discriminate.
Qed.

Lemma Math_min_PosInf (l : list number) (x : number) :
  Math_min l = PosInf -> In x l -> x = PosInf.
Proof.
  induction l as [| y l IH]; simpl; intros H Hin; [destruct Hin |].
  apply num_min_PosInf in H. destruct H as [Hy Hl].
  destruct Hin as [Hin | Hin]; [congruence | apply IH; assumption].
Qed.

(** The smallest multiplier is below every listed multiplier. *)
Lemma Math_min_lower (l : list number) (m : Q) (x : number) :
  Math_min l = Fin m -> In x l ->
  x = PosInf \/ exists q, x = Fin q /\ m <= q.
Proof.
  revert m. induction l as [| y l IH]; intros m H Hin; [destruct Hin |].
  simpl in H. destruct y as [| | qy |]; try discriminate H;
    destruct (Math_min l) as [| | ml |] eqn:E; try discriminate H; simpl in H.
  - destruct (Qle_bool qy ml) eqn:Hle.
    + apply Qle_bool_iff in Hle. injection H as H. subst m.
      destruct Hin as [Hin | Hin].
      * right. exists qy. split; [symmetry; exact Hin | apply Qle_refl].
      * destruct (IH ml eq_refl Hin) as [Hx | (q & Hx & Hq)]; [left; exact Hx |].
        right. exists q. split; [exact Hx | lra].
    + apply Qle_bool_false_lt in Hle. injection H as H. subst m.
      destruct Hin as [Hin | Hin].
      * right. exists qy. split; [symmetry; exact Hin | lra].
      * exact (IH ml eq_refl Hin).
  - injection H as H. subst m. destruct Hin as [Hin | Hin].
    + right. exists qy. split; [symmetry; exact Hin | apply Qle_refl].
    + left. exact (Math_min_PosInf l x E Hin).
  - destruct Hin as [Hin | Hin]; [left; symmetry; exact Hin |].
    exact (IH m H Hin).
Qed.

(** X3. Evaluated in binary64, with a base price [p] that is [0] or lies
    between [2^-300] and [2^300], and a smallest multiplier [m] and a portion
    multiplier [a] in that range, the portion is priced at a non-negative
    integer [z] with [|z - p / m * a| <= 1/2 + (p / m * a) * 2^-51]. *)
Theorem portion_price_error_bound (item : MenuItem.t)
    (portions : list PortionOption.t) (portion : PortionOption.t) (p m a : Q) :
  MenuItem.price item = Fin p ->
  p == 0 \/ inRange 300 p ->
  Math_min (map PortionOption.priceMultiplier portions) = Fin m ->
  inRange 300 m ->
  PortionOption.priceMultiplier portion = Fin a ->
  inRange 300 a ->
  exists z : Z,
    getPortionPrice64 item portions portion = Fin (inject_Z z)
    /\ (0 <= z)%Z
    /\ Qabs (inject_Z z - p / m * a) <= (1 # 2) + p / m * a * pow2 (-51).
Proof.
  intros Hp Hrange Hm Rm Ha Ra.
  destruct (getPortionPrice64_error item portions portion p m a Hp Hrange Hm Rm Ha Ra)
    as [v [Hv [Hv0 Ev]]].
  exists (Qfloor (v + (1 # 2))). split; [exact Hv |].
  destruct (Math_round_bounds v) as [Hlo Hhi].
  split.
  - change 0%Z with (Qfloor (1 # 2)). apply Qfloor_resp_le. lra.
  - apply Qabs_Qle_condition in Ev. destruct Ev as [Ev1 Ev2].
    apply Qabs_Qle_condition. split; lra.
Qed.

Lemma portion_price_error_bound_witness :
  exists z : Z,
    getPortionPrice64 Scenario.whisky Scenario.portions Scenario.fullBottle
    = Fin (inject_Z z)
    /\ (0 <= z)%Z
    /\ Qabs (inject_Z z - 150 / 0.5 * 10) <= (1 # 2) + 150 / 0.5 * 10 * pow2 (-51).
Proof.
  apply (portion_price_error_bound Scenario.whisky Scenario.portions
           Scenario.fullBottle 150 0.5 10).
  - reflexivity.
  - right. split; vm_compute; discriminate.
  - vm_compute. reflexivity.
  - split; vm_compute; discriminate.
  - vm_compute. reflexivity.
  - split; vm_compute; discriminate.
Defined.

(** X4. A smallest multiplier of [0] leaves no finite price: whatever the
    finite base price and whatever the portion, [getPortionPrice] returns
    [NaN] or an infinity. *)
Theorem zero_base_multiplier_never_finite (item : MenuItem.t)
    (portions : list PortionOption.t) (portion : PortionOption.t) (p m : Q) :
  MenuItem.price item = Fin p ->
  Math_min (map PortionOption.priceMultiplier portions) = Fin m ->
  m == 0 ->
  isFinite (getPortionPrice item portions portion) = false.
Proof.
  intros Hp Hm Hm0. unfold getPortionPrice. rewrite Hp, Hm.
  cbn [num_div]. rewrite (Qsign_equiv m 0 Hm0).
  change (Qsign 0) with Eq. cbv iota.
  destruct (Qsign p); destruct (PortionOption.priceMultiplier portion);
    cbn [num_mul Math_round isFinite]; qsign_cases; reflexivity.
Qed.

Lemma zero_base_multiplier_never_finite_witness :
  isFinite (getPortionPrice Scenario.whisky
              (Examples.freeSample :: Scenario.portions) Scenario.fullBottle)
  = false.
Proof.
  apply (zero_base_multiplier_never_finite Scenario.whisky
           (Examples.freeSample :: Scenario.portions) Scenario.fullBottle 150 0).
  - reflexivity.
  - vm_compute. reflexivity.
  - reflexivity.
Defined.

(** ** Rescaling the multipliers *)

Lemma num_equiv_sym (a b : number) : num_equiv a b -> num_equiv b a.
Proof.
  destruct a, b; simpl; trivial. apply Qeq_sym.
Qed.

Lemma num_mul_min_distr (k : Q) (a b : number) :
  0 < k ->
  num_equiv (num_mul (Fin k) (num_min a b))
            (num_min (num_mul (Fin k) a) (num_mul (Fin k) b)).
Proof.
  intro Hk. pose proof (Qsign_pos k Hk) as Hs.
  destruct a, b; cbn [num_mul num_min]; rewrite ?Hs; cbn [num_mul num_min num_equiv];
    trivial; try apply Qeq_refl.
  destruct (Qle_bool q q0) eqn:E1; destruct (Qle_bool (k * q) (k * q0)) eqn:E2;
    cbn [num_mul num_equiv]; try apply Qeq_refl.
  - apply Qle_bool_iff in E1. apply Qle_bool_false_lt in E2.
    apply Qmult_lt_l in E2; [lra | exact Hk].
  - apply Qle_bool_false_lt in E1. apply Qle_bool_iff in E2.
    apply Qmult_le_l in E2; [lra | exact Hk].
Qed.

Lemma Math_min_scaled (k : Q) (l : list number) :
  0 < k ->
  num_equiv (Math_min (map (num_mul (Fin k)) l)) (num_mul (Fin k) (Math_min l)).
Proof.
  intro Hk. induction l as [| y l IH].
  - simpl. rewrite (Qsign_pos k Hk). exact I.
  - change (num_equiv (num_min (num_mul (Fin k) y) (Math_min (map (num_mul (Fin k)) l)))
                      (num_mul (Fin k) (num_min y (Math_min l)))).
    apply num_equiv_trans with (num_min (num_mul (Fin k) y) (num_mul (Fin k) (Math_min l))).
    + apply num_min_equiv_r. exact IH.
    + apply num_equiv_sym. apply num_mul_min_distr. exact Hk.
Qed.

Lemma floorLog2_unique (x : Q) (e : Z) :
  pow2 e <= x -> x < pow2 (e + 1) -> floorLog2 x = e.
Proof.
  intros Hlo Hhi.
  assert (Hx : 0 < x) by (pose proof (pow2_pos e); lra).
  destruct (floorLog2_spec x Hx) as [H1 H2].
  assert (Ha : pow2 e < pow2 (floorLog2 x + 1)) by lra.
  assert (Hb : pow2 (floorLog2 x) < pow2 (e + 1)) by lra.
  apply pow2_lt_inv in Ha, Hb. lia.
Qed.

Lemma floorLog2_proper (x y : Q) : 0 < x -> x == y -> floorLog2 x = floorLog2 y.
Proof.
  intros Hx Hxy.
  assert (Hy : 0 < y) by (rewrite <- Hxy; exact Hx).
  destruct (floorLog2_spec y Hy) as [H1 H2].
  apply floorLog2_unique; rewrite Hxy; assumption.
Qed.

Lemma roundHalfEven_proper (x y : Q) : x == y -> roundHalfEven x = roundHalfEven y.
Proof.
  intro H. unfold roundHalfEven.
  rewrite (Qfloor_eq x y H).
  assert (E : x - inject_Z (Qfloor y) == y - inject_Z (Qfloor y)) by (rewrite H; reflexivity).
  rewrite (Qcompare_comp _ _ E (1 # 2) (1 # 2) (Qeq_refl _)). reflexivity.
Qed.

Lemma roundMagnitude_proper (x y : Q) :
  0 < x -> x == y -> roundMagnitude x = roundMagnitude y.
Proof.
  intros Hx H. unfold roundMagnitude.
  rewrite (floorLog2_proper x y Hx H).
  set (q := Z.max (floorLog2 y - 52) (-1074)).
  assert (E : x / pow2 q == y / pow2 q) by (rewrite H; reflexivity).
  rewrite (roundHalfEven_proper _ _ E). reflexivity.
Qed.

(** [round64] does not depend on how the fraction is written. *)
Lemma round64_proper (x y : Q) : x == y -> round64 x = round64 y.
Proof.
  intro H. unfold round64.
  assert (Hs : Qsign x = Qsign y).
  { unfold Qsign. apply Qcompare_comp; [exact H | reflexivity]. }
  rewrite <- Hs. destruct (Qsign x) eqn:E; [reflexivity | |].
  - unfold Qsign in E. apply Qlt_alt in E.
    assert (Hneg : 0 < - x) by lra.
    assert (Hxy : - x == - y) by (rewrite H; reflexivity).
    cbv zeta. rewrite (roundMagnitude_proper _ _ Hneg Hxy). reflexivity.
  - unfold Qsign in E. apply Qgt_alt in E.
    cbv zeta. rewrite (roundMagnitude_proper _ _ E H). reflexivity.
Qed.

Lemma roundMagnitude_scale (x : Q) (k : Z) :
  pow2 (-1022) <= x -> pow2 (-1022) <= x * pow2 k ->
  roundMagnitude (x * pow2 k) == roundMagnitude x * pow2 k.
Proof.
  intros Hx Hxk.
  assert (Hx0 : 0 < x) by (pose proof (pow2_pos (-1022)); lra).
  pose proof (pow2_pos k) as Hk0.
  destruct (floorLog2_spec x Hx0) as [H1 H2].
  set (e := floorLog2 x) in *.
  assert (He : floorLog2 (x * pow2 k) = (e + k)%Z).
  { apply floorLog2_unique.
    - rewrite pow2_plus. apply Qmult_le_compat_r; lra.
    - replace (e + k + 1)%Z with ((e + 1) + k)%Z by lia. rewrite pow2_plus.
      apply Qmult_lt_r; assumption. }
  assert (Hlo : (-1022 <= e)%Z).
  { assert (pow2 (-1022) < pow2 (e + 1)) by lra. apply pow2_lt_inv in H. lia. }
  assert (Hlo' : (-1022 <= e + k)%Z).
  { assert (Hlt : x * pow2 k < pow2 (e + 1) * pow2 k) by (apply Qmult_lt_r; assumption).
    rewrite <- pow2_plus in Hlt.
    assert (pow2 (-1022) < pow2 (e + 1 + k)) by lra. apply pow2_lt_inv in H. lia. }
  unfold roundMagnitude. fold e. rewrite He.
  rewrite !Z.max_l by lia.
  replace (e + k - 52)%Z with ((e - 52) + k)%Z by lia.
  pose proof (pow2_pos (e - 52)) as HP.
  assert (E : x * pow2 k / pow2 (e - 52 + k) == x / pow2 (e - 52)).
  { rewrite pow2_plus. field. split; lra. }
  rewrite (roundHalfEven_proper _ _ E). rewrite pow2_plus. ring.
Qed.

(** Rounding commutes with a power of two as long as both values are in the
    normal range. *)
Lemma round64_scale (x : Q) (k : Z) :
  pow2 (-1022) <= x -> x <= pow2 1023 ->
  pow2 (-1022) <= x * pow2 k -> x * pow2 k <= pow2 1023 ->
  exists r r' : Q,
    round64 x = Fin r /\ round64 (x * pow2 k) = Fin r' /\ r' == r * pow2 k.
Proof.
  intros Hlo Hhi Hlo' Hhi'.
  destruct (roundMagnitude_normal x Hlo Hhi) as [_ Hfin].
  destruct (roundMagnitude_normal (x * pow2 k) Hlo' Hhi') as [_ Hfin'].
  assert (Hx : 0 < x) by (pose proof (pow2_pos (-1022)); lra).
  assert (Hxk : 0 < x * pow2 k) by (pose proof (pow2_pos (-1022)); lra).
  exists (Qred (roundMagnitude x)), (Qred (roundMagnitude (x * pow2 k))).
  unfold round64. rewrite (Qsign_pos x Hx), (Qsign_pos _ Hxk). cbv zeta.
  rewrite Hfin, Hfin'. split; [reflexivity |]. split; [reflexivity |].
  rewrite !Qred_correct. apply roundMagnitude_scale; assumption.
Qed.

(** X5. Evaluated in binary64, multiplying every multiplier of a category by
    the same power of two [2^k], [-100 <= k <= 100], changes the price of no
    portion, for a base price that is [0] or lies between [2^-300] and
    [2^300] and a smallest multiplier in that range. *)
Theorem price_invariant_under_binary_rescaling (item : MenuItem.t)
    (portions : list PortionOption.t) (portion : PortionOption.t) (k : Z) (p m a : Q) :
  (-100 <= k <= 100)%Z ->
  MenuItem.price item = Fin p ->
  p == 0 \/ inRange 300 p ->
  Math_min (map PortionOption.priceMultiplier portions) = Fin m ->
  inRange 300 m ->
  PortionOption.priceMultiplier portion = Fin a ->
  getPortionPrice64 item (map (scaleMultiplier (pow2 k)) portions)
    (scaleMultiplier (pow2 k) portion)
  = getPortionPrice64 item portions portion.
Proof.
  intros Hk Hp Hrange Hm Rm Ha.
  pose proof (pow2_pos k) as Hk0.
  pose proof (inRange_pos _ _ Rm) as Hpos.
  assert (Hscaled : num_equiv
                      (Math_min (map PortionOption.priceMultiplier
                                     (map (scaleMultiplier (pow2 k)) portions)))
                      (Fin (pow2 k * m))).
  { rewrite map_map.
    change (fun x => PortionOption.priceMultiplier (scaleMultiplier (pow2 k) x))
      with (fun x => num_mul (Fin (pow2 k)) (PortionOption.priceMultiplier x)).
    rewrite <- (map_map PortionOption.priceMultiplier (num_mul (Fin (pow2 k)))).
    pose proof (Math_min_scaled (pow2 k) (map PortionOption.priceMultiplier portions) Hk0)
      as H.
    rewrite Hm in H. exact H. }
  destruct (Math_min (map PortionOption.priceMultiplier
                          (map (scaleMultiplier (pow2 k)) portions)))
    as [| | m' |] eqn:E; simpl in Hscaled; try contradiction.
  assert (Hm' : 0 < m').
  { rewrite Hscaled. apply Qmult_lt_0_compat; assumption. }
  rewrite (getPortionPrice64_finite item _ (scaleMultiplier (pow2 k) portion) p m'
             (pow2 k * a) Hp E Hm').
  2:{ simpl. rewrite Ha. reflexivity. }
  rewrite (getPortionPrice64_finite item portions portion p m a Hp Hm Hpos Ha).
  f_equal.
  destruct Hrange as [H0 | Rp].
  - rewrite !price64_zero by exact H0. reflexivity.
  - pose proof (inRange_div 300 300 p m Rp Rm) as Rw. change (300 + 300)%Z with 600%Z in Rw.
    assert (Rk : inRange 100 (pow2 (- k))).
    { split; apply pow2_le; lia. }
    pose proof (inRange_mul 600 100 _ _ Rw Rk) as Rwk.
    change (600 + 100)%Z with 700%Z in Rwk.
    destruct (inRange_weaken 600 1022 _ ltac:(lia) Rw) as [W1 W2].
    destruct (inRange_weaken 700 1022 _ ltac:(lia) Rwk) as [W3 W4].
    assert (P : pow2 1022 <= pow2 1023) by (apply pow2_le; lia).
    destruct (round64_scale (p / m) (- k) W1 ltac:(lra) W3 ltac:(lra))
      as (u & u' & Hu & Hu' & Huu).
    assert (Ew : p / m' == p / m * pow2 (- k)).
    { rewrite Hscaled. unfold pow2 at 2. rewrite Qpower_opp. fold (pow2 k).
      field. split; lra. }
    rewrite (round64_proper _ _ Ew), Hu', Hu.
    unfold mul64, num_mul, lift64. apply round64_proper.
    rewrite Huu. unfold pow2 at 1. rewrite Qpower_opp. fold (pow2 k). field. lra.
Qed.

Lemma price_invariant_under_binary_rescaling_witness :
  getPortionPrice64 Scenario.whisky (map (scaleMultiplier (pow2 1)) Scenario.portions)
    (scaleMultiplier (pow2 1) Scenario.fullBottle)
  = getPortionPrice64 Scenario.whisky Scenario.portions Scenario.fullBottle.
Proof.
  apply (price_invariant_under_binary_rescaling Scenario.whisky Scenario.portions
           Scenario.fullBottle 1 150 0.5 10).
  - lia.
  - reflexivity.
  - right. split; vm_compute; discriminate.
  - vm_compute. reflexivity.
  - split; vm_compute; discriminate.
  - vm_compute. reflexivity.
Defined.

(** A factor that is no power of two can change a price: Rs 9 with the
    multipliers 0.2 and 0.7 prices the larger portion at 31, and at 32 with
    the same ladder written as 1 and 3.5. *)
Example rescaling_by_five_changes_a_price :
  getPortionPrice64 Rounding.item9 Rounding.ladder0207 Rounding.large07 = Fin 31
  /\ getPortionPrice64 Rounding.item9 Rounding.ladder1035 Rounding.large35 = Fin 32.
Proof.
  split; vm_compute; reflexivity.
Qed.

(** ** Stock entry *)

(** X6. [handleAddStock] is all or nothing.  Either it shows an error, makes
    no call and leaves store and form as they were; or it makes exactly one
    [addStock] call, for an item that has a stock row and in that row's unit,
    shows the success message and resets the form.  The quantity of that call
    is never zero, never negative and never [-Infinity]. *)
Theorem handleAddStock_all_or_nothing (freshId : Store -> string) (s : Store)
    (f : StockForm) :
  (issued (handleAddStock freshId s f) = []
   /\ store_after (handleAddStock freshId s f) = s
   /\ form_after (handleAddStock freshId s f) = f
   /\ exists msg, toast (handleAddStock freshId s f) = Some (toast_error msg))
  \/ (exists invItem,
        In invItem (inventoryItems s)
        /\ InventoryItem.menuItemId invItem = stockMenuItemId f
        /\ stockMenuItemId f <> ""%string
        /\ issued (handleAddStock freshId s f)
           = [AddStock (stockMenuItemId f) (totalQuantity f)
                (InventoryItem.unit invItem) (stockNotesFor f)]
        /\ toast (handleAddStock freshId s f)
           = Some (toast_success "Stock added successfully")
        /\ form_after (handleAddStock freshId s f) = resetStockForm
        /\ match totalQuantity f with
           | Fin q => 0 < q
           | NegInf => False
           | _ => True
           end).
Proof.
  unfold handleAddStock.
  destruct (str_truthy (stockMenuItemId f)) eqn:Hid; simpl negb; cbv iota.
  2:{ left. simpl. repeat split. eexists. reflexivity. }
  destruct (negb (str_truthy (stockQuantity f)) && negb (str_truthy (bottleCount f)));
    simpl orb; cbv iota.
  { left. simpl. repeat split. eexists. reflexivity. }
  destruct (getInventoryByMenuItemId s (stockMenuItemId f)) as [invItem |] eqn:Hfind.
  2:{ left. simpl. repeat split. eexists. reflexivity. }
  destruct (num_leb (totalQuantity f) (Fin 0)) eqn:Hq.
  { left. simpl. repeat split. eexists. reflexivity. }
  right. exists invItem. unfold getInventoryByMenuItemId in Hfind.
  apply find_some in Hfind. destruct Hfind as [Hin Hmatch].
  apply String.eqb_eq in Hmatch.
  repeat split; try assumption.
  - intro Hempty. rewrite Hempty in Hid. discriminate Hid.
  - destruct (totalQuantity f) as [| | q |]; simpl in Hq; try exact I; try discriminate Hq.
    apply Qle_bool_false_lt. exact Hq.
Qed.

(** X7. The total shown under the bottle fields is the quantity the handler
    submits, as long as a fixed size is selected or a custom size has been
    typed.  With "custom" selected and no size typed the two part ways: the
    preview multiplies by 0 and the handler computes [NaN]. *)
Theorem bottle_preview_matches_submission (s : Store) (f : StockForm) (t : number) :
  bottleTotalPreview s f = Some t ->
  (String.eqb (bottleSize f) "custom" = false \/ str_truthy (customBottleSize f) = true ->
   t = totalQuantity f)
  /\ (String.eqb (bottleSize f) "custom" = true -> str_truthy (customBottleSize f) = false ->
      t = num_mul (parseFloat (bottleCount f)) (Fin 0) /\ totalQuantity f = NaN).
Proof.
  unfold bottleTotalPreview, totalQuantity.
  destruct (find _ (inventoryItems s)) as [i |]; [| discriminate].
  destruct (InventoryUnitType_eqb (InventoryItem.unit i) ml); [| discriminate].
  destruct (str_truthy (bottleCount f)) eqn:Hc; [| discriminate].
  destruct (str_truthy (bottleSize f)) eqn:Hs; [| discriminate].
  simpl andb. cbv iota. unfold orZero. rewrite Hc.
  intro H. injection H as H. subst t. split.
  - intros [Hfixed | Hcustom].
    + rewrite Hfixed. reflexivity.
    + rewrite Hcustom. reflexivity.
  - intros Hcustom Hempty. rewrite Hcustom, Hempty.
    destruct (customBottleSize f); [| discriminate Hempty].
    split; [reflexivity |].
    change (parseFloat "") with NaN.
    destruct (parseFloat (bottleCount f)); reflexivity.
Qed.

Lemma bottle_preview_matches_submission_witness :
  Fin 2250 = totalQuantity Scenario.bottles3x750.
Proof.
  apply (proj1 (bottle_preview_matches_submission Scenario.tracked
                  Scenario.bottles3x750 (Fin 2250) eq_refl)).
  left. reflexivity.
Defined.

Lemma string_app_assoc (a b c : string) : ((a ++ b) ++ c = a ++ (b ++ c))%string.
Proof.
  induction a as [| x a IH]; simpl; [reflexivity | rewrite IH; reflexivity].
Qed.

Lemma string_app_nil_r (a : string) : (a ++ "" = a)%string.
Proof.
  induction a as [| x a IH]; simpl; [reflexivity | rewrite IH; reflexivity].
Qed.

(** X8. The notes typed by the user are never dropped or altered: the notes
    passed to [addStock] end with them, and are exactly them when no bottle
    count was typed. *)
Theorem stock_notes_are_kept (f : StockForm) :
  exists lead : string,
    stockNotesFor f = (lead ++ stockNotes f)%string
    /\ (str_truthy (bottleCount f) = false -> lead = ""%string).
Proof.
  unfold stockNotesFor. destruct (str_truthy (bottleCount f)).
  - destruct (str_truthy (stockNotes f)) eqn:Hn.
    + exists (bottleCount f ++ " bottles × "
              ++ (if String.eqb (bottleSize f) "custom"
                  then customBottleSize f else bottleSize f)
              ++ "ml" ++ " - ")%string.
      split; [| discriminate].
      rewrite !string_app_assoc. reflexivity.
    + destruct (stockNotes f); [| discriminate Hn].
      eexists. split; [symmetry; apply string_app_nil_r | discriminate].
  - exists ""%string. split; reflexivity.
Qed.

(** ** The bottle-size dialog *)

(** X9. The Save button of the bottle-size dialog always closes the dialog
    and stores only a size that parses to a number greater than 0: a value
    that does not (empty, "custom", zero, negative) makes no call and shows
    no message.  The call it makes names the stock row of the edited menu
    item. *)
Theorem saveBottleSize_stores_only_positive (s : Store)
    (editBottleSizeItemId : option string) (editBottleSizeValue : string) :
  editBottleSizeItemId_after (saveBottleSize s editBottleSizeItemId editBottleSizeValue)
  = None
  /\ (num_ltb (Fin 0) (parseFloat editBottleSizeValue) = false ->
      bottleCalls (saveBottleSize s editBottleSizeItemId editBottleSizeValue) = []
      /\ bottleToast (saveBottleSize s editBottleSizeItemId editBottleSizeValue) = None)
  /\ (forall id size,
        In (UpdateDefaultBottleSize id size)
           (bottleCalls (saveBottleSize s editBottleSizeItemId editBottleSizeValue)) ->
        size = parseFloat editBottleSizeValue
        /\ num_ltb (Fin 0) size = true
        /\ size <> NaN
        /\ exists invItem,
             In invItem (inventoryItems s)
             /\ InventoryItem.id invItem = id
             /\ editBottleSizeItemId = Some (InventoryItem.menuItemId invItem)).
Proof.
  unfold saveBottleSize.
  assert (Hnothing :
            forall o, o = {| bottleCalls := []; bottleToast := None;
                             editBottleSizeItemId_after := None |} ->
            editBottleSizeItemId_after o = None
            /\ (num_ltb (Fin 0) (parseFloat editBottleSizeValue) = false ->
                bottleCalls o = [] /\ bottleToast o = None)
            /\ (forall id size,
                  In (UpdateDefaultBottleSize id size) (bottleCalls o) ->
                  size = parseFloat editBottleSizeValue
                  /\ num_ltb (Fin 0) size = true
                  /\ size <> NaN
                  /\ exists invItem,
                       In invItem (inventoryItems s)
                       /\ InventoryItem.id invItem = id
                       /\ editBottleSizeItemId = Some (InventoryItem.menuItemId invItem))).
  { intros o Ho. subst o. simpl. split; [reflexivity |].
    split; [intros _; split; reflexivity | intros ? ? []]. }
  cbv zeta.
  destruct editBottleSizeItemId as [mid |]; [| apply Hnothing; reflexivity].
  destruct (str_truthy mid); [| apply Hnothing; reflexivity].
  destruct (find _ (inventoryItems s)) as [invItem |] eqn:Hfind;
    [| apply Hnothing; reflexivity].
  apply find_some in Hfind. destruct Hfind as [Hin Hmatch].
  apply String.eqb_eq in Hmatch.
  destruct (num_ltb (Fin 0) (parseFloat editBottleSizeValue)) eqn:Hpos;
    [| apply Hnothing; reflexivity].
  clear Hnothing. simpl. split; [reflexivity |]. split; [discriminate |].
  intros id size [Hcall | []]. injection Hcall as Hid Hsize. subst id size.
  repeat split; try assumption.
  - intro Hnan. rewrite Hnan in Hpos. discriminate Hpos.
  - exists invItem. repeat split; [exact Hin | rewrite Hmatch; reflexivity].
Qed.

(** ** The stock cards *)

(** X10. Every menu item that has a stock row gets a stock card, and the
    card shows a row of that very item, flagged by [isLow]: the branch that
    renders nothing for a missing row is never taken. *)
Theorem stockCards_always_render (s : Store) :
  List.length (stockCards s) = List.length (inventoryMenuItems s)
  /\ Forall (fun card =>
               exists item invItem,
                 card = Some (item, invItem, isLow invItem)
                 /\ In item (menuItems s)
                 /\ In invItem (inventoryItems s)
                 /\ InventoryItem.menuItemId invItem = MenuItem.id item)
            (stockCards s).
Proof.
  unfold stockCards. split; [apply length_map |].
  apply Forall_forall. intros card Hcard. apply in_map_iff in Hcard.
  destruct Hcard as (item & Hcard & Hitem). subst card.
  unfold inventoryMenuItems in Hitem. apply filter_In in Hitem.
  destruct Hitem as [Hitem Hhas]. apply existsb_exists in Hhas.
  destruct Hhas as (ii & Hii & Hmatch).
  unfold stockCard.
  destruct (find (fun ii0 => String.eqb (InventoryItem.menuItemId ii0) (MenuItem.id item))
                 (inventoryItems s)) as [invItem |] eqn:Hfind.
  - apply find_some in Hfind. destruct Hfind as [Hin Heq].
    apply String.eqb_eq in Heq.
    exists item, invItem. repeat split; assumption.
  - exfalso. pose proof (find_none _ _ Hfind ii Hii) as Hno.
    simpl in Hno. rewrite Hmatch in Hno. discriminate Hno.
Qed.

(** ** The low-stock banner *)

(** X11. The banner accounts for every low-stock item.  It is absent exactly
    when there is none.  The compact form shows their number.  The full form
    shows the first items, at most five and in order, and its overflow badge
    counts exactly the items not shown; that badge appears only when there
    are more than five items, so it never reads "+0 more". *)
Theorem LowStockAlert_accounts_for_all (compact : bool)
    (lowStockItems : list LowStockItem.t) :
  match LowStockAlert compact lowStockItems with
  | None => lowStockItems = []
  | Some (CompactAlert count) =>
      compact = true /\ count = List.length lowStockItems /\ (0 < count)%nat
  | Some (FullAlert badges more) =>
      compact = false
      /\ (0 < List.length badges <= 5)%nat
      /\ exists hidden,
           lowStockItems = badges ++ hidden
           /\ match more with
              | Some k => k = List.length hidden /\ (0 < k)%nat
              | None => hidden = []
              end
  end.
Proof.
  unfold LowStockAlert.
  destruct lowStockItems as [| x l] eqn:E; [reflexivity |].
  rewrite <- E. assert (Hlen : (0 < List.length lowStockItems)%nat) by (subst; simpl; lia).
  clear E x l.
  destruct compact; [repeat split; assumption |].
  split; [reflexivity |].
  pose proof (length_firstn 5 lowStockItems) as Hf.
  pose proof (firstn_skipn 5 lowStockItems) as Hsplit.
  pose proof (length_skipn 5 lowStockItems) as Hs.
  split; [lia |].
  exists (skipn 5 lowStockItems). split; [symmetry; exact Hsplit |].
  destruct (5 <? List.length lowStockItems)%nat eqn:Hmore.
  - apply Nat.ltb_lt in Hmore. split; lia.
  - apply Nat.ltb_ge in Hmore. apply length_zero_iff_nil. lia.
Qed.

(** ** Tracked and untracked categories *)

Lemma distinct_NoDup (l : list string) : distinct l = true -> NoDup l.
Proof.
  induction l as [| x l IH]; simpl; intro H; [constructor |].
  apply andb_prop in H. destruct H as [Hx Hl].
  constructor; [| apply IH; exact Hl].
  intro Hin. apply negb_true_iff in Hx.
  assert (Hex : existsb (String.eqb x) l = true).
  { apply existsb_exists. exists x. split; [exact Hin | apply String.eqb_refl]. }
  congruence.
Qed.

Lemma filter_partition_perm {A : Type} (f : A -> bool) (l : list A) :
  Permutation (filter f l ++ filter (fun x => negb (f x)) l) l.
Proof.
  induction l as [| x l IH]; simpl; [apply perm_nil |].
  destruct (f x); simpl.
  - apply perm_skip. exact IH.
  - apply Permutation_sym, Permutation_cons_app, Permutation_sym. exact IH.
Qed.

(** X12. Registration moves a category from the untracked to the tracked
    list.  The two lists always split the categories between them; after a
    registration that finds its category, that category is tracked and no
    longer offered by the "Add Category" dialog, every category tracked
    before is still tracked, and every menu item of the category has a stock
    card. *)
Theorem registration_tracks_category (freshId : Store -> string) (s : Store)
    (f : CategoryForm) (cat : Category.t) :
  str_truthy (selectedCategory f) = true ->
  find (fun c => String.eqb (Category.id c) (selectedCategory f)) (categories s)
  = Some cat ->
  let s1 := store_after (handleAddInventoryCategory freshId s f) in
  Permutation (trackedCategories s1 ++ unTrackedCategories s1) (categories s)
  /\ In cat (trackedCategories s1)
  /\ ~ In cat (unTrackedCategories s1)
  /\ (forall c, In c (trackedCategories s) -> In c (trackedCategories s1))
  /\ (forall m, In m (itemsInCategory s cat) -> In m (inventoryMenuItems s1)).
Proof.
  intros Hsel Hfind s1.
  destruct (register_effect freshId s f cat Hsel Hfind)
    as (target & newPortions & newItems & _ & _ & Hcats & _ & _ & Hitems & Hrows & Hc & Hm).
  fold s1 in Hcats, Hitems, Hc, Hm.
  apply find_some in Hfind. destruct Hfind as [Hcat Hid]. apply String.eqb_eq in Hid.
  assert (Htracked : forall c, isTracked s1 c
                               = isTracked s c || String.eqb (selectedCategory f) (Category.id c)).
  { intro c. unfold isTracked. rewrite Hcats, existsb_app. simpl.
    rewrite orb_false_r. reflexivity. }
  assert (Hcat1 : isTracked s1 cat = true).
  { rewrite Htracked, Hid, String.eqb_refl. apply orb_true_r. }
  split; [| split; [| split; [| split]]].
  - unfold trackedCategories, unTrackedCategories. rewrite Hc.
    apply filter_partition_perm.
  - unfold trackedCategories. rewrite Hc. apply filter_In. split; assumption.
  - unfold unTrackedCategories. intro Hin. apply filter_In in Hin.
    destruct Hin as [_ Hneg]. rewrite Hcat1 in Hneg. discriminate Hneg.
  - unfold trackedCategories. rewrite Hc. intros c Hin. apply filter_In in Hin.
    destruct Hin as [Hin Ht]. apply filter_In. split; [exact Hin |].
    rewrite Htracked, Ht. reflexivity.
  - intros m Hin. unfold inventoryMenuItems. rewrite Hm, Hitems.
    unfold itemsInCategory in Hin. apply filter_In. split.
    + apply filter_In in Hin. tauto.
    + rewrite existsb_app. apply orb_true_iff. right.
      apply existsb_exists.
      pose proof (Forall2_stockSeeded_ids f _ _ Hrows) as Hids.
      assert (Hmid : In (MenuItem.id m) (map InventoryItem.menuItemId newItems)).
      { rewrite Hids. apply in_map. exact Hin. }
      apply in_map_iff in Hmid. destruct Hmid as (row & Hrow & Hrin).
      exists row. split; [exact Hrin |]. rewrite Hrow. apply String.eqb_refl.
Qed.

Lemma registration_tracks_category_witness :
  In Scenario.drinks (trackedCategories Scenario.tracked)
  /\ ~ In Scenario.drinks (unTrackedCategories Scenario.tracked).
Proof.
  pose proof (registration_tracks_category Scenario.counterId Scenario.untracked
                Scenario.registerDrinks Scenario.drinks eq_refl eq_refl) as H.
  cbv zeta in H. split; [exact (proj1 (proj2 H)) | exact (proj1 (proj2 (proj2 H)))].
Defined.

(** X13. Right after a registration every seeded stock row is flagged low,
    unless the threshold typed in the dialog is negative: the seeded stock is
    0, and a threshold that is 0 or does not parse counts as 5. *)
Theorem seeded_rows_start_low (freshId : Store -> string) (s : Store)
    (f : CategoryForm) (cat : Category.t) :
  str_truthy (selectedCategory f) = true ->
  find (fun c => String.eqb (Category.id c) (selectedCategory f)) (categories s)
  = Some cat ->
  exists newItems,
    inventoryItems (store_after (handleAddInventoryCategory freshId s f))
    = inventoryItems s ++ newItems
    /\ List.length newItems = List.length (itemsInCategory s cat)
    /\ Forall (fun row =>
                 isLow row = negb (num_ltb (parseFloat (lowStockThreshold f)) (Fin 0)))
              newItems.
Proof.
  intros Hsel Hfind.
  destruct (register_effect freshId s f cat Hsel Hfind)
    as (target & newPortions & newItems & _ & _ & _ & _ & _ & Hitems & Hrows & _).
  exists newItems. split; [exact Hitems |]. split.
  - symmetry. exact (Forall2_length Hrows).
  - clear Hitems. induction Hrows as [| m row ms rows Hrow _ IH]; constructor; [| exact IH].
    destruct Hrow as (_ & Hstock & _ & _ & Hthr).
    unfold isLow. rewrite Hstock, Hthr. unfold orFive.
    destruct (parseFloat (lowStockThreshold f)) as [| | q |]; try reflexivity.
    simpl. destruct (Qeq_bool q 0) eqn:Hz; simpl.
    + apply Qeq_bool_iff in Hz. rewrite negb_involutive. symmetry.
      apply Qle_bool_iff. rewrite Hz. apply Qle_refl.
    + rewrite negb_involutive. reflexivity.
Qed.

Lemma seeded_rows_start_low_witness :
  exists newItems,
    inventoryItems Scenario.tracked = [] ++ newItems
    /\ List.length newItems = 1%nat
    /\ Forall (fun row => isLow row = negb (num_ltb (parseFloat "5") (Fin 0))) newItems.
Proof.
  apply (seeded_rows_start_low Scenario.counterId Scenario.untracked
           Scenario.registerDrinks Scenario.drinks eq_refl eq_refl).
Defined.

(** ** Removing a category *)


(** X14. A removal that is declined, or that finds no InventoryCategory for
    the category, makes no call and leaves the store as it was; in the second
    case it still reports that the category was removed. *)
Theorem handleRemoveCategory_nothing_to_remove (freshId : Store -> string)
    (confirmed : bool) (s : Store) (catId : string) :
  confirmed = false
  \/ (forall ic, In ic (inventoryCategories s) ->
                 InventoryCategory.categoryId ic <> catId) ->
  issued (handleRemoveCategory freshId confirmed s catId) = []
  /\ store_after (handleRemoveCategory freshId confirmed s catId) = s
  /\ toast (handleRemoveCategory freshId confirmed s catId)
     = if confirmed then Some (toast_success "Category removed from inventory")
       else None.
Proof.
  intros [Hno | Huntracked].
  - subst confirmed. repeat split.
  - destruct confirmed; [| repeat split].
    assert (Hcalls : removeCategoryCalls s catId = []).
    { unfold removeCategoryCalls. rewrite find_none_intro; [reflexivity |].
      intros ic Hic. apply String.eqb_neq. apply Huntracked. exact Hic. }
    unfold handleRemoveCategory. simpl. rewrite Hcalls. repeat split.
Qed.

Lemma handleRemoveCategory_nothing_to_remove_witness :
  issued (handleRemoveCategory Scenario.counterId true Scenario.tracked "snacks-id") = []
  /\ store_after (handleRemoveCategory Scenario.counterId true Scenario.tracked "snacks-id")
     = Scenario.tracked
  /\ toast (handleRemoveCategory Scenario.counterId true Scenario.tracked "snacks-id")
     = Some (toast_success "Category removed from inventory").
Proof.
  apply (handleRemoveCategory_nothing_to_remove Scenario.counterId true
           Scenario.tracked "snacks-id").
  right. intros ic Hic. vm_compute in Hic. destruct Hic as [Hic | []].
  subst ic. vm_compute. discriminate.
Defined.


Lemma deletesPortion_inv (acts : list action) (p : PortionOption.t) :
  deletesPortion acts p = true -> In (DeletePortionOption (PortionOption.id p)) acts.
Proof.
  intro H. apply existsb_exists in H. destruct H as (a & Ha & Hm).
  destruct a; try discriminate Hm. apply String.eqb_eq in Hm. rewrite Hm. exact Ha.
Qed.

Lemma deletesItem_inv (acts : list action) (ii : InventoryItem.t) :
  deletesItem acts ii = true -> In (DeleteInventoryItem (InventoryItem.id ii)) acts.
Proof.
  intro H. apply existsb_exists in H. destruct H as (a & Ha & Hm).
  destruct a; try discriminate Hm. apply String.eqb_eq in Hm. rewrite Hm. exact Ha.
Qed.

Lemma deletesCategory_inv (acts : list action) (ic : InventoryCategory.t) :
  deletesCategory acts ic = true ->
  In (DeleteInventoryCategory (InventoryCategory.id ic)) acts.
Proof.
  intro H. apply existsb_exists in H. destruct H as (a & Ha & Hm).
  destruct a; try discriminate Hm. apply String.eqb_eq in Hm. rewrite Hm. exact Ha.
Qed.

(** The calls of a removal, by kind. *)
Lemma removeCategoryCalls_inv (s : Store) (catId : string) (a : action) :
  In a (removeCategoryCalls s catId) ->
  exists invCat,
    find (fun ic => String.eqb (InventoryCategory.categoryId ic) catId)
         (inventoryCategories s) = Some invCat
    /\ ((exists p, a = DeletePortionOption (PortionOption.id p)
                   /\ In p (portionOptions s)
                   /\ PortionOption.inventoryCategoryId p = InventoryCategory.id invCat)
        \/ (exists cat item invItem,
              a = DeleteInventoryItem (InventoryItem.id invItem)
              /\ find (fun c => String.eqb (Category.id c) catId) (categories s) = Some cat
              /\ In item (itemsInCategory s cat)
              /\ In invItem (inventoryItems s)
              /\ InventoryItem.menuItemId invItem = MenuItem.id item)
        \/ a = DeleteInventoryCategory (InventoryCategory.id invCat)).
Proof.
  unfold removeCategoryCalls.
  destruct (find _ (inventoryCategories s)) as [invCat |]; [| intros []].
  intro Hin. exists invCat. split; [reflexivity |].
  apply in_app_or in Hin. destruct Hin as [Hin | Hin].
  - left. apply in_map_iff in Hin. destruct Hin as (p & Ha & Hp).
    apply filter_In in Hp. destruct Hp as [Hp Hb]. apply String.eqb_eq in Hb.
    exists p. repeat split; [symmetry; exact Ha | exact Hp | exact Hb].
  - apply in_app_or in Hin. destruct Hin as [Hin | [Hin | []]].
    + right. left.
      destruct (find _ (categories s)) as [cat |]; [| destruct Hin].
      apply in_flat_map in Hin. destruct Hin as (item & Hitem & Ha).
      destruct (find _ (inventoryItems s)) as [invItem |] eqn:Hfind; [| destruct Ha].
      destruct Ha as [Ha | []]. apply find_some in Hfind.
      destruct Hfind as [Hii Hm]. apply String.eqb_eq in Hm.
      exists cat, item, invItem. repeat split; try assumption. symmetry. exact Ha.
    + right. right. symmetry. exact Hin.
Qed.

(** X16. With row ids that are pairwise different, a removal spares what
    belongs to other categories: the portions of every other
    InventoryCategory, the stock rows of menu items outside the removed
    category, and every InventoryCategory row other than the one found for
    the category. *)
Theorem removal_spares_other_categories (freshId : Store -> string) (s : Store)
    (catId : string) (invCat : InventoryCategory.t) :
  NoDup (map PortionOption.id (portionOptions s)) ->
  NoDup (map InventoryItem.id (inventoryItems s)) ->
  NoDup (map InventoryCategory.id (inventoryCategories s)) ->
  find (fun ic => String.eqb (InventoryCategory.categoryId ic) catId)
       (inventoryCategories s) = Some invCat ->
  let s' := store_after (handleRemoveCategory freshId true s catId) in
  (forall p, In p (portionOptions s) ->
             PortionOption.inventoryCategoryId p <> InventoryCategory.id invCat ->
             In p (portionOptions s'))
  /\ (forall ii, In ii (inventoryItems s) ->
                 (forall cat item,
                    find (fun c => String.eqb (Category.id c) catId) (categories s)
                    = Some cat ->
                    In item (itemsInCategory s cat) ->
                    InventoryItem.menuItemId ii <> MenuItem.id item) ->
                 In ii (inventoryItems s'))
  /\ (forall ic, In ic (inventoryCategories s) -> ic <> invCat ->
                 In ic (inventoryCategories s'))
  /\ ~ In invCat (inventoryCategories s').
Proof.
  intros Hndp Hndi Hndc Hfind. cbv zeta.
  change (store_after (handleRemoveCategory freshId true s catId))
    with (run freshId (removeCategoryCalls s catId) s).
  destruct (run_deletions freshId _ (removeCategoryCalls_deletions s catId) s)
    as (Hpo & Hii & Hic).
  rewrite Hpo, Hii, Hic.
  split; [| split; [| split]].
  - intros p Hp Hother. apply filter_In. split; [exact Hp |].
    apply negb_true_iff. destruct (deletesPortion _ p) eqn:Hdel; [| reflexivity].
    exfalso. apply deletesPortion_inv, removeCategoryCalls_inv in Hdel.
    destruct Hdel as (ic & Hic' & [(q & Ha & Hq & Hb) | [(c & i & r & Ha & _) | Ha]]);
      try discriminate Ha.
    injection Ha as Ha. rewrite Hfind in Hic'. injection Hic' as Hic'. subst ic.
    assert (p = q) by (apply (NoDup_map_eq PortionOption.id (portionOptions s)); assumption).
    subst q. contradiction.
  - intros ii Hin Houtside. apply filter_In. split; [exact Hin |].
    apply negb_true_iff. destruct (deletesItem _ ii) eqn:Hdel; [| reflexivity].
    exfalso. apply deletesItem_inv, removeCategoryCalls_inv in Hdel.
    destruct Hdel as (ic & _ & [(q & Ha & _) | [(c & i & r & Ha & Hc & Hi & Hr & Hm) | Ha]]);
      try discriminate Ha.
    injection Ha as Ha.
    assert (ii = r) by (apply (NoDup_map_eq InventoryItem.id (inventoryItems s)); assumption).
    subst r. exact (Houtside c i Hc Hi Hm).
  - intros ic Hin Hother. apply filter_In. split; [exact Hin |].
    apply negb_true_iff. destruct (deletesCategory _ ic) eqn:Hdel; [| reflexivity].
    exfalso. apply deletesCategory_inv, removeCategoryCalls_inv in Hdel.
    destruct Hdel as (ic' & Hic' & [(q & Ha & _) | [(c & i & r & Ha & _) | Ha]]);
      try discriminate Ha.
    injection Ha as Ha. rewrite Hfind in Hic'. injection Hic' as Hic'. subst ic'.
    apply Hother. apply find_some in Hfind. destruct Hfind as [Hinv _].
    apply (NoDup_map_eq InventoryCategory.id (inventoryCategories s)); assumption.
  - intro Hin. apply filter_In in Hin. destruct Hin as [_ Hkept].
    rewrite deletesCategory_in in Hkept; [discriminate Hkept |].
    unfold removeCategoryCalls. rewrite Hfind.
    apply in_or_app. right. apply in_or_app. right. left. reflexivity.
Qed.

Lemma removal_spares_other_categories_witness :
  In Pantry.piece
     (portionOptions
        (store_after
           (handleRemoveCategory Scenario.counterId true Pantry.bothTracked "drinks-id"))).
Proof.
  refine (proj1 (removal_spares_other_categories Scenario.counterId Pantry.bothTracked
                   "drinks-id"
                   {| InventoryCategory.id := "row-0";
                      InventoryCategory.categoryId := "drinks-id";
                      InventoryCategory.unitType := ml;
                      InventoryCategory.lowStockThreshold := Fin 5 |} _ _ _ _)
                Pantry.piece _ _).
  - apply distinct_NoDup. vm_compute. reflexivity.
  - apply distinct_NoDup. vm_compute. reflexivity.
  - apply distinct_NoDup. vm_compute. reflexivity.
  - vm_compute. reflexivity.
  - vm_compute. tauto.
  - vm_compute. discriminate.
Defined.

(** ** Saving prices in the editor *)

Lemma find_filter_other {A : Type} (f g : A -> bool) (l : list A) :
  (forall x, f x = true -> g x = false) ->
  find f (filter (fun x => negb (g x)) l) = find f l.
Proof.
  intro H. induction l as [| x l IH]; simpl; [reflexivity |].
  destruct (g x) eqn:Hg; simpl.
  - destruct (f x) eqn:Hf; [rewrite (H x Hf) in Hg; discriminate Hg | exact IH].
  - destruct (f x); [reflexivity | exact IH].
Qed.

(** Setting the override of one pair leaves the override of any other pair
    alone. *)
Lemma getItemPortionPrice_set_other (freshId : Store -> string) (s : Store)
    (mid pid mid' pid' : string) (v : number) :
  mid' <> mid \/ pid' <> pid ->
  getItemPortionPrice (applyAction freshId (SetItemPortionPrice mid pid v) s) mid' pid'
  = getItemPortionPrice s mid' pid'.
Proof.
  intro Hother. unfold getItemPortionPrice. simpl. f_equal.
  assert (Hkey : String.eqb mid mid' && String.eqb pid pid' = false).
  { apply andb_false_iff.
    destruct Hother as [H | H]; [left | right]; apply String.eqb_neq; congruence. }
  set (f := fun ip => String.eqb (ItemPortionPrice.menuItemId ip) mid'
                      && String.eqb (ItemPortionPrice.portionOptionId ip) pid').
  set (g := fun ip => String.eqb (ItemPortionPrice.menuItemId ip) mid
                      && String.eqb (ItemPortionPrice.portionOptionId ip) pid).
  assert (Hfg : forall x, f x = true -> g x = false).
  { intros x Hx. unfold f in Hx. apply andb_prop in Hx. destruct Hx as [H1 H2].
    apply String.eqb_eq in H1. apply String.eqb_eq in H2. unfold g.
    rewrite H1, H2, (String.eqb_sym mid' mid), (String.eqb_sym pid' pid). exact Hkey. }
  destruct (find f (filter (fun x => negb (g x)) (itemPortionPrices s))) as [x |] eqn:E.
  - rewrite (find_app_some f _ _ x E). rewrite find_filter_other in E by exact Hfg.
    symmetry. exact E.
  - rewrite (find_app_none f _ _ E). rewrite find_filter_other in E by exact Hfg.
    rewrite E. unfold f. cbn [find ItemPortionPrice.menuItemId ItemPortionPrice.portionOptionId].
    rewrite Hkey. reflexivity.
Qed.

(** What the editor would store for [portion], if anything. *)
Lemma saveStep_cases (freshId : Store -> string) (menuItem : MenuItem.t)
    (prices : list (string * string)) (st : Store) (acts : list action)
    (portion : PortionOption.t) :
  saveStep freshId menuItem prices (st, acts) portion = (st, acts)
  \/ exists priceStr,
       lookupPrice prices (PortionOption.id portion) = Some priceStr
       /\ str_truthy priceStr = true
       /\ priceChanged (parseFloat priceStr)
            (getItemPortionPrice st (MenuItem.id menuItem) (PortionOption.id portion))
          = true
       /\ saveStep freshId menuItem prices (st, acts) portion
          = (applyAction freshId
               (SetItemPortionPrice (MenuItem.id menuItem) (PortionOption.id portion)
                  (parseFloat priceStr)) st,
             acts ++ [SetItemPortionPrice (MenuItem.id menuItem) (PortionOption.id portion)
                        (parseFloat priceStr)]).
Proof.
  unfold saveStep.
  destruct (lookupPrice prices (PortionOption.id portion)) as [priceStr |];
    [| left; reflexivity].
  destruct (str_truthy priceStr) eqn:Ht; [| left; reflexivity].
  destruct (priceChanged (parseFloat priceStr) _) eqn:Hc; [| left; reflexivity].
  right. exists priceStr. repeat split; assumption.
Qed.

Lemma handleSave_fold (freshId : Store -> string) (s : Store) (menuItem : MenuItem.t)
    (portions : list PortionOption.t) (prices : list (string * string)) :
  store_after (handleSave freshId s menuItem portions prices)
  = fst (fold_left (saveStep freshId menuItem prices) portions (s, []))
  /\ issued (handleSave freshId s menuItem portions prices)
     = snd (fold_left (saveStep freshId menuItem prices) portions (s, [])).
Proof.
  unfold handleSave.
  destruct (fold_left (saveStep freshId menuItem prices) portions (s, [])) as [st acts].
  split; reflexivity.
Qed.

(** X17. Every call the editor makes on Save is a [setItemPortionPrice] for
    the edited menu item and one of the listed portions, with the number
    parsed from that portion's field, which is not empty.  A field left empty
    therefore changes nothing, and the editor has no way to remove an
    override. *)
Theorem handleSave_sets_typed_prices (freshId : Store -> string) (s : Store)
    (menuItem : MenuItem.t) (portions : list PortionOption.t)
    (prices : list (string * string)) (a : action) :
  In a (issued (handleSave freshId s menuItem portions prices)) ->
  exists portion priceStr,
    In portion portions
    /\ lookupPrice prices (PortionOption.id portion) = Some priceStr
    /\ priceStr <> ""%string
    /\ a = SetItemPortionPrice (MenuItem.id menuItem) (PortionOption.id portion)
             (parseFloat priceStr).
Proof.
  rewrite (proj2 (handleSave_fold freshId s menuItem portions prices)).
  assert (Hgen : forall l st acts,
             In a (snd (fold_left (saveStep freshId menuItem prices) l (st, acts))) ->
             In a acts
             \/ exists portion priceStr,
                  In portion l
                  /\ lookupPrice prices (PortionOption.id portion) = Some priceStr
                  /\ priceStr <> ""%string
                  /\ a = SetItemPortionPrice (MenuItem.id menuItem)
                           (PortionOption.id portion) (parseFloat priceStr)).
  { induction l as [| q l IH]; intros st acts Hin; [left; exact Hin |].
    cbn [fold_left] in Hin.
    destruct (saveStep_cases freshId menuItem prices st acts q)
      as [Hsame | (priceStr & Hlook & Ht & _ & Hset)].
    - rewrite Hsame in Hin. destruct (IH st acts Hin) as [H | (p & ps & Hp & H)];
        [left; exact H | right; exists p, ps; split; [right; exact Hp | exact H]].
    - rewrite Hset in Hin.
      destruct (IH _ _ Hin) as [H | (p & ps & Hp & H)].
      + apply in_app_or in H. destruct H as [H | [H | []]]; [left; exact H |].
        right. exists q, priceStr. repeat split.
        * left. reflexivity.
        * exact Hlook.
        * intro He. subst priceStr. discriminate Ht.
        * symmetry. exact H.
      + right. exists p, ps. split; [right; exact Hp | exact H]. }
  intro Hin. destruct (Hgen portions s [] Hin) as [[] | H]. exact H.
Qed.

Lemma handleSave_sets_typed_prices_witness :
  exists portion priceStr,
    In portion Scenario.portions
    /\ lookupPrice [(PortionOption.id Scenario.fullBottle, "1400"%string)]
         (PortionOption.id portion) = Some priceStr
    /\ priceStr <> ""%string
    /\ SetItemPortionPrice "whisky-id" "row-6" (Fin 1400)
       = SetItemPortionPrice (MenuItem.id Scenario.whisky) (PortionOption.id portion)
           (parseFloat priceStr).
Proof.
  apply (handleSave_sets_typed_prices Scenario.counterId Scenario.tracked
           Scenario.whisky Scenario.portions
           [(PortionOption.id Scenario.fullBottle, "1400"%string)]
           (SetItemPortionPrice "whisky-id" "row-6" (Fin 1400))).
  vm_compute. left. reflexivity.
Defined.

(** X18. Saving never loses an override: a pair (menu item, portion) that
    had one before Save has one afterwards, and the overrides of every other
    menu item keep their value. *)
Theorem handleSave_keeps_overrides (freshId : Store -> string) (s : Store)
    (menuItem : MenuItem.t) (portions : list PortionOption.t)
    (prices : list (string * string)) (mid pid : string) (v : number) :
  getItemPortionPrice s mid pid = Some v ->
  exists v',
    getItemPortionPrice (store_after (handleSave freshId s menuItem portions prices))
      mid pid = Some v'
    /\ (mid <> MenuItem.id menuItem -> v' = v).
Proof.
  rewrite (proj1 (handleSave_fold freshId s menuItem portions prices)).
  generalize (@nil action). revert s v.
  induction portions as [| q l IH]; intros s v acts Hget.
  - exists v. split; [exact Hget | reflexivity].
  - cbn [fold_left].
    destruct (saveStep_cases freshId menuItem prices s acts q)
      as [Hsame | (priceStr & _ & _ & _ & Hset)].
    + rewrite Hsame. apply IH. exact Hget.
    + rewrite Hset.
      set (a := SetItemPortionPrice (MenuItem.id menuItem) (PortionOption.id q)
                  (parseFloat priceStr)).
      destruct (String.eqb_spec mid (MenuItem.id menuItem)) as [Hm | Hm].
      * destruct (String.eqb_spec pid (PortionOption.id q)) as [Hp | Hp].
        -- subst mid pid.
           destruct (IH (applyAction freshId a s) (parseFloat priceStr) (acts ++ [a])
                        (getItemPortionPrice_set freshId s (MenuItem.id menuItem)
                           (PortionOption.id q) (parseFloat priceStr)))
             as (v' & Hv' & _).
           exists v'. split; [exact Hv' | intro H; contradiction H; reflexivity].
        -- destruct (IH (applyAction freshId a s) v (acts ++ [a])) as (v' & Hv' & _).
           { unfold a. rewrite getItemPortionPrice_set_other; [exact Hget | right; exact Hp]. }
           exists v'. split; [exact Hv' | intro H; contradiction].
      * apply IH. unfold a.
        rewrite getItemPortionPrice_set_other; [exact Hget | left; exact Hm].
Qed.

Lemma handleSave_keeps_overrides_witness :
  exists v',
    getItemPortionPrice
      (store_after
         (handleSave Scenario.counterId Scenario.priced Scenario.whisky Scenario.portions
            [(PortionOption.id (Scenario.portionAt 0), "80"%string)]))
      "whisky-id" "row-6" = Some v'
    /\ ("whisky-id"%string <> MenuItem.id Scenario.whisky -> v' = Fin 1400).
Proof.
  apply (handleSave_keeps_overrides Scenario.counterId Scenario.priced Scenario.whisky
           Scenario.portions [(PortionOption.id (Scenario.portionAt 0), "80"%string)]
           "whisky-id" "row-6" (Fin 1400)).
  vm_compute. reflexivity.
Defined.

Lemma num_eqb_refl (v : number) : v <> NaN -> num_eqb v v = true.
Proof.
  destruct v; simpl; intro H; try reflexivity; [contradiction H; reflexivity |].
  apply Qeq_bool_iff. apply Qeq_refl.
Qed.

Lemma saveStep_newPrice (freshId : Store -> string) (menuItem : MenuItem.t)
    (prices : list (string * string)) (st : Store) (acts : list action)
    (portion : PortionOption.t) :
  saveStep freshId menuItem prices (st, acts) portion
  = match newPriceFor prices portion with
    | Some v =>
        if priceChanged v
             (getItemPortionPrice st (MenuItem.id menuItem) (PortionOption.id portion))
        then (applyAction freshId
                (SetItemPortionPrice (MenuItem.id menuItem) (PortionOption.id portion) v) st,
              acts ++ [SetItemPortionPrice (MenuItem.id menuItem)
                         (PortionOption.id portion) v])
        else (st, acts)
    | None => (st, acts)
    end.
Proof.
  unfold saveStep, newPriceFor.
  destruct (lookupPrice prices (PortionOption.id portion)) as [priceStr |];
    [| reflexivity].
  destruct (str_truthy priceStr); reflexivity.
Qed.

(** A step settles its own portion, when the typed price is a number. *)
Lemma saveStep_settles (freshId : Store -> string) (menuItem : MenuItem.t)
    (prices : list (string * string)) (st : Store) (acts : list action)
    (portion : PortionOption.t) :
  (forall v, newPriceFor prices portion = Some v -> v <> NaN) ->
  settled prices menuItem
    (fst (saveStep freshId menuItem prices (st, acts) portion)) portion.
Proof.
  intro Hnum. rewrite saveStep_newPrice. unfold settled.
  destruct (newPriceFor prices portion) as [v |] eqn:Hv; [| exact I].
  pose proof (Hnum v eq_refl) as Hv'.
  destruct (priceChanged v
              (getItemPortionPrice st (MenuItem.id menuItem) (PortionOption.id portion)))
    eqn:Hc; cbn [fst].
  - rewrite getItemPortionPrice_set. simpl.
    rewrite (num_eqb_refl v Hv'). reflexivity.
  - exact Hc.
Qed.

(** A step leaves the override of every other portion alone. *)
Lemma saveStep_other (freshId : Store -> string) (menuItem : MenuItem.t)
    (prices : list (string * string)) (st : Store) (acts : list action)
    (portion : PortionOption.t) (pid : string) :
  pid <> PortionOption.id portion ->
  getItemPortionPrice (fst (saveStep freshId menuItem prices (st, acts) portion))
    (MenuItem.id menuItem) pid
  = getItemPortionPrice st (MenuItem.id menuItem) pid.
Proof.
  intro Hother. rewrite saveStep_newPrice.
  destruct (newPriceFor prices portion) as [v |]; [| reflexivity].
  destruct (priceChanged v _); [| reflexivity].
  cbn [fst]. apply getItemPortionPrice_set_other. right. exact Hother.
Qed.

Lemma saveFold_other (freshId : Store -> string) (menuItem : MenuItem.t)
    (prices : list (string * string)) (l : list PortionOption.t) (pid : string) :
  ~ In pid (map PortionOption.id l) ->
  forall st acts,
    getItemPortionPrice
      (fst (fold_left (saveStep freshId menuItem prices) l (st, acts)))
      (MenuItem.id menuItem) pid
    = getItemPortionPrice st (MenuItem.id menuItem) pid.
Proof.
  induction l as [| q l IH]; intros Hnin st acts; [reflexivity |].
  cbn [fold_left].
  destruct (saveStep freshId menuItem prices (st, acts) q) as [st1 acts1] eqn:E.
  rewrite IH by (intro H; apply Hnin; right; exact H).
  replace st1 with (fst (saveStep freshId menuItem prices (st, acts) q))
    by (rewrite E; reflexivity).
  apply saveStep_other. intro H. apply Hnin. left. symmetry. exact H.
Qed.

(** After a save every listed portion is settled. *)
Lemma saveFold_settles (freshId : Store -> string) (menuItem : MenuItem.t)
    (prices : list (string * string)) (l : list PortionOption.t) :
  NoDup (map PortionOption.id l) ->
  (forall q v, In q l -> newPriceFor prices q = Some v -> v <> NaN) ->
  forall st acts q,
    In q l ->
    settled prices menuItem
      (fst (fold_left (saveStep freshId menuItem prices) l (st, acts))) q.
Proof.
  induction l as [| q0 l IH]; intros Hnd Hnum st acts q Hin; [destruct Hin |].
  simpl in Hnd. inversion Hnd as [| ? ? Hnin Hnd']; subst.
  cbn [fold_left].
  destruct (saveStep freshId menuItem prices (st, acts) q0) as [st1 acts1] eqn:E.
  destruct (in_dec string_dec (PortionOption.id q) (map PortionOption.id l)) as [Hl | Hl].
  - apply in_map_iff in Hl. destruct Hl as (q' & Hid & Hq').
    pose proof (IH Hnd' (fun x v Hx => Hnum x v (or_intror Hx)) st1 acts1 q' Hq') as Hs.
    unfold settled, newPriceFor in Hs |- *. rewrite Hid in Hs. exact Hs.
  - destruct Hin as [Hin | Hin]; [subst q0 | contradiction Hl; apply in_map; exact Hin].
    pose proof (saveStep_settles freshId menuItem prices st acts q
                  (fun v Hv => Hnum q v (or_introl eq_refl) Hv)) as Hs.
    rewrite E in Hs. cbn [fst] in Hs.
    unfold settled in Hs |- *.
    destruct (newPriceFor prices q) as [v |]; [| exact I].
    rewrite (saveFold_other freshId menuItem prices l _ Hl st1 acts1). exact Hs.
Qed.

(** When every listed portion is settled, a save does nothing. *)
Lemma saveFold_settled (freshId : Store -> string) (menuItem : MenuItem.t)
    (prices : list (string * string)) (l : list PortionOption.t) (st : Store)
    (acts : list action) :
  (forall q, In q l -> settled prices menuItem st q) ->
  fold_left (saveStep freshId menuItem prices) l (st, acts) = (st, acts).
Proof.
  induction l as [| q l IH]; intro Hall; [reflexivity |].
  cbn [fold_left]. rewrite saveStep_newPrice.
  pose proof (Hall q (or_introl eq_refl)) as Hq. unfold settled in Hq.
  destruct (newPriceFor prices q) as [v |].
  - rewrite Hq. apply IH. intros x Hx. apply Hall. right. exact Hx.
  - apply IH. intros x Hx. apply Hall. right. exact Hx.
Qed.

(** X19. Saving twice is saving once.  When the listed portions have
    pairwise different ids and every non-empty field parses to a number, a
    second Save with the same fields makes no call, shows no message and
    leaves the store of the first Save as it is. *)
Theorem handleSave_idempotent (freshId : Store -> string) (s : Store)
    (menuItem : MenuItem.t) (portions : list PortionOption.t)
    (prices : list (string * string)) :
  NoDup (map PortionOption.id portions) ->
  (forall q v, In q portions -> newPriceFor prices q = Some v -> v <> NaN) ->
  let s1 := store_after (handleSave freshId s menuItem portions prices) in
  issued (handleSave freshId s1 menuItem portions prices) = []
  /\ toast (handleSave freshId s1 menuItem portions prices) = None
  /\ store_after (handleSave freshId s1 menuItem portions prices) = s1.
Proof.
  intros Hnd Hnum s1.
  assert (Hfold : fold_left (saveStep freshId menuItem prices) portions (s1, [])
                  = (s1, [])).
  { apply saveFold_settled. intros q Hq. unfold s1.
    rewrite (proj1 (handleSave_fold freshId s menuItem portions prices)).
    apply saveFold_settles; assumption. }
  assert (Hsecond : handleSave freshId s1 menuItem portions prices
                    = {| store_after := s1; issued := []; toast := None;
                         form_after := tt |}).
  { unfold handleSave at 1. rewrite Hfold. reflexivity. }
  rewrite Hsecond. repeat split.
Qed.

Lemma handleSave_idempotent_witness :
  issued (handleSave Scenario.counterId Scenario.priced Scenario.whisky Scenario.portions
            [(PortionOption.id Scenario.fullBottle, "1400"%string)]) = []
  /\ toast (handleSave Scenario.counterId Scenario.priced Scenario.whisky Scenario.portions
              [(PortionOption.id Scenario.fullBottle, "1400"%string)]) = None
  /\ store_after
       (handleSave Scenario.counterId Scenario.priced Scenario.whisky Scenario.portions
          [(PortionOption.id Scenario.fullBottle, "1400"%string)])
     = Scenario.priced.
Proof.
  apply (handleSave_idempotent Scenario.counterId Scenario.tracked Scenario.whisky
           Scenario.portions [(PortionOption.id Scenario.fullBottle, "1400"%string)]).
  - apply distinct_NoDup. vm_compute. reflexivity.
  - intros q v Hq Hv. vm_compute in Hq.
    repeat (destruct Hq as [Hq | Hq]; [subst q; vm_compute in Hv; try discriminate Hv |]);
      try contradiction.
    injection Hv as Hv. subst v. discriminate.
Defined.

(** ** From registration to stock entry *)

Lemma Forall2_stockSeeded_unit (f : CategoryForm) (ms : list MenuItem.t)
    (rows : list InventoryItem.t) :
  Forall2 (stockSeeded f) ms rows ->
  Forall (fun row => InventoryItem.unit row = selectedUnit f) rows.
Proof.
  induction 1 as [| m r ms rows Hr _ IH]; constructor; [| exact IH].
  destruct Hr as (_ & _ & _ & Hunit & _). exact Hunit.
Qed.

(** X20. Registration opens stock entry in the unit of the category.  Once a
    category is registered, a quantity that passes the check, entered for a
    menu item of that category that had no stock row before, produces one
    [addStock] call for that item in the unit chosen at registration. *)
Theorem stock_entry_after_registration (freshId : Store -> string) (s : Store)
    (f : CategoryForm) (cat : Category.t) (m : MenuItem.t) (g : StockForm) :
  str_truthy (selectedCategory f) = true ->
  find (fun c => String.eqb (Category.id c) (selectedCategory f)) (categories s)
  = Some cat ->
  In m (itemsInCategory s cat) ->
  MenuItem.id m <> ""%string ->
  (forall ii, In ii (inventoryItems s) -> InventoryItem.menuItemId ii <> MenuItem.id m) ->
  stockMenuItemId g = MenuItem.id m ->
  num_leb (totalQuantity g) (Fin 0) = false ->
  let s1 := store_after (handleAddInventoryCategory freshId s f) in
  issued (handleAddStock freshId s1 g)
  = [AddStock (MenuItem.id m) (totalQuantity g) (selectedUnit f) (stockNotesFor g)]
  /\ toast (handleAddStock freshId s1 g) = Some (toast_success "Stock added successfully").
Proof.
  intros Hsel Hfind Hm Hid Hnew Hg Hq s1.
  destruct (register_effect freshId s f cat Hsel Hfind)
    as (target & newPortions & newItems & _ & _ & _ & _ & _ & Hitems & Hrows & _).
  fold s1 in Hitems.
  assert (Hrow : exists row,
             getInventoryByMenuItemId s1 (MenuItem.id m) = Some row
             /\ InventoryItem.unit row = selectedUnit f).
  { unfold getInventoryByMenuItemId. rewrite Hitems.
    rewrite find_app_none.
    2:{ apply find_none_intro. intros ii Hii. apply String.eqb_neq. apply Hnew. exact Hii. }
    destruct (find (fun ii => String.eqb (InventoryItem.menuItemId ii) (MenuItem.id m))
                   newItems) as [row |] eqn:E.
    - exists row. split; [reflexivity |]. apply find_some in E. destruct E as [Hin _].
      pose proof (Forall2_stockSeeded_unit f _ _ Hrows) as Hunits.
      rewrite Forall_forall in Hunits. exact (Hunits row Hin).
    - exfalso.
      assert (Hmid : In (MenuItem.id m) (map InventoryItem.menuItemId newItems)).
      { rewrite (Forall2_stockSeeded_ids f _ _ Hrows). apply in_map. exact Hm. }
      apply in_map_iff in Hmid. destruct Hmid as (row & Hr & Hrin).
      pose proof (find_none _ _ E row Hrin) as Hno. simpl in Hno.
      rewrite Hr, String.eqb_refl in Hno. discriminate Hno. }
  destruct Hrow as (row & Hget & Hunit).
  assert (Htyped : negb (str_truthy (stockQuantity g)) && negb (str_truthy (bottleCount g))
                   = false).
  { destruct (str_truthy (stockQuantity g)) eqn:Hsq; [reflexivity |].
    destruct (str_truthy (bottleCount g)) eqn:Hbc; [reflexivity |].
    exfalso. unfold totalQuantity in Hq. rewrite Hsq, Hbc in Hq. discriminate Hq. }
  assert (Hnonempty : str_truthy (stockMenuItemId g) = true).
  { rewrite Hg. destruct (MenuItem.id m); [contradiction Hid; reflexivity | reflexivity]. }
  unfold handleAddStock. rewrite Hnonempty, Htyped. simpl orb. cbv iota.
  rewrite Hg, Hget, Hq. simpl. rewrite Hunit. split; reflexivity.
Qed.

Lemma stock_entry_after_registration_witness :
  issued (handleAddStock Scenario.counterId Scenario.tracked Scenario.bottles3x750)
  = [AddStock (MenuItem.id Scenario.whisky) (totalQuantity Scenario.bottles3x750)
       (selectedUnit Scenario.registerDrinks) (stockNotesFor Scenario.bottles3x750)]
  /\ toast (handleAddStock Scenario.counterId Scenario.tracked Scenario.bottles3x750)
     = Some (toast_success "Stock added successfully").
Proof.
  apply (stock_entry_after_registration Scenario.counterId Scenario.untracked
           Scenario.registerDrinks Scenario.drinks Scenario.whisky Scenario.bottles3x750).
  - reflexivity.
  - reflexivity.
  - vm_compute. left. reflexivity.
  - discriminate.
  - intros ii [].
  - reflexivity.
  - reflexivity.
Defined.

(** ** Kitchen and bar tickets *)

Lemma filter_partition_perm_neg {A : Type} (f : A -> bool) (l : list A) :
  Permutation (filter (fun x => negb (f x)) l ++ filter f l) l.
Proof.
  induction l as [| x l IH]; simpl; [apply perm_nil |].
  destruct (f x); simpl.
  - apply Permutation_sym, Permutation_cons_app, Permutation_sym. exact IH.
  - apply perm_skip. exact IH.
Qed.

(** X21. [printSplitKOT] puts every item of the order on exactly one ticket.
    At most two tickets are sent, the kitchen ticket before the bar ticket,
    and never an empty one; each ticket lists, in the order of the order, the
    items routed to its printer, so together the tickets hold the items of
    the order once each.  An item whose menu id or category is unknown, or
    whose category name is empty, is on the kitchen ticket.  A printer
    that gets no ticket is reported as having printed. *)
Theorem printSplitKOT_routes_every_item (toLocaleTimeString : string -> string)
    (printKOT : Ticket.t -> bool) (order : Order.t) (restaurantName : string)
    (categories : list PrinterCategory.t)
    (menuItemsCategoryMap : string -> option string) (waiterName : option string) :
  let out := printSplitKOT toLocaleTimeString printKOT order restaurantName categories
               menuItemsCategoryMap waiterName in
  let toBar := goesToBar categories menuItemsCategoryMap in
  Forall (fun t =>
            Ticket.items t <> []
            /\ Ticket.items t
               = map ticketLine
                   (filter (fun i => Bool.eqb (toBar i)
                                       (match Ticket.printer t with
                                        | BarPrinter => true
                                        | KitchenPrinter => false
                                        end))
                           (Order.items order)))
         (fst out)
  /\ Permutation (flat_map Ticket.items (fst out)) (map ticketLine (Order.items order))
  /\ (exists kitchen bar,
        map Ticket.printer (fst out) = kitchen ++ bar
        /\ (kitchen = [] \/ kitchen = [KitchenPrinter])
        /\ (bar = [] \/ bar = [BarPrinter])
        /\ (kitchen = [] -> fst (snd out) = true)
        /\ (bar = [] -> snd (snd out) = true))
  /\ (forall item,
        menuItemsCategoryMap (OrderItem.menuItemId item) = None
        \/ menuItemsCategoryMap (OrderItem.menuItemId item) = Some ""%string
        \/ (forall name, menuItemsCategoryMap (OrderItem.menuItemId item) = Some name ->
                         categoryBarPrinterMap categories name = None) ->
        toBar item = false).
Proof.
  cbv zeta. unfold printSplitKOT. cbv zeta. cbn [fst snd].
  set (toBar := goesToBar categories menuItemsCategoryMap).
  assert (Hk : filter (fun i => Bool.eqb (toBar i) false) (Order.items order)
               = filter (fun i => negb (toBar i)) (Order.items order)).
  { apply filter_ext. intro i. destruct (toBar i); reflexivity. }
  assert (Hb : filter (fun i => Bool.eqb (toBar i) true) (Order.items order)
               = filter toBar (Order.items order)).
  { apply filter_ext. intro i. destruct (toBar i); reflexivity. }
  pose proof (Permutation_map ticketLine
                (filter_partition_perm_neg toBar (Order.items order))) as Hperm.
  rewrite map_app in Hperm.
  destruct (map ticketLine (filter (fun i => negb (toBar i)) (Order.items order)))
    as [| k ks] eqn:Ek;
    destruct (map ticketLine (filter toBar (Order.items order))) as [| b bs] eqn:Eb;
    cbn [app flat_map map Ticket.items Ticket.printer forallb];
    rewrite ?app_nil_r.
  all: assert (Hunknown : forall item,
                 menuItemsCategoryMap (OrderItem.menuItemId item) = None
                 \/ menuItemsCategoryMap (OrderItem.menuItemId item) = Some ""%string
                 \/ (forall name,
                        menuItemsCategoryMap (OrderItem.menuItemId item) = Some name ->
                        categoryBarPrinterMap categories name = None) ->
                 toBar item = false)
    by (intros item Hitem; unfold toBar, goesToBar;
        destruct Hitem as [H | [H | H]];
        [ rewrite H; reflexivity
        | rewrite H; reflexivity
        | destruct (menuItemsCategoryMap (OrderItem.menuItemId item)) as [name |];
          [rewrite (H name eq_refl); destruct (str_truthy name); reflexivity
          | reflexivity] ]).
  - split; [apply Forall_nil |]. split; [exact Hperm |]. split; [| exact Hunknown].
    exists [], []. repeat split; auto.
  - split.
    { apply Forall_cons; [| apply Forall_nil]. cbn [Ticket.items Ticket.printer].
      split; [discriminate | rewrite Hb; symmetry; exact Eb]. }
    split; [exact Hperm |]. split; [| exact Hunknown].
    exists [], [BarPrinter]. repeat split; auto. intro H; discriminate H.
  - split.
    { apply Forall_cons; [| apply Forall_nil]. cbn [Ticket.items Ticket.printer].
      split; [discriminate | rewrite Hk; symmetry; exact Ek]. }
    split; [rewrite app_nil_r in Hperm; exact Hperm |]. split; [| exact Hunknown].
    exists [KitchenPrinter], []. repeat split; auto. intro H; discriminate H.
  - split.
    { apply Forall_cons; [| apply Forall_cons; [| apply Forall_nil]];
        cbn [Ticket.items Ticket.printer];
        (split; [discriminate |]);
        [rewrite Hk; symmetry; exact Ek | rewrite Hb; symmetry; exact Eb]. }
    split; [exact Hperm |]. split; [| exact Hunknown].
    exists [KitchenPrinter], [BarPrinter]. repeat split; auto; intro H; discriminate H.
Qed.

Example split_of_a_mixed_order :
  map (fun t => (Ticket.printerLabel t, Ticket.orderId t, Ticket.items t))
      (fst (printSplitKOT (fun t => t) (fun _ => true) Bar.order "Chiya Dani"
              Bar.categories Bar.menuItemsCategoryMap None))
  = [ ("KITCHEN ORDER"%string, "000123"%string, [("Momo"%string, Fin 1)]);
      ("BAR ORDER"%string, "000123"%string, [("Whisky"%string, Fin 2)]) ].
Proof. vm_compute. reflexivity. Qed.

(** ** Image URLs *)

Lemma prefix_app (a b : string) : String.prefix a (a ++ b) = true.
Proof.
  induction a as [| c a IH]; simpl; [destruct b; reflexivity |].
  destruct (Ascii.ascii_dec c c) as [_ | H]; [exact IH | contradiction H; reflexivity].
Qed.

Lemma prefix_refl (a : string) : String.prefix a a = true.
Proof.
  induction a as [| c a IH]; simpl; [reflexivity |].
  destruct (Ascii.ascii_dec c c) as [_ | H]; [exact IH | contradiction H; reflexivity].
Qed.

Lemma string_app_length (a b : string) :
  String.length (a ++ b) = (String.length a + String.length b)%nat.
Proof.
  induction a as [| c a IH]; simpl; [reflexivity | rewrite IH; reflexivity].
Qed.

Lemma string_app_neq (a b : string) : b <> ""%string -> (a ++ b)%string <> a.
Proof.
  intros Hb Heq. apply (f_equal String.length) in Heq.
  rewrite string_app_length in Heq.
  destruct b; [contradiction Hb; reflexivity | simpl in Heq; lia].
Qed.

(** X22. The optimized URL of an image always starts with the image's own
    URL, and is that URL unchanged unless a bucket URL is configured and the
    image lies under it.  The responsive source set is empty in exactly the
    cases in which the URL is left unchanged, so an image outside the bucket
    is requested by its plain URL only. *)
Theorem optimized_url_extends_source (R2_PUBLIC_URL src : string)
    (size : ImageOptimizer.ImageSize) :
  String.prefix src (ImageOptimizer.getOptimizedImageUrl R2_PUBLIC_URL src size) = true
  /\ (ImageOptimizer.getOptimizedImageUrl R2_PUBLIC_URL src size <> src ->
      src <> ""%string /\ R2_PUBLIC_URL <> ""%string
      /\ String.prefix R2_PUBLIC_URL src = true)
  /\ (ImageOptimizer.generateSrcSet R2_PUBLIC_URL src = ""%string
      <-> ImageOptimizer.getOptimizedImageUrl R2_PUBLIC_URL src size = src).
Proof.
  assert (Hsame : forall (P : Prop) (out srcset : string),
             out = src -> srcset = ""%string ->
             String.prefix src out = true
             /\ (out <> src -> P)
             /\ (srcset = ""%string <-> out = src)).
  { intros P out srcset Hout Hset. subst out srcset.
    split; [apply prefix_refl |]. split; [intro H; contradiction H; reflexivity |].
    split; reflexivity. }
  unfold ImageOptimizer.getOptimizedImageUrl, ImageOptimizer.generateSrcSet.
  destruct src as [| c src]; [apply Hsame; reflexivity |].
  cbn [str_truthy negb orb].
  destruct R2_PUBLIC_URL as [| r R2]; [apply Hsame; reflexivity |].
  cbn [str_truthy negb orb andb].
  destruct (String.prefix (String r R2) (String c src)) eqn:Hpre;
    cbn [negb]; [| apply Hsame; reflexivity].
  clear Hsame.
  destruct (ImageOptimizer.IMAGE_QUALITY size) as [[width height] quality].
  split; [apply prefix_app |]. split.
  - intros _. repeat split; discriminate.
  - split.
    + intro H. discriminate H.
    + intro H. exfalso. revert H. apply string_app_neq. discriminate.
Qed.

Example optimized_url_in_bucket :
  ImageOptimizer.getOptimizedImageUrl "https://cdn.example" "https://cdn.example/momo.jpg"
    ImageOptimizer.small
  = "https://cdn.example/momo.jpg?format=webp&quality=75&fit=cover&width=300&height=300"%string.
Proof. reflexivity. Qed.

(** X23. [getOptimalSize] grows with the container: a wider container never
    gets a smaller preset.  It never answers [original], and a width that is
    not a number gets [large]. *)
Theorem getOptimalSize_monotone (w1 w2 : number) :
  (num_leb w1 w2 = true ->
   (ImageOptimizer.rank (ImageOptimizer.getOptimalSize w1)
    <= ImageOptimizer.rank (ImageOptimizer.getOptimalSize w2))%nat)
  /\ ImageOptimizer.getOptimalSize w1 <> ImageOptimizer.original
  /\ ImageOptimizer.getOptimalSize NaN = ImageOptimizer.large.
Proof.
  split; [| split; [| reflexivity]].
  - unfold ImageOptimizer.getOptimalSize.
    destruct w1 as [| | q1 |], w2 as [| | q2 |]; simpl; try discriminate; try lia;
      intro H; try (apply Qle_bool_iff in H);
      qle_cases; simpl; try lia; lra.
  - unfold ImageOptimizer.getOptimalSize.
    destruct (num_leb w1 (Fin 150)); [discriminate |].
    destruct (num_leb w1 (Fin 300)); [discriminate |].
    destruct (num_leb w1 (Fin 600)); discriminate.
Qed.

(** X24. Cache keys do not collide: two images, or two presets of one
    image, never share a key. *)
Theorem getImageCacheKey_injective (src src' : string)
    (size size' : ImageOptimizer.ImageSize) :
  ImageOptimizer.getImageCacheKey src size = ImageOptimizer.getImageCacheKey src' size' ->
  src = src' /\ size = size'.
Proof.
  unfold ImageOptimizer.getImageCacheKey.
  destruct size, size'; simpl; intro H; inversion H; split; reflexivity.
Qed.

Lemma getImageCacheKey_injective_witness :
  "momo.jpg"%string = "momo.jpg"%string /\ ImageOptimizer.small = ImageOptimizer.small.
Proof.
  apply (getImageCacheKey_injective "momo.jpg" "momo.jpg"
           ImageOptimizer.small ImageOptimizer.small eq_refl).
Defined.
